(** * 8foldAI backend: conversation interpretation pipeline

    A shallow embedding of the Python backend (input_validator.py,
    error_handler.py, conversation_manager.py, database.py and
    llm_enhanced.py) together with the properties stated about it.

    Conventions of the embedding.
    - A Python [str] is a [string]; a character is a code point of the
      Latin-1 range (the 8-bit [ascii] type).  [str.lower], [str.isspace]
      and the regular-expression classes are given on that range as
      CPython defines them.  A statement about every prompt is a statement
      about every text of that range; where a property does not extend to
      the code points beyond it, the statement says so.
    - Python integers are [Z]; delays and averages, floats in the source,
      are exact rationals.
    - The two SQLite tables of the conversation store are a list of rows
      in rowid order and a finite map keyed by the primary key.
    - Exceptions are values of type [exn]; code that can raise returns a
      sum. *)

From Stdlib Require Import ZArith QArith Qround Lia Bool.
From Stdlib Require Import Ascii String.
From stdpp Require Import base option list strings gmap sorting.

Local Open Scope string_scope.

(** ** Python string primitives *)

Module Py.

Definition ord (c : ascii) : N := N_of_ascii c.

Definition between (lo hi : N) (c : ascii) : bool :=
  (N.leb lo (ord c) && N.leb (ord c) hi)%bool.

(** [str.isspace] of one character, which is also the class [\s] of the
    [re] module on [str] patterns: TAB..CR, FS..US, space, NEL, NBSP. *)
Definition isspace (c : ascii) : bool :=
  (between 9 13 c || between 28 32 c || N.eqb (ord c) 133 || N.eqb (ord c) 160)%bool.

Definition isdigit (c : ascii) : bool := between 48 57 c.

Definition is_upper (c : ascii) : bool :=
  (between 65 90 c || between 192 214 c || between 216 222 c)%bool.

Definition is_lower (c : ascii) : bool :=
  (between 97 122 c || between 224 246 c || between 248 254 c)%bool.

Definition lower_char (c : ascii) : ascii :=
  if is_upper c then ascii_of_N (ord c + 32) else c.

Definition upper_char (c : ascii) : ascii :=
  if is_lower c then ascii_of_N (ord c - 32) else c.

Fixpoint map_chars (f : ascii -> ascii) (s : string) : string :=
  match s with
  | EmptyString => EmptyString
  | String c s' => String (f c) (map_chars f s')
  end.

(** [s.lower()] *)
Definition lower (s : string) : string := map_chars lower_char s.

(** [s.capitalize()] *)
Definition capitalize (s : string) : string :=
  match s with
  | EmptyString => EmptyString
  | String c s' => String (upper_char c) (lower s')
  end.

(** [len(s)] *)
Definition len (s : string) : nat := String.length s.

(** [s.startswith(p)] *)
Fixpoint startswith (s p : string) : bool :=
  match p, s with
  | EmptyString, _ => true
  | String a p', String b s' => if Ascii.eqb a b then startswith s' p' else false
  | String _ _, EmptyString => false
  end.

(** [p in s] *)
Fixpoint contains (s p : string) : bool :=
  if startswith s p then true
  else match s with
       | EmptyString => false
       | String _ s' => contains s' p
       end.

(** [s.lstrip()], [s.rstrip()], [s.strip()] *)
Fixpoint lstrip (s : string) : string :=
  match s with
  | EmptyString => EmptyString
  | String c s' => if isspace c then lstrip s' else s
  end.

Fixpoint rstrip (s : string) : string :=
  match s with
  | EmptyString => EmptyString
  | String c s' =>
      match rstrip s' with
      | EmptyString => if isspace c then EmptyString else String c EmptyString
      | r => String c r
      end
  end.

Definition strip (s : string) : string := rstrip (lstrip s).

(** [s[:n]] *)
Fixpoint take_chars (n : nat) (s : string) : string :=
  match n, s with
  | S n', String c s' => String c (take_chars n' s')
  | _, _ => EmptyString
  end.

(** [''.join(c for c in s if p c)] *)
Fixpoint filter_chars (p : ascii -> bool) (s : string) : string :=
  match s with
  | EmptyString => EmptyString
  | String c s' => if p c then String c (filter_chars p s') else filter_chars p s'
  end.

(** [s.count(c)] for a one-character needle. *)
Fixpoint count_char (c : ascii) (s : string) : nat :=
  match s with
  | EmptyString => 0
  | String d s' => (if Ascii.eqb c d then 1 else 0) + count_char c s'
  end.

(** [s.replace(old, new)] for a non-empty [old]: every occurrence of [old],
    found left to right without overlap, becomes [new].  [skip] counts the
    characters of a matched occurrence still to be dropped. *)
Fixpoint replace_go (old new : string) (skip : nat) (s : string) : string :=
  match s with
  | EmptyString => EmptyString
  | String c s' =>
      match skip with
      | S k => replace_go old new k s'
      | O =>
          if startswith s old
          then new +:+ replace_go old new (len old - 1) s'
          else String c (replace_go old new 0 s')
      end
  end.

Definition replace (s old new : string) : string :=
  match old with
  | EmptyString => s
  | _ => replace_go old new 0 s
  end.

(** [s.upper()] *)
Definition upper (s : string) : string := map_chars upper_char s.

(** [s.split(sep)] for a non-empty [sep]; [cur] is the piece being read
    and [skip] counts the characters of a separator still to be dropped. *)
Fixpoint split_go (sep : string) (skip : nat) (cur : string) (s : string)
  : list string :=
  match s with
  | EmptyString => [cur]
  | String c s' =>
      match skip with
      | S k => split_go sep k cur s'
      | O =>
          if startswith s sep
          then cur :: split_go sep (len sep - 1) EmptyString s'
          else split_go sep 0 (cur +:+ String c EmptyString) s'
      end
  end.

Definition split (s sep : string) : list string := split_go sep 0 EmptyString s.

(** [l[i]] where the index is known to exist. *)
Definition item (l : list string) (i : nat) : string := default EmptyString (l !! i).

(** [l[-n:]] *)
Definition last_n {A} (n : nat) (l : list A) : list A := drop (length l - n) l.

(** Truth value of a string: [bool(s)]. *)
Definition truthy (s : string) : bool :=
  match s with EmptyString => false | _ => true end.

(** [any(p(x) for x in l)] *)
Definition any {A} (p : A -> bool) (l : list A) : bool := existsb p l.

(** [range(n)]: 0, 1, ..., n - 1, and nothing when [n] is not positive. *)
Definition range (n : Z) : list Z := map Z.of_nat (seq 0 (Z.to_nat n)).

End Py.

(** ** The fragment of Python's [re] used by the validator

    A backtracking matcher in continuation-passing style.  It explores
    alternatives in the priority order of CPython's engine: the left branch
    of [|] first, a greedy repetition longest first, a lazy one shortest
    first.  Every repetition in the source patterns is over a single
    character class, which is what [Rep] offers. *)

Module Re.

Inductive regex : Type :=
| Eps                                          (* empty pattern *)
| Lit (c : ascii)                              (* a literal character *)
| Cls (p : ascii -> bool)                      (* [...] , \s , \d , . *)
| Rep (greedy : bool) (min : nat) (p : ascii -> bool)
                                               (* X* X+ X{n,} and X+? *)
| Seq (r1 r2 : regex)
| Alt (r1 r2 : regex)                          (* r1|r2 *)
| Grp (r : regex)                              (* capturing group 1 *)
| Bol                                          (* ^ *)
| Eol.                                         (* $ *)

(** A literal word. *)
Fixpoint word (s : string) : regex :=
  match s with
  | EmptyString => Eps
  | String c EmptyString => Lit c
  | String c s' => Seq (Lit c) (word s')
  end.

(** [r?] *)
Definition Opt (r : regex) : regex := Alt r Eps.

(** The dot: any character but a newline. *)
Definition dot (c : ascii) : bool := negb (N.eqb (Py.ord c) 10).

Section Matcher.

(** [re.IGNORECASE] *)
Variable icase : bool.
Context {A : Type}.

(** A literal of the pattern against a character of the subject.  Under
    [re.IGNORECASE] two code points of the Latin-1 range match when their
    lower-case forms are equal.  (Beyond that range [re] also lets the
    letters i and s of a pattern match U+0130, U+0131 and U+017F, whose
    [str.lower] is not that letter.) *)
Definition lit_ok (c d : ascii) : bool :=
  if icase then Ascii.eqb (Py.lower_char c) (Py.lower_char d)
  else Ascii.eqb c d.

Definition cls_ok (p : ascii -> bool) (d : ascii) : bool :=
  if icase then (p d || p (Py.lower_char d) || p (Py.upper_char d))%bool
  else p d.

(** A continuation receives the position reached, the rest of the
    subject and the text of group 1 so far. *)
Definition cont : Type := nat -> string -> option string -> option A.

Fixpoint rep (greedy : bool) (p : ascii -> bool) (min : nat)
         (pos : nat) (s : string) (g : option string) (k : cont) : option A :=
  let stop := match min with O => k pos s g | S _ => None end in
  match s with
  | EmptyString => stop
  | String c s' =>
      if cls_ok p c then
        if greedy then
          match rep greedy p (Nat.pred min) (S pos) s' g k with
          | Some a => Some a
          | None => stop
          end
        else
          match stop with
          | Some a => Some a
          | None => rep greedy p (Nat.pred min) (S pos) s' g k
          end
      else stop
  end.

Fixpoint run (r : regex) (pos : nat) (s : string) (g : option string)
         (k : cont) : option A :=
  match r with
  | Eps => k pos s g
  | Lit c =>
      match s with
      | String d s' => if lit_ok c d then k (S pos) s' g else None
      | EmptyString => None
      end
  | Cls p =>
      match s with
      | String d s' => if cls_ok p d then k (S pos) s' g else None
      | EmptyString => None
      end
  | Rep greedy min p => rep greedy p min pos s g k
  | Seq r1 r2 => run r1 pos s g (fun pos' s' g' => run r2 pos' s' g' k)
  | Alt r1 r2 =>
      match run r1 pos s g k with
      | Some a => Some a
      | None => run r2 pos s g k
      end
  | Grp r1 =>
      run r1 pos s g (fun pos' s' _ => k pos' s' (Some (Py.take_chars (pos' - pos) s)))
  | Bol => match pos with O => k pos s g | S _ => None end
  | Eol =>
      match s with
      | EmptyString => k pos s g
      | String c EmptyString => if N.eqb (Py.ord c) 10 then k pos s g else None
      | _ => None
      end
  end.

End Matcher.

(** A successful match: where it ends and what group 1 holds. *)
Record found : Type := { m_end : nat; group1 : option string }.

Definition finish : @cont found :=
  fun pos _ g => Some {| m_end := pos; group1 := g |}.

(** [re.match(r, s)]: a match starting at position 0. *)
Definition match_ (icase : bool) (r : regex) (s : string) : option found :=
  run icase r 0 s None finish.

(** [re.search(r, s)]: the match at the leftmost position that has one. *)
Fixpoint search_from (icase : bool) (r : regex) (pos : nat) (s : string)
  : option found :=
  match run icase r pos s None finish with
  | Some m => Some m
  | None =>
      match s with
      | EmptyString => None
      | String _ s' => search_from icase r (S pos) s'
      end
  end.

Definition search (icase : bool) (r : regex) (s : string) : option found :=
  search_from icase r 0 s.

(** [re.sub(r'\s+', ' ', s)]: every maximal run of white space becomes one
    space.  [inrun] tells that the previous character belonged to a run
    already replaced. *)
Fixpoint sub_spaces_go (inrun : bool) (s : string) : string :=
  match s with
  | EmptyString => EmptyString
  | String c s' =>
      if Py.isspace c
      then if inrun then sub_spaces_go true s'
           else String " " (sub_spaces_go true s')
      else String c (sub_spaces_go false s')
  end.

Definition sub_spaces (s : string) : string := sub_spaces_go false s.

End Re.

(** ** input_validator.py *)

Module InputValidator.

Import Py Re.

Definition OUT_OF_SCOPE_KEYWORDS : list string :=
  [ "stock price"; "predict"; "forecast"; "guarantee";
    "legal advice"; "financial advice"; "investment";
    "personal data"; "private information"; "hack";
    "illegal"; "unethical" ].

Definition in_chars (set : string) (c : ascii) : bool :=
  contains set (String c EmptyString).

(** [[bcdfghjklmnpqrstvwxyz]] *)
Definition consonant : ascii -> bool := in_chars "bcdfghjklmnpqrstvwxyz".

(** [[a-zA-Z0-9\s]] *)
Definition alnum_space (c : ascii) : bool :=
  (between 97 122 c || between 65 90 c || isdigit c || isspace c)%bool.

(** [[a-zA-Z0-9\s&.]] *)
Definition name_char (c : ascii) : bool :=
  (alnum_space c || in_chars "&." c)%bool.

(** [r'[bcdfghjklmnpqrstvwxyz]{6,}'] *)
Definition gibberish : regex := Rep true 6 consonant.

(** The five patterns of [invalid_patterns], in the order of the list. *)
Definition invalid_patterns : list regex :=
  [ Seq Bol (Seq (word "test") (Seq (Rep true 0 isdigit) Eol));
    Seq Bol (Seq (word "asd") (Rep true 1 (in_chars "f")));
    Seq Bol (word "qwerty");
    Seq Bol (Seq (Rep true 1 isdigit) Eol);
    Seq Bol (Seq (Rep true 1 (fun c => negb (alnum_space c))) Eol) ].

Definition is_some {A} (o : option A) : bool :=
  match o with Some _ => true | None => false end.

Definition validate_company_name (name : string) : bool * string * list string :=
  if (negb (truthy name) || negb (truthy (strip name)))%bool then
    (false, "Please provide a company name.", [])
  else
    let name := strip name in
    if (len name <? 2)%nat then
      (false, "Company name is too short. Please provide a valid company name.", [])
    else if (100 <? len name)%nat then
      (false, "Company name is too long. Please provide a shorter name.", [])
    else if is_some (search false gibberish (lower name)) then
      (false, "This doesn't look like a valid company name. Could you clarify?", [])
    else if any (fun pattern => is_some (match_ false pattern (lower name)))
                invalid_patterns then
      (false, "This doesn't appear to be a real company name. Please provide a valid company name.", [])
    else
      (true, "Valid company name.", []).

Definition very_brief_reason : string := "Your request is very brief.".

Definition very_brief_questions : list string :=
  [ "What would you like me to help you with?";
    "Are you looking to research a company?";
    "Would you like to see what I can do?" ].

Definition detect_ambiguity (prompt : string) : bool * string * list string :=
  let prompt_lower := strip (lower prompt) in
  if (len prompt <? 5)%nat then
    (true, very_brief_reason, very_brief_questions)
  else
    let vague_pronouns := ["it"; "that"; "this"; "them"; "those"] in
    if any (fun pronoun => startswith prompt_lower pronoun) vague_pronouns then
      (true, "I'm not sure what you're referring to.",
       [ "Which company are you asking about?";
         "Could you be more specific?" ])
    else
      let generic_terms :=
        [ "something"; "anything"; "stuff"; "things";
          "help me"; "i need"; "can you" ] in
      if (any (fun term => contains prompt_lower term) generic_terms
          && (len prompt <? 30)%nat)%bool then
        (true, "Your request is a bit vague.",
         [ "What specific company would you like to research?";
           "What information are you looking for?";
           "Would you like to see some examples of what I can do?" ])
      else
        let question_count := count_char "?" prompt in
        if (2 <? question_count)%nat then
          (true, "You've asked multiple questions.",
           [ "Which question would you like me to answer first?";
             "Let's tackle these one at a time. What's most important?" ])
        else
          (false, "", []).

(** The first keyword of the deny list found in the lowered prompt. *)
Fixpoint first_keyword (kws : list string) (prompt_lower : string) : option string :=
  match kws with
  | [] => None
  | keyword :: rest =>
      if contains prompt_lower keyword then Some keyword
      else first_keyword rest prompt_lower
  end.

Definition impossible_patterns : list (regex * string) :=
  [ (Seq (word "predict") (Seq (Rep true 0 dot) (word "future")),
     "I can't predict the future, but I can analyze current trends.");
    (Alt (word "guarantee") (word "promise"),
     "I can't make guarantees, but I can provide data-driven insights.");
    (Alt (word "hack") (Alt (word "crack") (word "break")),
     "I can't help with that. I'm designed for legitimate business research.");
    (Alt (Seq (word "personal") (Seq (Rep true 0 dot) (word "data")))
         (Seq (word "private") (Seq (Rep true 0 dot) (word "information"))),
     "I only work with publicly available business information.") ].

Fixpoint first_pattern (pats : list (regex * string)) (prompt_lower : string)
  : option string :=
  match pats with
  | [] => None
  | (pattern, message) :: rest =>
      if is_some (search false pattern prompt_lower) then Some message
      else first_pattern rest prompt_lower
  end.

Definition is_within_capabilities (prompt : string) : bool * string * list string :=
  let prompt_lower := lower prompt in
  match first_keyword OUT_OF_SCOPE_KEYWORDS prompt_lower with
  | Some keyword =>
      (false,
       "I can't help with " +:+ keyword
         +:+ ". I'm designed for company research and account planning.",
       [ "I can research companies and generate account plans";
         "I can analyze competitors and market positioning";
         "I can help you compare multiple companies" ])
  | None =>
      match first_pattern impossible_patterns prompt_lower with
      | Some message =>
          (false, message,
           [ "Would you like to research a company instead?";
             "I can help you analyze publicly available business data." ])
      | None => (true, "", [])
      end
  end.

(** [ord(char) >= 32 or char in '\n\r\t'] *)
Definition printable (c : ascii) : bool :=
  (N.leb 32 (ord c) || N.eqb (ord c) 10 || N.eqb (ord c) 13 || N.eqb (ord c) 9)%bool.

Definition sanitize_input (text : string) : string :=
  if negb (truthy text) then ""
  else
    let text := sub_spaces text in
    let text := strip text in
    let text := filter_chars printable text in
    let max_length := 1000%nat in
    if (max_length <? len text)%nat then take_chars max_length text else text.

Definition validate_prompt (prompt : string)
  : bool * string * option (list string) :=
  let prompt := sanitize_input prompt in
  if negb (truthy prompt) then
    (false, "Please provide a message.", Some ["What would you like to know?"])
  else
    let '(is_capable, cap_message, cap_alternatives) := is_within_capabilities prompt in
    if negb is_capable then (false, cap_message, Some cap_alternatives)
    else
      let '(is_ambiguous, amb_reason, clarifying_questions) := detect_ambiguity prompt in
      if is_ambiguous then (false, amb_reason, Some clarifying_questions)
      else (true, "Valid prompt.", None).

(** The tail shared by the four extraction patterns:
    [\s+([a-zA-Z0-9\s&.]+?)(?:\s|$|\.)] *)
Definition name_tail : regex :=
  Seq (Grp (Rep false 1 name_char)) (Alt (Cls isspace) (Alt Eol (Lit "."))).

Definition research_pattern : regex :=
  Seq (word "research") (Seq (Rep true 1 isspace) name_tail).

Definition tell_me_about_pattern : regex :=
  Seq (word "tell me about") (Seq (Rep true 1 isspace) name_tail).

Definition look_up_pattern : regex :=
  Seq (word "look up") (Seq (Rep true 1 isspace) name_tail).

(** [find\s+(?:information\s+(?:on|about)\s+)?(...)] *)
Definition find_pattern : regex :=
  Seq (word "find")
    (Seq (Rep true 1 isspace)
       (Seq (Opt (Seq (word "information")
                    (Seq (Rep true 1 isspace)
                       (Seq (Alt (word "on") (word "about"))
                          (Rep true 1 isspace)))))
            name_tail)).

(** [match.group(1).strip()] of the first pattern that matches. *)
Fixpoint first_group (pats : list regex) (prompt : string) : option string :=
  match pats with
  | [] => None
  | p :: rest =>
      match search true p prompt with
      | Some m => Some (strip (default "" (group1 m)))
      | None => first_group rest prompt
      end
  end.

Definition extract_company_name_from_prompt (prompt : string) : option string :=
  let prompt := strip prompt in
  first_group
    [research_pattern; tell_me_about_pattern; look_up_pattern; find_pattern]
    prompt.

End InputValidator.

(** ** error_handler.py *)

(** A raised exception: [type(e).__name__] and [str(e)]. *)
Record exn : Type := Exn { exn_type : string; exn_str : string }.

Module ErrorHandler.

Import Py.

(** [min(a, b)] on numbers: the first of the smallest. *)
Definition py_min (a b : Q) : Q := if Qle_bool a b then a else b.

Section Retry.

(** The state a call can read and change, and [time.sleep] on it. *)
Context {W A : Type}.
Variable sleep : Q -> W -> W.

(** A callable of no argument: it returns or raises, and leaves a state. *)
Definition thunk : Type := W -> (A + exn) * W.

(** [raise last_exception]; raising [None], which is what happens when
    the loop has not run at all, is a [TypeError]. *)
Definition raise_last (last_exception : option exn) : A + exn :=
  match last_exception with
  | Some e => inr e
  | None => inr (Exn "TypeError" "exceptions must derive from BaseException")
  end.

(** What [time.sleep] raises when it is given a negative delay. *)
Definition sleep_negative : exn :=
  Exn "ValueError" "sleep length must be non-negative".

(** The body of [for attempt in range(max_retries + 1)], over the
    attempts still to run.  An exception of [time.sleep], raised inside
    the handler, leaves the loop.  Console output is not part of the
    state. *)
Fixpoint retry_loop (func : thunk) (max_retries : Z)
         (max_delay exponential_base : Q)
         (attempts : list Z) (delay : Q) (last_exception : option exn)
         (w : W) : (A + exn) * W :=
  match attempts with
  | [] => (raise_last last_exception, w)
  | attempt :: rest =>
      match func w with
      | (inl v, w') => (inl v, w')
      | (inr e, w') =>
          if (attempt <? max_retries)%Z then
            if Qle_bool 0 delay then
              retry_loop func max_retries max_delay exponential_base rest
                (py_min (delay * exponential_base) max_delay) (Some e)
                (sleep delay w')
            else (inr sleep_negative, w')
          else
            retry_loop func max_retries max_delay exponential_base rest
              delay (Some e) w'
      end
  end.

Definition retry_with_exponential_backoff (func : thunk)
           (max_retries : Z) (initial_delay max_delay exponential_base : Q)
  : thunk :=
  retry_loop func max_retries max_delay exponential_base
    (range (max_retries + 1)) initial_delay None.

(** The defaults of the signature. *)
Definition default_max_retries : Z := 3.
Definition default_initial_delay : Q := 1.
Definition default_max_delay : Q := 10.
Definition default_exponential_base : Q := 2.

Definition retry_default (func : thunk) : thunk :=
  retry_with_exponential_backoff func default_max_retries
    default_initial_delay default_max_delay default_exponential_base.

(** The decorator [with_retry(max_retries, initial_delay)]. *)
Definition with_retry (max_retries : Z) (initial_delay : Q) (func : thunk)
  : thunk :=
  retry_with_exponential_backoff func max_retries initial_delay
    default_max_delay default_exponential_base.

End Retry.

(** Instrumentation: the same callable on a state that also counts how
    often it was invoked, and the sleep that leaves the count alone. *)
Definition counting {W A} (func : @thunk W A) : @thunk (W * nat) A :=
  fun '(w, n) => let '(r, w') := func w in (r, (w', S n)).

Definition sleep_counting {W} (sleep : Q -> W -> W) : Q -> W * nat -> W * nat :=
  fun d '(w, n) => (sleep d w, n).

Definition msg_api_key : string :=
  "I'm having trouble connecting to my AI brain. Please check that your API key is configured correctly in the .env file.".
Definition msg_network : string :=
  "I'm having trouble connecting to the internet. Please check your connection and try again.".
Definition msg_rate_limit : string :=
  "I'm being rate limited. Please wait a moment and try again.".
Definition msg_invalid : string :=
  "There was an issue with your request. Could you try rephrasing it?".
Definition msg_json : string :=
  "I had trouble understanding the response. Let me try again.".
Definition msg_database : string :=
  "I encountered a database error. Your data should be safe, but please try again.".
Definition msg_generic : string :=
  "I encountered an unexpected error. Please try again, and if the problem persists, check the console for details.".

Definition get_user_friendly_error_message (error : exn) : string :=
  let error_str := lower (exn_str error) in
  let error_type := exn_type error in
  if (contains error_str "api key" || contains error_str "authentication"
      || contains error_str "unauthorized")%bool then msg_api_key
  else if (contains error_str "connection" || contains error_str "timeout"
           || contains error_str "network")%bool then msg_network
  else if (contains error_str "rate limit"
           || contains error_str "too many requests")%bool then msg_rate_limit
  else if (contains error_str "invalid"
           || contains error_str "validation")%bool then msg_invalid
  else if (contains error_str "json"
           || String.eqb error_type "JSONDecodeError")%bool then msg_json
  else if (contains error_str "database"
           || contains error_str "sqlite")%bool then msg_database
  else msg_generic.


End ErrorHandler.

(** ** JSON values

    What [json.loads] returns and [json.dumps] accepts.  A column that
    holds JSON text is represented by the document it denotes:
    [json.loads (json.dumps v) = v] on these values. *)

#[warnings="-register-all"]
Inductive json : Type :=
| JNull
| JBool (b : bool)
| JInt (n : Z)
| JFloat (q : Q)
| JStr (s : string)
| JArr (l : list json)
| JObj (o : gmap string json).

(** A Python [dict] with string keys. *)
Abbreviation dict := (gmap string json).

(** [bool(v)] *)
Definition json_truthy (v : json) : bool :=
  match v with
  | JNull => false
  | JBool b => b
  | JInt n => negb (n =? 0)%Z
  | JFloat q => negb (Qeq_bool q 0)
  | JStr s => Py.truthy s
  | JArr l => match l with [] => false | _ => true end
  | JObj o => negb (bool_decide (o = ∅))
  end.

(** [type(v).__name__] *)
Definition json_type_name (v : json) : string :=
  match v with
  | JNull => "NoneType"
  | JBool _ => "bool"
  | JInt _ => "int"
  | JFloat _ => "float"
  | JStr _ => "str"
  | JArr _ => "list"
  | JObj _ => "dict"
  end.

(** ** conversation_manager.py *)

Module ConversationManager.

Import Py.

Definition PERSONA_CONFUSED : string := "confused".
Definition PERSONA_EFFICIENT : string := "efficient".
Definition PERSONA_CHATTY : string := "chatty".
Definition PERSONA_EDGE_CASE : string := "edge_case".
Definition PERSONA_UNKNOWN : string := "unknown".

Definition INTENT_RESEARCH : string := "research".
Definition INTENT_UPDATE : string := "update".
Definition INTENT_CLARIFY : string := "clarify".
Definition INTENT_CHAT : string := "chat".
Definition INTENT_OFF_TOPIC : string := "off_topic".
Definition INTENT_HELP : string := "help".

(** A row of table [conversations].  The rowid is the position in the
    table; [c_timestamp] is [CURRENT_TIMESTAMP] at the insert, in whole
    seconds; [c_metadata] is [None] for SQL NULL. *)
Record conversation_row : Type := ConversationRow {
  c_session_id : string;
  c_timestamp : Z;
  c_role : string;
  c_content : string;
  c_intent : option string;
  c_persona : option string;
  c_metadata : option dict
}.

(** A row of table [user_sessions], without its primary key. *)
Record session_row : Type := SessionRow {
  created_at : Z;
  last_active : Z;
  interaction_count : Z;
  detected_persona : option string;
  preferences : option dict
}.

(** The two tables. *)
Record store : Type := Store {
  conversations : list conversation_row;
  user_sessions : gmap string session_row
}.

Definition empty_store : store := Store [] ∅.

(** One element of the list [get_conversation_history] returns. *)
Record turn : Type := Turn {
  role : string;
  content : string;
  intent : option string;
  persona : option string;
  timestamp : Z;
  metadata : dict
}.

(** [json.dumps(metadata) if metadata else None] *)
Definition metadata_json (metadata : option dict) : option dict :=
  match metadata with
  | Some m => if bool_decide (m = ∅) then None else Some m
  | None => None
  end.

(** [COALESCE(a, b)] *)
Definition coalesce {A} (a b : option A) : option A :=
  match a with Some _ => a | None => b end.

(** The upsert of the session row; [now] is [CURRENT_TIMESTAMP] in that
    statement (the default of both time columns on insert). *)
Definition upsert_session (now : Z) (persona : option string)
           (old : option session_row) : session_row :=
  match old with
  | None =>
      {| created_at := now; last_active := now; interaction_count := 1;
         detected_persona := persona; preferences := None |}
  | Some r =>
      {| created_at := created_at r;
         last_active := now;
         interaction_count := interaction_count r + 1;
         detected_persona := coalesce persona (detected_persona r);
         preferences := preferences r |}
  end.

(** The call runs two statements, and each reads [CURRENT_TIMESTAMP] for
    itself: [now] is what the INSERT into [conversations] reads, [later]
    what the upsert of [user_sessions] reads after it. *)
Definition save_conversation_turn (now later : Z)
           (session_id role content : string)
           (intent persona : option string) (metadata : option dict)
           (db : store) : store :=
  let row :=
    {| c_session_id := session_id; c_timestamp := now; c_role := role;
       c_content := content; c_intent := intent; c_persona := persona;
       c_metadata := metadata_json metadata |} in
  {| conversations := conversations db ++ [row];
     user_sessions :=
       <[ session_id := upsert_session later persona (user_sessions db !! session_id) ]>
         (user_sessions db) |}.

(** [ORDER BY timestamp DESC]: SQLite scans the table in rowid order and
    sorts on the timestamp alone, so rows of equal timestamp stay in
    rowid order. *)
Fixpoint insert_desc (r : conversation_row) (sorted : list conversation_row)
  : list conversation_row :=
  match sorted with
  | [] => [r]
  | y :: rest =>
      if (c_timestamp y <=? c_timestamp r)%Z then r :: sorted
      else y :: insert_desc r rest
  end.

Definition order_by_timestamp_desc (rows : list conversation_row)
  : list conversation_row :=
  foldr insert_desc [] rows.

(** [LIMIT n]; a negative bound is no bound.  [n] is the integer bound to
    the parameter, which sqlite3 accepts when it fits a signed 64-bit
    INTEGER (it raises [OverflowError] otherwise, before any row is
    read). *)
Definition sql_limit {A} (n : Z) (rows : list A) : list A :=
  if (n <? 0)%Z then rows else take (Z.to_nat n) rows.

Definition row_to_turn (row : conversation_row) : turn :=
  {| role := c_role row; content := c_content row; intent := c_intent row;
     persona := c_persona row; timestamp := c_timestamp row;
     metadata := default ∅ (c_metadata row) |}.

Definition get_conversation_history (session_id : string) (limit : Z)
           (db : store) : list turn :=
  let rows :=
    sql_limit limit
      (order_by_timestamp_desc
         (filter (fun row => c_session_id row = session_id) (conversations db))) in
  map row_to_turn (reverse rows).

Definition get_session_info (session_id : string) (db : store)
  : option session_row :=
  user_sessions db !! session_id.

Definition update_session_preferences (session_id : string) (prefs : dict)
           (db : store) : store :=
  {| conversations := conversations db;
     user_sessions :=
       alter (fun r => {| created_at := created_at r;
                          last_active := last_active r;
                          interaction_count := interaction_count r;
                          detected_persona := detected_persona r;
                          preferences := Some prefs |})
             session_id (user_sessions db) |}.

Definition clear_conversation (session_id : string) (db : store) : store :=
  {| conversations :=
       filter (fun row => c_session_id row ≠ session_id) (conversations db);
     user_sessions := delete session_id (user_sessions db) |}.

(** [sum(1 for msg in msgs for term in terms if p msg term)] *)
Definition count_pairs (p : turn -> string -> bool) (msgs : list turn)
           (terms : list string) : nat :=
  length (List.filter (fun '(msg, term) => p msg term)
                      (msg ← msgs; term ← terms; [(msg, term)])).

Definition Qltb (a b : Q) : bool := negb (Qle_bool b a).

Definition Qnat (n : nat) : Q := inject_Z (Z.of_nat n).

(** The averages and ratios are Python floats; they are computed here as
    exact rationals, which orders them the same way against the constants
    0.6, 0.7, 0.8, 30 and 100 for any history a request can hold. *)
Definition detect_user_persona (history : list turn) : string :=
  match history with
  | [] => PERSONA_UNKNOWN
  | _ =>
    let user_messages := filter (fun msg => role msg = "user") history in
    if (length user_messages <? 2)%nat then PERSONA_UNKNOWN
    else
      let n := Qnat (length user_messages) in
      let avg_length :=
        (Qnat (foldr Nat.add 0%nat (map (fun msg => len (content msg)) user_messages)) / n)%Q in
      let question_count :=
        length (List.filter (fun msg => contains (content msg) "?") user_messages) in
      let question_ratio := (Qnat question_count / n)%Q in
      let vague_terms :=
        ["help"; "something"; "maybe"; "not sure"; "don't know"; "what can"; "how do"] in
      let vague_count :=
        count_pairs (fun msg term => contains (lower (content msg)) term)
                    user_messages vague_terms in
      let off_topic_terms :=
        ["by the way"; "anyway"; "also"; "oh"; "hmm"; "interesting"] in
      let off_topic_count :=
        count_pairs (fun msg term => contains (lower (content msg)) term)
                    user_messages off_topic_terms in
      let direct_commands :=
        ["research"; "update"; "change"; "generate"; "find"; "show"] in
      let direct_count :=
        count_pairs (fun msg cmd => startswith (lower (content msg)) cmd)
                    user_messages direct_commands in
      if ((2 <=? vague_count)%nat || Qltb (6 # 10) question_ratio)%bool then
        PERSONA_CONFUSED
      else if (Qltb avg_length 30
               && Qle_bool (n * (7 # 10)) (Qnat direct_count))%bool then
        PERSONA_EFFICIENT
      else if (Qltb 100 avg_length || (2 <=? off_topic_count)%nat)%bool then
        PERSONA_CHATTY
      else if ((5 <? length user_messages)%nat
               && Qltb (8 # 10) question_ratio)%bool then
        PERSONA_CONFUSED
      else PERSONA_UNKNOWN
  end.

(** [next((msg for msg in reversed(history) if p msg), None)] *)
Definition last_where {A} (p : A -> bool) (l : list A) : option A :=
  List.find p (reverse l).

Definition classify_intent (prompt : string) (history : list turn) : string :=
  let prompt_lower := strip (lower prompt) in
  let has := any (fun keyword => contains prompt_lower keyword) in
  if has ["what can you"; "how do i"; "help"; "capabilities"; "what do you do"]
  then INTENT_HELP
  else if has ["research"; "find information"; "look up"; "tell me about"; "analyze"]
  then INTENT_RESEARCH
  else if has ["update"; "change"; "modify"; "edit"; "set"; "fix"]
  then INTENT_UPDATE
  else if has ["what do you mean"; "can you explain"; "i don't understand"; "clarify"]
  then INTENT_CLARIFY
  else if has ["weather"; "news"; "joke"; "story"; "how are you"]
  then INTENT_OFF_TOPIC
  else if ((len prompt <? 20)%nat && contains prompt "?")%bool
  then INTENT_CHAT
  else
    match last_where (fun msg => String.eqb (role msg) "assistant") history with
    | Some last_assistant_msg =>
        if contains (content last_assistant_msg) "?" then INTENT_CLARIFY
        else INTENT_RESEARCH
    | None => INTENT_RESEARCH
    end.

(** The value of [last_company] after the loop over [reversed(history)]. *)
Definition last_company (history : list turn) : option json :=
  match
    last_where
      (fun msg => (String.eqb (role msg) "assistant"
                   && negb (bool_decide (metadata msg = ∅))
                   && bool_decide (is_Some (metadata msg !! "company_name")))%bool)
      history
  with
  | Some msg => metadata msg !! "company_name"
  | None => None
  end.

Definition references : list string :=
  ["it"; "that company"; "this company"; "the company"; "them"; "that one"; "this one"].

(** The loop over [references]; [str.replace] wants a [str]. *)
Fixpoint replace_references (refs : list string) (prompt_lower : string)
         (company : json) (prompt : string) : string + exn :=
  match refs with
  | [] => inl prompt
  | ref :: rest =>
      if contains prompt_lower ref then
        match company with
        | JStr name =>
            let prompt := replace prompt ref name in
            let prompt := replace prompt (capitalize ref) name in
            replace_references rest prompt_lower company prompt
        | _ =>
            inr (Exn "TypeError"
                     ("replace() argument 2 must be str, not "
                        +:+ json_type_name company))
        end
      else replace_references rest prompt_lower company prompt
  end.

Definition resolve_references (prompt : string) (history : list turn)
  : string + exn :=
  match history with
  | [] => inl prompt
  | _ =>
      match last_company history with
      | Some company =>
          if json_truthy company
          then replace_references references (lower prompt) company prompt
          else inl prompt
      | None => inl prompt
      end
  end.

End ConversationManager.

(** ** database.py *)

Module Database.

(** A row of table [accounts], without its primary key.  The time stamps
    are [datetime.utcnow()] at the call. *)
Record account_row : Type := AccountRow {
  company_name : json;
  payload : json;
  acc_created_at : Z;
  acc_updated_at : Z
}.

(** What [load_account] returns. *)
Record account : Type := Account {
  a_id : string;
  a_company_name : json;
  a_payload : json;
  a_created_at : Z;
  a_updated_at : Z
}.

(** [INSERT ... ON CONFLICT(id) DO UPDATE SET payload, updated_at].
    [name] is a [str] or [None], which the TEXT column stores and returns
    as it is; the definition does not describe other values (a number is
    stored as its decimal text, and sqlite3 refuses to bind a list or a
    dict). *)
Definition save_account (now : Z) (id : string) (name : json) (pl : json)
           (accounts : gmap string account_row) : gmap string account_row :=
  match accounts !! id with
  | None =>
      <[ id := {| company_name := name; payload := pl;
                  acc_created_at := now; acc_updated_at := now |} ]> accounts
  | Some old =>
      <[ id := {| company_name := company_name old; payload := pl;
                  acc_created_at := acc_created_at old;
                  acc_updated_at := now |} ]> accounts
  end.

Definition load_account (id : string) (accounts : gmap string account_row)
  : option account :=
  match accounts !! id with
  | None => None
  | Some row =>
      Some {| a_id := id; a_company_name := company_name row;
              a_payload := payload row; a_created_at := acc_created_at row;
              a_updated_at := acc_updated_at row |}
  end.

(** [payload["name"]] when the payload is an object that has it. *)
Definition payload_name (pl : json) : option json :=
  match pl with
  | JObj o => o !! "name"
  | _ => None
  end.

End Database.

(** ** llm_enhanced.py *)

Module LlmEnhanced.

Import Py InputValidator ErrorHandler ConversationManager.

(** What a request can read and change: the conversation store, the wall
    clock in seconds, the number of collaborator calls made so far, and
    the pauses taken.  Time passes in [time.sleep], and on its own between
    two readings of the clock: [lapses] lists, for the readings still to
    come, how far the clock has moved on when each of them is made (the
    environment decides; nothing moves once the list is used up). *)
Record world : Type := World {
  db : store;
  clock : Q;
  lapses : list Q;
  calls : nat;
  slept : list Q
}.

(** Time goes by until the next statement that reads the clock: the
    clock moves by the first of the lapses. *)
Definition lapse (w : world) : world :=
  {| db := db w; clock := (clock w + hd 0%Q (lapses w))%Q;
     lapses := tl (lapses w); calls := calls w; slept := slept w |}.

(** [CURRENT_TIMESTAMP]: the clock, to the second. *)
Definition current_timestamp (w : world) : Z := Qfloor (clock w).

Definition sleep (d : Q) (w : world) : world :=
  {| db := db w; clock := (clock w + d)%Q; lapses := lapses w;
     calls := calls w; slept := (slept w ++ [d])%list |}.

Definition tick (w : world) : world :=
  {| db := db w; clock := clock w; lapses := lapses w; calls := S (calls w);
     slept := slept w |}.

(** Computations that return or raise, on a [world]. *)
Definition M (A : Type) : Type := world -> (A + exn) * world.

Definition ret {A} (a : A) : M A := fun w => (inl a, w).
Definition raise {A} (e : exn) : M A := fun w => (inr e, w).
Definition bind {A B} (c : M A) (k : A -> M B) : M B :=
  fun w => match c w with
           | (inl a, w') => k a w'
           | (inr e, w') => (inr e, w')
           end.
(** [try: c  except Exception as e: h e] *)
Definition try_except {A} (c : M A) (h : exn -> M A) : M A :=
  fun w => match c w with
           | (inl a, w') => (inl a, w')
           | (inr e, w') => h e w'
           end.
Definition lift {A} (r : A + exn) : M A := fun w => (r, w).

Notation "'let*' x ':=' c 'in' k" := (bind c (fun x => k))
  (at level 10, x pattern, c at level 100, k at level 200, only parsing).

(** The store accessors as computations.  Each of the two statements of
    [save_conversation_turn] reads the clock when it runs. *)
Definition save_turn (session_id role content : string)
           (intent persona : option string) (metadata : option dict) : M unit :=
  fun w =>
    let w1 := lapse w in
    let w2 := lapse w1 in
    (inl tt,
     {| db := save_conversation_turn (current_timestamp w1)
                (current_timestamp w2) session_id role content intent persona
                metadata (db w);
        clock := clock w2; lapses := lapses w2; calls := calls w;
        slept := slept w |}).

Definition history_of (session_id : string) (limit : Z) : M (list turn) :=
  fun w => (inl (get_conversation_history session_id limit (db w)), w).

(** A response object. *)
Definition strings (l : list string) : json := JArr (map JStr l).

Definition response (reply : string) (suggestions : list string) : dict :=
  {[ "reply" := JStr reply; "company" := JObj ∅;
     "suggestions" := strings suggestions ]}.

Definition clarification (reply : string) (suggestions : list string) : json :=
  JObj (<[ "needs_clarification" := JBool true ]> (response reply suggestions)).

Definition generate_help_response (persona : string) : dict :=
  if String.eqb persona PERSONA_CONFUSED then
    response
      "I'm here to help you research companies! Here's what I can do:

1. Research any company - Just say 'Research Google' or 'Tell me about Microsoft'
2. Update information - Say 'Update revenue to $280B'
3. Compare companies - Research multiple companies and I'll help you compare

What would you like to start with?"
      [ "Research a company (e.g., 'Research Apple')";
        "See an example account plan";
        "Learn about comparing companies" ]
  else if String.eqb persona PERSONA_EFFICIENT then
    response
      "I research companies, generate account plans, and compare options. What company?"
      [ "Research [company name]"; "Compare companies"; "Generate best plan" ]
  else
    response
      "I can help you research companies and create account plans. Just tell me which company you'd like to research, or ask me to compare multiple companies!"
      [ "Research a specific company";
        "Compare multiple companies";
        "Update existing information" ].

Definition generate_off_topic_response (prompt persona : string) : dict :=
  response
    (if String.eqb persona PERSONA_CHATTY then
       "That's an interesting topic! While I'd love to chat about that, I'm specifically designed to help with company research and account planning. Is there a company you'd like me to research?"
     else
       "I'm focused on helping with company research and account planning. Would you like me to research a company for you?")
    [ "Research a company"; "See what I can do"; "Generate an account plan" ].

Definition generate_contextual_suggestions (intent : string)
           (companies_list : list json) (persona : string) : list string :=
  let suggestions :=
    if String.eqb intent INTENT_RESEARCH then
      (["Update specific information"]
         ++ (if (1 <=? length companies_list)%nat
             then ["Research another company to compare"] else []))%list
    else if String.eqb intent INTENT_UPDATE then
      ["Research another company"; "View current account plan"]
    else [] in
  let suggestions :=
    (suggestions ++
       (if (2 <=? length companies_list)%nat
        then ["Generate best plan from all companies"]
        else if (length companies_list =? 1)%nat
        then ["Research a competitor"]
        else ["Research your first company"]))%list in
  take 3 suggestions.

(** [d["reply"]] of a response built by [response]. *)
Definition reply_of (d : dict) : string :=
  match d !! "reply" with Some (JStr s) => s | _ => "" end.

(** The model the request talks to, chosen by [get_llm]. *)
Inductive llm : Type :=
| Sonar (api_key : string)
| GeminiPro (api_key : string).

(** The pieces interpolated into the system prompt, and the user message.
    The fixed text around them is the same in every request. *)
Record messages : Type := Messages {
  persona_instructions : string;
  intent_instructions : string;
  conversation_context : string;
  research_context : string;
  companies_context : string;
  verbosity : json;
  human : string
}.

(** The single message of the extraction sub-prompt. *)
Definition extraction_prompt (resolved_prompt : string) : string :=
  "Extract the company name from this prompt. Return ONLY the company name, or 'NONE' if no company is mentioned.
Prompt: " +:+ resolved_prompt.

Definition quote : string := String (ascii_of_N 34) EmptyString.

(** The code fences of a reply are dropped before it is parsed. *)
Definition strip_fences (content : string) : string :=
  if contains content "```json" then
    item (split (item (split content "```json") 1) "```") 0
  else if contains content "```" then
    item (split (item (split content "```") 1) "```") 0
  else content.

(** [f"{role}: {content}\n"] for the last six turns. *)
Definition build_conversation_context (history : list turn) : string :=
  match history with
  | [] => ""
  | _ =>
      "RECENT CONVERSATION:
" +:+ foldr (fun msg acc =>
               upper (role msg) +:+ ": " +:+ take_chars 200 (content msg) +:+ "
" +:+ acc) "
" (last_n 6 history)
  end.

(** [if KEY:] on a variable of the environment: set and not empty. *)
Definition usable (key : option string) : option string :=
  match key with
  | Some k => if truthy k then Some k else None
  | None => None
  end.

(** A Gemini key that is in fact a Perplexity key selects Sonar. *)
Definition gemini_or_sonar (key : string) : llm :=
  if startswith key "pplx-" then Sonar key else GeminiPro key.

Definition no_api_key : exn :=
  Exn "ValueError" "No valid API key found (GEMINI_API_KEY or PERPLEXITY_API_KEY)".

Section Collaborators.

(** config.py: the two keys of the environment. *)
Variables PERPLEXITY_API_KEY GEMINI_API_KEY : option string.

(** [llm.invoke(messages).content]: what the [n]-th collaborator call
    of the request answers, or the exception it raises. *)
Variable invoke_chat : llm -> nat -> messages -> string + exn.
Variable invoke_extract : llm -> nat -> string -> string + exn.

(** search.py, [extract_info(company)], at the [n]-th collaborator call. *)
Variable extract_info : nat -> string -> json + exn.

(** [json.loads], [json.dumps] and [json.dumps(_, indent=2)]. *)
Variable json_loads : string -> json + exn.
Variable json_dumps : json -> string.
Variable json_dumps_indent : json -> string.

(** sqlite3 binding a value that is not a [str] to column [content]:
    the text stored, or the error raised. *)
Variable bind_content : json -> string + exn.

(** The tables of [get_persona_instructions] and
    [get_intent_instructions]. *)
Variable get_persona_instructions : string -> string.
Variable get_intent_instructions : string -> string.

Definition get_llm : llm + exn :=
  match usable PERPLEXITY_API_KEY with
  | Some key => inl (Sonar key)
  | None =>
      match usable GEMINI_API_KEY with
      | Some key => inl (gemini_or_sonar key)
      | None => inr no_api_key
      end
  end.

(** The inner function [extract_company]. *)
Definition extract_company (model : llm) (resolved_prompt : string) : M string :=
  fun w =>
    match invoke_extract model (calls w) (extraction_prompt resolved_prompt) with
    | inl content =>
        (inl (replace (replace (replace (strip content) quote "") "'" "") "." ""),
         tick w)
    | inr e => (inr e, tick w)
    end.

(** The inner function [generate_response]. *)
Definition generate_response (model : llm) (msgs : messages) : M json :=
  fun w =>
    match invoke_chat model (calls w) msgs with
    | inl content => (json_loads (strip (strip_fences content)), tick w)
    | inr e => (inr e, tick w)
    end.

(** The research step: [extract_info] under its own [try]. *)
Definition research (company_name : string) : M string :=
  if (truthy company_name && negb (String.eqb company_name "NONE")
      && negb (String.eqb (lower company_name) "none"))%bool then
    fun w =>
      match extract_info (calls w) company_name with
      | inl search_data =>
          (inl ("REAL-TIME RESEARCH DATA FOR " +:+ company_name +:+ ":
" +:+ json_dumps search_data +:+ "

"), tick w)
      | inr _ =>
          (inl ("Note: Could not fetch real-time data for " +:+ company_name
                +:+ ". Use general knowledge.

"), tick w)
      end
  else ret "".

(** [if "suggestions" not in result: result["suggestions"] = ...] *)
Definition ensure_suggestions (result : json) (fresh : list string) : json + exn :=
  match result with
  | JObj o =>
      if bool_decide (is_Some (o !! "suggestions")) then inl result
      else inl (JObj (<[ "suggestions" := strings fresh ]> o))
  | JArr l =>
      if existsb (fun v => match v with
                           | JStr s => String.eqb s "suggestions"
                           | _ => false
                           end) l
      then inl result
      else inr (Exn "TypeError" "list indices must be integers or slices, not str")
  | JStr s =>
      if contains s "suggestions" then inl result
      else inr (Exn "TypeError" "'str' object does not support item assignment")
  | _ =>
      inr (Exn "TypeError"
             ("argument of type '" +:+ json_type_name result +:+ "' is not iterable"))
  end.

Definition no_get (v : json) : exn :=
  Exn "AttributeError"
    ("'" +:+ json_type_name v +:+ "' object has no attribute 'get'").

(** The metadata of the assistant turn, from [result["company"]["name"]]. *)
Definition turn_metadata (result : json) (intent : string) : dict + exn :=
  match result with
  | JObj o =>
      match o !! "company" with
      | Some company =>
          if json_truthy company then
            match company with
            | JObj c =>
                match c !! "name" with
                | Some name =>
                    if json_truthy name then
                      inl (<[ "action" :=
                                JStr (if String.eqb intent INTENT_RESEARCH
                                      then "research" else "update") ]>
                             (<[ "company_name" := name ]> ∅))
                    else inl ∅
                | None => inl ∅
                end
            | _ => inr (no_get company)
            end
          else inl ∅
      | None => inl ∅
      end
  | _ => inr (no_get result)
  end.

(** [result["reply"]] as the text bound to column [content]. *)
Definition reply_content (result : json) : string + exn :=
  match result with
  | JObj o =>
      match o !! "reply" with
      | Some (JStr s) => inl s
      | Some v => bind_content v
      | None => inr (Exn "KeyError" "'reply'")
      end
  | _ => inr (no_get result)
  end.

Definition error_suggestions : list string :=
  ["Try rephrasing your request"; "Check your API configuration"].

(** The block "Extract company name if research intent": the name to
    research, or the reply that ends the request when the extracted name
    is not a valid one. *)
Definition company_step (model : llm) (intent resolved_prompt : string)
  : M (string + json) :=
  let ask_model : M (string + json) :=
    let* company_name :=
      try_except (with_retry sleep 2 1 (extract_company model resolved_prompt))
                 (fun _ => ret "NONE") in
    ret (inl company_name) in
  if String.eqb intent INTENT_RESEARCH then
    match extract_company_name_from_prompt resolved_prompt with
    | Some extracted_name =>
        if truthy extracted_name then
          let '(is_valid_company, company_msg, company_suggestions) :=
            validate_company_name extracted_name in
          if negb is_valid_company then
            ret (inr (clarification company_msg company_suggestions))
          else ret (inl extracted_name)
        else ask_model
    | None => ask_model
    end
  else ret (inl "NONE").

(** From "Perform research if needed" to the end of the function. *)
Definition answer (model : llm) (session_id : string) (history : list turn)
           (resolved_prompt persona intent : string)
           (companies_list : list json) (user_preferences : dict)
           (company_name : string) : M json :=
  let* research_context := research company_name in
  let msgs :=
    {| persona_instructions := get_persona_instructions persona;
       intent_instructions := get_intent_instructions intent;
       conversation_context := build_conversation_context history;
       research_context := research_context;
       companies_context :=
         match companies_list with
         | [] => ""
         | _ => "EXISTING COMPANIES IN SESSION:
" +:+ json_dumps_indent (JArr companies_list) +:+ "

"
         end;
       verbosity := default (JStr "balanced") (user_preferences !! "verbosity");
       human := resolved_prompt |} in
  try_except
    (let* result := with_retry sleep 3 1 (generate_response model msgs) in
     let* result :=
       lift (ensure_suggestions result
               (generate_contextual_suggestions intent companies_list persona)) in
     let* metadata := lift (turn_metadata result intent) in
     let* reply := lift (reply_content result) in
     let* _ := save_turn session_id "assistant" reply (Some intent)
                 (Some persona) (Some metadata) in
     ret result)
    (fun e =>
       let error_msg := get_user_friendly_error_message e in
       let* _ := save_turn session_id "assistant" error_msg
                   (Some "error") None None in
       ret (JObj (response error_msg error_suggestions))).

(** The body of [process_with_llm_enhanced], under the decorator. *)
Definition process_body (prompt session_id : string)
           (companies_list : option (list json))
           (user_preferences : option dict) : M json :=
  let companies_list := default [] companies_list in
  let user_preferences :=
    default {[ "verbosity" := JStr "balanced" ]} user_preferences in
  let prompt := sanitize_input prompt in
  let '(is_valid, validation_message, suggestions) := validate_prompt prompt in
  if negb is_valid then
    ret (clarification validation_message (default [] suggestions))
  else
    let* history := history_of session_id 10 in
    let* resolved_prompt := lift (resolve_references prompt history) in
    let persona := detect_user_persona history in
    let intent := classify_intent resolved_prompt history in
    let* _ := save_turn session_id "user" prompt (Some intent) (Some persona) None in
    if String.eqb intent INTENT_HELP then
      let help_response := generate_help_response persona in
      let* _ := save_turn session_id "assistant" (reply_of help_response)
                  (Some intent) None None in
      ret (JObj help_response)
    else if String.eqb intent INTENT_OFF_TOPIC then
      let off_topic_response := generate_off_topic_response resolved_prompt persona in
      let* _ := save_turn session_id "assistant" (reply_of off_topic_response)
                  (Some intent) None None in
      ret (JObj off_topic_response)
    else
      let* model := lift get_llm in
      let* name := company_step model intent resolved_prompt in
      match name with
      | inr reply => ret reply
      | inl company_name =>
          answer model session_id history resolved_prompt persona intent
            companies_list user_preferences company_name
      end.

(** The decorator [safe_api_call(fallback_response)]. *)
Definition safe_api_call (fallback_response : dict) (body : M json) : M json :=
  try_except body
    (fun e =>
       let error_message := get_user_friendly_error_message e in
       ret (JObj (if bool_decide (is_Some (fallback_response !! "reply"))
                  then <[ "reply" := JStr error_message ]> fallback_response
                  else fallback_response))).

Definition process_with_llm_enhanced (prompt session_id : string)
           (companies_list : option (list json))
           (user_preferences : option dict) : M json :=
  safe_api_call
    (response "I encountered an error. Please try again." [])
    (process_body prompt session_id companies_list user_preferences).

End Collaborators.

End LlmEnhanced.

(** ** Notions used in the statements *)

Module Statements.

Import Py InputValidator ErrorHandler ConversationManager LlmEnhanced.

(** How often [retry_with_exponential_backoff], with the defaults of its
    signature, invokes [func] when started in state [w]. *)
Definition invocations {W A} (sleep : Q -> W -> W) (func : @thunk W A) (w : W)
  : nat :=
  snd (snd (retry_default (sleep_counting sleep) (counting func) (w, 0%nat))).

(** A callable that raises the same exception at every invocation, on a
    state that records the pauses. *)
Definition always_raises (e : exn) : @thunk (list Q) unit :=
  fun w => (inr e, w).

Definition log_sleep (d : Q) (w : list Q) : list Q := w ++ [d].

(** [h'] is [h] with turns of a role other than "user" inserted at any
    positions. *)
Inductive inserted : list turn -> list turn -> Prop :=
| inserted_nil : inserted [] []
| inserted_keep t h h' : inserted h h' -> inserted (t :: h) (t :: h')
| inserted_add t h h' : role t ≠ "user" -> inserted h h' -> inserted h (t :: h').

(** One call of [save_conversation_turn] with all its arguments, and the
    two readings of the clock: [s_now] by the INSERT of the turn,
    [s_later] by the upsert of the session record. *)
Record save_call : Type := SaveCall {
  s_now : Z;
  s_later : Z;
  s_session_id : string;
  s_role : string;
  s_content : string;
  s_intent : option string;
  s_persona : option string;
  s_metadata : option dict
}.

Definition run_save (c : save_call) (db : store) : store :=
  save_conversation_turn (s_now c) (s_later c) (s_session_id c) (s_role c)
    (s_content c) (s_intent c) (s_persona c) (s_metadata c) db.

(** The calls run one after the other, the head of the list first. *)
Definition run_saves (cs : list save_call) (db : store) : store :=
  foldl (fun db c => run_save c db) db cs.

(** The calls of a list that write to a given session. *)
Definition calls_for (session_id : string) (cs : list save_call) : list save_call :=
  filter (fun c => s_session_id c = session_id) cs.

(** The turns of a session, in the order they were written. *)
Definition rows_of (session_id : string) (db : store) : list conversation_row :=
  filter (fun row => c_session_id row = session_id) (conversations db).

(** The count of a session, 0 while it has no record. *)
Definition count_of (sid : string) (db : store) : Z :=
  default 0%Z (interaction_count <$> (user_sessions db !! sid)).

(** The turn a call of [save_conversation_turn] is expected to read back
    as: a missing or empty metadata mapping reads back as the empty one. *)
Definition turn_of_call (c : save_call) : turn :=
  {| role := s_role c; content := s_content c; intent := s_intent c;
     persona := s_persona c; timestamp := s_now c;
     metadata := default ∅ (s_metadata c) |}.

(** [n] user turns written to session "s" within the second 5; the
    contents are the letters A, B, C, ... *)
Definition burst (n : nat) : list save_call :=
  map (fun i => SaveCall 5 5 "s" "user"
                         (String (ascii_of_nat (65 + i)) EmptyString)
                         None None None)
      (seq 0 n).

(** A request on an empty store at time 0 that is served within the
    second but for its pauses, with a Perplexity key in the environment, a
    chat model that raises [e] at every call, and no search results. *)
Definition start : world := World empty_store 0 [] 0 [].

Definition chat_raises (e : exn) : llm -> nat -> messages -> string + exn :=
  fun _ _ _ => inr e.

Definition unavailable : exn := Exn "RuntimeError" "service unavailable".

Definition process_failing (e : exn) (prompt session_id : string) : M json :=
  process_with_llm_enhanced
    None (Some "pplx-key")
    (chat_raises e)
    (fun _ _ _ => inr unavailable)
    (fun _ _ => inr unavailable)
    (fun _ => inr (Exn "JSONDecodeError" "Expecting value: line 1 column 1 (char 0)"))
    (fun _ => "") (fun _ => "")
    (fun _ => inr (Exn "InterfaceError" "Error binding parameter 2 - probably unsupported type."))
    (fun _ => "") (fun _ => "")
    prompt session_id None None.


End Statements.

(** ** llm_enhanced.py, [generate_best_plan] *)

Module BestPlan.

Import Py ErrorHandler ConversationManager LlmEnhanced.

Section Collaborators.

Variables PERPLEXITY_API_KEY GEMINI_API_KEY : option string.

(** [llm.invoke(messages).content] for the fixed system prompt and the
    given user prompt, at the [n]-th collaborator call. *)
Variable invoke_plan : llm -> nat -> string -> string + exn.
Variable json_loads : string -> json + exn.
Variable json_dumps_indent : json -> string.

Definition user_prompt (companies_list : list json) : string :=
  "Companies to analyze:

" +:+ json_dumps_indent (JArr companies_list) +:+ "

Generate the best account plan.".

(** The inner function [generate]. *)
Definition generate (model : llm) (companies_list : list json) : M json :=
  fun w =>
    match invoke_plan model (calls w) (user_prompt companies_list) with
    | inl content => (json_loads (strip (strip_fences content)), tick w)
    | inr e => (inr e, tick w)
    end.

Definition fallback_response : dict :=
  {[ "reply" := JStr "Error generating best plan"; "bestPlan" := JObj ∅ ]}.

Definition generate_best_plan (companies_list : list json) : M json :=
  safe_api_call fallback_response
    (let* model := lift (get_llm PERPLEXITY_API_KEY GEMINI_API_KEY) in
     with_retry sleep 3 1 (generate model companies_list)).

End Collaborators.

End BestPlan.

(** ** Further notions: the rest of the modules *)

Module Observations.

Import Py InputValidator ErrorHandler ConversationManager LlmEnhanced Statements.

(** [all(p(c) for c in s)] *)
Fixpoint all_chars (p : ascii -> bool) (s : string) : bool :=
  match s with
  | EmptyString => true
  | String c s' => (p c && all_chars p s')%bool
  end.

(** A text is either empty or begins with a character that is not white
    space. *)
Definition left_clean (s : string) : Prop :=
  match s with
  | EmptyString => True
  | String c _ => isspace c = false
  end.

(** Not a white-space character. *)
Definition nospace (c : ascii) : bool := negb (isspace c).

(** No white space after the first character. *)
Definition inner_clean (x : string) : Prop :=
  match x with
  | EmptyString => True
  | String _ t => all_chars nospace t = true
  end.

(** The words the four extraction patterns begin with. *)
Definition triggers : list string := ["research"; "tell me about"; "look up"; "find"].

(** A character a sanitized text can hold: not a control character, and
    no white space other than the plain space. *)
Definition clean_char (c : ascii) : bool :=
  (N.leb 32 (ord c) && (negb (isspace c) || Ascii.eqb c " "))%bool.

(** The alternatives offered with a deny-listed keyword. *)
Definition capability_alternatives : list string :=
  [ "I can research companies and generate account plans";
    "I can analyze competitors and market positioning";
    "I can help you compare multiple companies" ].

Definition capability_message (keyword : string) : string :=
  "I can't help with " +:+ keyword
    +:+ ". I'm designed for company research and account planning.".

(** Instrumentation: the same callable on a state that also records the
    pauses taken, and the sleep that records them. *)
Definition logging {W A} (func : @thunk W A) : @thunk (W * list Q) A :=
  fun '(w, l) => let '(r, w') := func w in (r, (w', l)).

Definition sleep_logging {W} (sleep : Q -> W -> W)
  : Q -> W * list Q -> W * list Q :=
  fun d '(w, l) => (sleep d w, (l ++ [d])%list).

(** The pauses [retry_with_exponential_backoff] takes with the defaults of
    its signature, in order. *)
Definition pauses {W A} (sleep : Q -> W -> W) (func : @thunk W A) (w : W)
  : list Q :=
  snd (snd (retry_default (sleep_logging sleep) (logging func) (w, []))).

(** How often the loop invokes [func] for a given [max_retries]. *)
Definition invocations_of {W A} (sleep : Q -> W -> W) (func : @thunk W A)
           (max_retries : Z) (initial_delay max_delay exponential_base : Q)
           (w : W) : nat :=
  snd (snd (retry_with_exponential_backoff (sleep_counting sleep)
              (counting func) max_retries initial_delay max_delay
              exponential_base (w, 0%nat))).

(** [get_session_info(session_id)["preferences"]]:
    [json.loads(row[4]) if row[4] else {}]. *)
Definition session_preferences (session_id : string) (db : store) : option dict :=
  (fun row => default ∅ (preferences row)) <$> get_session_info session_id db.

(** The word lists of the persona classifier. *)
Definition vague_terms : list string :=
  ["help"; "something"; "maybe"; "not sure"; "don't know"; "what can"; "how do"].

Definition direct_commands : list string :=
  ["research"; "update"; "change"; "generate"; "find"; "show"].

(** A short, direct user message: fewer than 30 characters, no question
    mark, no vague term, and a command verb at its start. *)
Definition direct_message (msg : turn) : Prop :=
  (len (content msg) < 30)%nat
  /\ contains (content msg) "?" = false
  /\ (forall term, In term vague_terms ->
                   contains (lower (content msg)) term = false)
  /\ exists cmd, In cmd direct_commands
                 /\ startswith (lower (content msg)) cmd = true.

(** A reply object: a JSON object with a "reply" and a "suggestions"
    entry. *)
Definition reply_object (v : json) : Prop :=
  exists o : dict, v = JObj o /\ is_Some (o !! "reply") /\ is_Some (o !! "suggestions").

(** [w'] is [w] with [n] more turns, all of session [session_id], at the
    end of table [conversations]; the records of the other sessions are
    those of [w]. *)
Definition grows (session_id : string) (n : nat) (w w' : world) : Prop :=
  exists added : list conversation_row,
    conversations (db w') = (conversations (db w) ++ added)%list
    /\ length added = n
    /\ Forall (fun row => c_session_id row = session_id) added
    /\ forall other : string,
         session_id <> other ->
         user_sessions (db w') !! other = user_sessions (db w) !! other.

(** The state after a first collaborator call and, for each pause of the
    list, the pause and one more call. *)
Definition after_attempts (pauses : list Q) (w : world) : world :=
  foldl (fun w d => tick (sleep d w)) (tick w) pauses.

(** The persona a sequence of saves leaves in the session record: that of
    the last call that passed one ([COALESCE(?, detected_persona)]). *)
Definition last_persona (cs : list save_call) : option string :=
  foldl (fun acc c => coalesce (s_persona c) acc) None cs.

(** An integer that sqlite3 binds: it fits a signed 64-bit INTEGER. *)
Definition int64 (n : Z) : Prop := (- 2 ^ 63 <= n < 2 ^ 63)%Z.

(** What [raise last_exception] raises when no attempt was made. *)
Definition raise_none : exn :=
  Exn "TypeError" "exceptions must derive from BaseException".

(** The four outcomes of the pauses under the defaults. *)
Definition default_pauses : list (list Q) :=
  [ []; [1%Q]; [1%Q; 2%Q]; [1%Q; 2%Q; 4%Q] ].

End Observations.

(** * Properties *)

Import Py Re InputValidator ErrorHandler ConversationManager LlmEnhanced Statements.
Import Observations.

Local Open Scope list_scope.

(** ** Lengths under sanitization *)

Section SanitizeLength.

Lemma len_sub_spaces_go (b : bool) (s : string) :
(len (sub_spaces_go b s) <= len s)%nat.
Proof.
revert b. induction s as [|c s IH]; intros b; simpl; [lia|].
destruct (isspace c).
- destruct b; simpl; specialize (IH true); unfold len in *; lia.
- simpl. specialize (IH false). unfold len in *. lia.
Qed.

Lemma len_lstrip (s : string) : (len (lstrip s) <= len s)%nat.
Proof.
induction s as [|c s IH]; simpl; [lia|].
destruct (isspace c); unfold len in *; simpl; lia.
Qed.

Lemma len_rstrip (s : string) : (len (rstrip s) <= len s)%nat.
Proof.
induction s as [|c s IH]; simpl; [lia|].
unfold len in *. destruct (rstrip s) as [|d r].
- destruct (isspace c); simpl; lia.
- simpl in *. lia.
Qed.

Lemma len_strip (s : string) : (len (strip s) <= len s)%nat.
Proof.
unfold strip. pose proof (len_rstrip (lstrip s)). pose proof (len_lstrip s). lia.
Qed.

Lemma len_filter_chars (p : ascii -> bool) (s : string) :
(len (filter_chars p s) <= len s)%nat.
Proof.
induction s as [|c s IH]; simpl; [lia|].
unfold len in *. destruct (p c); simpl; lia.
Qed.

Lemma len_take_chars (n : nat) (s : string) : (len (take_chars n s) <= len s)%nat.
Proof.
revert n. induction s as [|c s IH]; intros [|n]; simpl; try lia.
specialize (IH n). unfold len in *. lia.
Qed.

(** Sanitizing never makes a text longer. *)
Lemma len_sanitize_input (s : string) : (len (sanitize_input s) <= len s)%nat.
Proof.
unfold sanitize_input. destruct (truthy s); cbn [negb].
- pose proof (len_sub_spaces_go false s) as H1.
  pose proof (len_strip (sub_spaces s)) as H2.
  pose proof (len_filter_chars printable (strip (sub_spaces s))) as H3.
  pose proof (len_take_chars 1000 (filter_chars printable (strip (sub_spaces s)))) as H4.
  unfold sub_spaces in *.
  destruct (1000 <? _)%nat; lia.
- unfold len. cbn [String.length]. lia.
Qed.

End SanitizeLength.

(** ** The company-name extractor and the name validator *)

(** C1. On the prompt "Research Acme Corp" the extractor stops at the first
    white space and returns "Acme", not "Acme Corp"; the validator accepts
    "Acme Corp" (and "Acme"). *)
Theorem extract_research_acme_corp :
  extract_company_name_from_prompt "Research Acme Corp" = Some "Acme"
  /\ validate_company_name "Acme Corp" = (true, "Valid company name.", [])
  /\ validate_company_name "Acme" = (true, "Valid company name.", []).
Proof. repeat split; vm_compute; reflexivity. Qed.

(** ** The gate *)

(** A prompt shorter than five characters is not always answered with the
    "very brief" reason: the empty prompt and a deny-listed word are
    rejected earlier, with other messages. *)
Lemma validate_prompt_short_other_reason :
  (len "" < 5)%nat /\ (len "hack" < 5)%nat
  /\ validate_prompt ""
     = (false, "Please provide a message.", Some ["What would you like to know?"])
  /\ validate_prompt "hack"
     = (false,
        "I can't help with hack. I'm designed for company research and account planning.",
        Some [ "I can research companies and generate account plans";
               "I can analyze competitors and market positioning";
               "I can help you compare multiple companies" ])
  /\ validate_prompt "" <> (false, very_brief_reason, Some very_brief_questions)
  /\ validate_prompt "hack" <> (false, very_brief_reason, Some very_brief_questions).
Proof.
  repeat split; try (vm_compute; lia); try (vm_compute; reflexivity);
    vm_compute; discriminate.
Qed.

(** C2, amended. For every prompt of fewer than five characters the
    ambiguity check answers with the "very brief" reason and its three
    questions; the gate gives exactly that rejection whenever the sanitized
    prompt is not empty and passes the capability check. *)
Theorem short_prompt_very_brief (prompt : string) :
  (len prompt < 5)%nat ->
  detect_ambiguity prompt = (true, very_brief_reason, very_brief_questions)
  /\ very_brief_reason = "Your request is very brief."
  /\ length very_brief_questions = 3%nat
  /\ (sanitize_input prompt <> "" ->
      (is_within_capabilities (sanitize_input prompt)).1.1 = true ->
      validate_prompt prompt = (false, very_brief_reason, Some very_brief_questions)).
Proof.
  intros Hlen. split; [|split; [reflexivity|split; [reflexivity|]]].
  - unfold detect_ambiguity.
    destruct (len prompt <? 5)%nat eqn:E; [reflexivity|].
    apply Nat.ltb_ge in E. lia.
  - intros Hne Hcap. unfold validate_prompt.
    pose proof (len_sanitize_input prompt) as Hs.
    destruct (sanitize_input prompt) as [|c p] eqn:Es; [congruence|].
    cbn [truthy negb].
    destruct (is_within_capabilities (String c p)) as [[cap msg] alt].
    cbn in Hcap. subst cap. cbn [negb].
    unfold detect_ambiguity.
    destruct (len (String c p) <? 5)%nat eqn:E; [reflexivity|].
    apply Nat.ltb_ge in E. lia.
Qed.

Lemma short_prompt_very_brief_witness :
  validate_prompt "abc" = (false, very_brief_reason, Some very_brief_questions).
Proof.
  refine (proj2 (proj2 (proj2 (short_prompt_very_brief "abc" _))) _ _).
  - vm_compute. lia.
  - vm_compute. discriminate.
  - vm_compute. reflexivity.
Defined.

(** ** The reference resolver *)

(** C9. With a history of one assistant turn whose metadata names Google
    as its [company_name], "Tell me more about it" resolves to "Tell me
    more about Google": whatever the content, intent, persona and time
    stamp of that turn are, and whatever else its metadata holds. *)
Theorem resolve_it_to_google (text : string) (i p : option string) (t : Z)
        (m : dict) :
  m !! "company_name" = Some (JStr "Google") ->
  resolve_references "Tell me more about it" [Turn "assistant" text i p t m]
  = inl "Tell me more about Google".
Proof.
  intros Hm.
  assert (Hne : bool_decide (m = ∅) = false).
  { apply bool_decide_eq_false. intros ->. rewrite lookup_empty in Hm. discriminate. }
  unfold resolve_references, last_company, last_where.
  change (reverse [Turn "assistant" text i p t m]) with [Turn "assistant" text i p t m].
  cbn [List.find role metadata].
  change ("assistant" =? "assistant")%string with true.
  rewrite Hne. rewrite bool_decide_eq_true_2 by (rewrite Hm; eauto).
  cbn [negb andb metadata]. rewrite Hm.
  vm_compute. reflexivity.
Qed.

Lemma resolve_it_to_google_witness :
  resolve_references "Tell me more about it"
    [ {| role := "assistant"; content := "Researched Google."; intent := None;
         persona := None; timestamp := 0;
         metadata := {[ "company_name" := JStr "Google" ]} |} ]
  = inl "Tell me more about Google".
Proof.
  apply (resolve_it_to_google "Researched Google." None None 0
           {[ "company_name" := JStr "Google" ]}).
  reflexivity.
Defined.

(** ** Retry with exponential backoff *)

Section RetryFacts.

Context {W A : Type}.
Variable sleep : Q -> W -> W.
Variable func : @thunk W A.

(** The attempts under the defaults. *)
Lemma range_default : range (default_max_retries + 1) = [0; 1; 2; 3]%Z.
Proof. reflexivity. Qed.

(** Counting the invocations does not change what the loop returns, and
    the count grows by at most one per attempt. *)
Lemma retry_loop_counting (max_retries : Z) (max_delay base : Q)
      (attempts : list Z) :
  forall (delay : Q) (last : option exn) (w : W) (n : nat),
  exists k : nat,
    (k <= length attempts)%nat
    /\ (attempts <> [] -> 1 <= k)%nat
    /\ retry_loop (sleep_counting sleep) (counting func) max_retries
         max_delay base attempts delay last (w, n)
       = (fst (retry_loop sleep func max_retries max_delay base attempts
                 delay last w),
          (snd (retry_loop sleep func max_retries max_delay base attempts
                  delay last w), (n + k)%nat)).
Proof.
  induction attempts as [|attempt rest IH]; intros delay last w n.
  - exists 0%nat. split; [cbn; lia|]. split; [congruence|].
    cbn. rewrite Nat.add_0_r. reflexivity.
  - cbn [retry_loop counting].
    destruct (func w) as [[v|e] w'] eqn:Ef.
    + exists 1%nat. split; [cbn; lia|]. split; [lia|].
      cbn. rewrite Nat.add_1_r. reflexivity.
    + destruct (attempt <? max_retries)%Z.
      * destruct (Qle_bool 0 delay).
        2:{ exists 1%nat. split; [cbn; lia|]. split; [lia|].
            cbn. rewrite Nat.add_1_r. reflexivity. }
        destruct (IH (py_min (delay * base) max_delay) (Some e)
                     (sleep delay w') (S n)) as (k & Hk & _ & Hrun).
        exists (S k). split; [cbn; lia|]. split; [lia|].
        cbn [sleep_counting]. rewrite Hrun.
        replace (S n + k)%nat with (n + S k)%nat by lia. reflexivity.
      * destruct (IH delay (Some e) w' (S n)) as (k & Hk & _ & Hrun).
        exists (S k). split; [cbn; lia|]. split; [lia|].
        rewrite Hrun.
        replace (S n + k)%nat with (n + S k)%nat by lia. reflexivity.
Qed.

(** With the defaults there are four attempts: the first call and three
    retries. *)
Lemma invocations_bounds (w : W) :
  (1 <= invocations sleep func w <= 4)%nat.
Proof.
  unfold invocations, retry_default, retry_with_exponential_backoff.
  destruct (retry_loop_counting default_max_retries default_max_delay
              default_exponential_base (range (default_max_retries + 1))
              default_initial_delay None w 0)
    as (k & Hk & Hk1 & Hrun).
  rewrite Hrun. cbn [snd]. rewrite range_default in Hk, Hk1. cbn in Hk.
  assert (1 <= k)%nat by (apply Hk1; congruence). lia.
Qed.

(** Four failures in a row, with pauses of 1, 2 and 4 seconds between
    them, end the loop with the fourth exception. *)
Lemma retry_default_raises (w0 : W) (e1 e2 e3 e4 : exn) (w1 w2 w3 w4 : W) :
  func w0 = (inr e1, w1) ->
  func (sleep 1%Q w1) = (inr e2, w2) ->
  func (sleep 2%Q w2) = (inr e3, w3) ->
  func (sleep 4%Q w3) = (inr e4, w4) ->
  retry_default sleep func w0 = (inr e4, w4).
Proof.
  intros H1 H2 H3 H4.
  assert (D1 : py_min (default_initial_delay * default_exponential_base)
                 default_max_delay = 2%Q) by reflexivity.
  assert (D2 : py_min (2 * default_exponential_base) default_max_delay = 4%Q)
    by reflexivity.
  unfold retry_default, retry_with_exponential_backoff.
  rewrite range_default. cbn [retry_loop].
  rewrite H1. change (0 <? default_max_retries)%Z with true.
  change (Qle_bool 0 default_initial_delay) with true. cbv iota.
  rewrite D1. change default_initial_delay with 1%Q.
  rewrite H2. change (1 <? default_max_retries)%Z with true.
  change (Qle_bool 0 2) with true. cbv iota.
  rewrite D2.
  rewrite H3. change (2 <? default_max_retries)%Z with true.
  change (Qle_bool 0 4) with true. cbv iota.
  rewrite H4. reflexivity.
Qed.


End RetryFacts.

(** A callable that always raises is invoked four times under the
    defaults, not three; the pauses are 1, 2 and 4 seconds. *)
Lemma retry_default_fourth_invocation :
  let e := Exn "RuntimeError" "boom" in
  invocations log_sleep (always_raises e) [] = 4%nat
  /\ ~ (invocations log_sleep (always_raises e) [] <= 3)%nat
  /\ retry_default log_sleep (always_raises e) [] = (inr e, [1%Q; 2%Q; 4%Q]).
Proof.
  cbv zeta. split; [|split].
  - vm_compute. reflexivity.
  - vm_compute. lia.
  - vm_compute. reflexivity.
Qed.

(** C3, amended. With the default parameters the wrapped function is
    invoked at least once and at most four times (the first call and three
    retries, after pauses of 1, 2 and 4 seconds); when every invocation
    raises it is invoked exactly four times and the exception of the fourth
    invocation is the one raised. *)
Theorem retry_default_four_attempts {W A : Type} (sleep : Q -> W -> W)
        (func : @thunk W A) (w0 : W) :
  (1 <= invocations sleep func w0 <= 4)%nat
  /\ forall (e1 e2 e3 e4 : exn) (w1 w2 w3 w4 : W),
       func w0 = (inr e1, w1) ->
       func (sleep 1%Q w1) = (inr e2, w2) ->
       func (sleep 2%Q w2) = (inr e3, w3) ->
       func (sleep 4%Q w3) = (inr e4, w4) ->
       invocations sleep func w0 = 4%nat
       /\ retry_default sleep func w0 = (inr e4, w4).
Proof.
  split; [apply invocations_bounds|].
  intros e1 e2 e3 e4 w1 w2 w3 w4 H1 H2 H3 H4.
  split; [|exact (retry_default_raises sleep func w0 e1 e2 e3 e4 w1 w2 w3 w4
                    H1 H2 H3 H4)].
  unfold invocations.
  rewrite (retry_default_raises (sleep_counting sleep) (counting func) (w0, 0%nat)
             e1 e2 e3 e4 (w1, 1%nat) (w2, 2%nat) (w3, 3%nat) (w4, 4%nat)).
  - reflexivity.
  - cbn. rewrite H1. reflexivity.
  - cbn. rewrite H2. reflexivity.
  - cbn. rewrite H3. reflexivity.
  - cbn. rewrite H4. reflexivity.
Qed.

Lemma retry_default_four_attempts_witness :
  let e := Exn "RuntimeError" "boom" in
  invocations log_sleep (always_raises e) [] = 4%nat
  /\ retry_default log_sleep (always_raises e) [] = (inr e, [1%Q; 2%Q; 4%Q]).
Proof.
  intros e.
  refine (proj2 (retry_default_four_attempts log_sleep (always_raises e) [])
            e e e e [] [1%Q] [1%Q; 2%Q] [1%Q; 2%Q; 4%Q] _ _ _ _);
    reflexivity.
Defined.

(** ** The persona classifier *)

Section PersonaFacts.

Lemma filter_user_idemp (h : list turn) :
  filter (fun msg => role msg = "user") (filter (fun msg => role msg = "user") h)
  = filter (fun msg => role msg = "user") h.
Proof.
  induction h as [|t h IH]; [reflexivity|].
  rewrite (filter_cons _ t h). destruct (decide (role t = "user")) as [Hu|Hu].
  - rewrite filter_cons_True by exact Hu. rewrite IH. reflexivity.
  - exact IH.
Qed.

(** The classifier reads the user turns only. *)
Lemma detect_user_persona_filter (h : list turn) :
  detect_user_persona h
  = detect_user_persona (filter (fun msg => role msg = "user") h).
Proof.
  destruct h as [|t h]; [reflexivity|].
  pose proof (filter_user_idemp (t :: h)) as Hid.
  unfold detect_user_persona at 1.
  cbv beta iota zeta.
  remember (filter (fun msg => role msg = "user") (t :: h)) as u eqn:Hu.
  destruct u as [|x u]; [reflexivity|].
  unfold detect_user_persona. cbv beta iota zeta.
  rewrite Hid. reflexivity.
Qed.

Lemma inserted_filter_user (h h' : list turn) :
  inserted h h' ->
  filter (fun msg => role msg = "user") h'
  = filter (fun msg => role msg = "user") h.
Proof.
  induction 1 as [|t h h' _ IH|t h h' Hr _ IH].
  - reflexivity.
  - rewrite !(filter_cons _ t). rewrite IH. reflexivity.
  - rewrite filter_cons_False by exact Hr. exact IH.
Qed.

End PersonaFacts.

(** C6. Inserting turns whose role is not "user", at any positions of the
    history, leaves the detected persona unchanged: the result depends on
    the user turns only. *)
Theorem detect_user_persona_inserted (h h' : list turn) :
  inserted h h' -> detect_user_persona h' = detect_user_persona h.
Proof.
  intros Hins.
  rewrite (detect_user_persona_filter h'), (detect_user_persona_filter h).
  rewrite (inserted_filter_user h h' Hins). reflexivity.
Qed.

Lemma detect_user_persona_inserted_witness :
  let u1 := Turn "user" "research Google" None None 1 ∅ in
  let u2 := Turn "user" "find Apple" None None 3 ∅ in
  let a1 := Turn "assistant" "Researched Google. Anything else?" None None 2 ∅ in
  let a2 := Turn "assistant" "Done?" None None 4 ∅ in
  detect_user_persona [a1; u1; a1; a2; u2; a2] = detect_user_persona [u1; u2]
  /\ detect_user_persona [u1; u2] = PERSONA_EFFICIENT.
Proof.
  intros u1 u2 a1 a2. split.
  - apply (detect_user_persona_inserted [u1; u2] [a1; u1; a1; a2; u2; a2]).
    apply inserted_add; [vm_compute; discriminate|].
    apply inserted_keep.
    apply inserted_add; [vm_compute; discriminate|].
    apply inserted_add; [vm_compute; discriminate|].
    apply inserted_keep.
    apply inserted_add; [vm_compute; discriminate|].
    apply inserted_nil.
  - vm_compute. reflexivity.
Defined.

(** ** The conversation store *)

Section StoreFacts.

Implicit Types (db : store) (c : save_call) (cs : list save_call).

Lemma run_save_session c db (sid : string) :
  user_sessions (run_save c db) !! sid
  = if decide (s_session_id c = sid)
    then Some (upsert_session (s_later c) (s_persona c) (user_sessions db !! sid))
    else user_sessions db !! sid.
Proof.
  unfold run_save, save_conversation_turn. cbn [user_sessions].
  destruct (decide (s_session_id c = sid)) as [->|Hne].
  - apply lookup_insert_eq.
  - apply lookup_insert_ne. exact Hne.
Qed.

Lemma run_save_count c db (sid : string) :
  count_of sid (run_save c db)
  = (count_of sid db + if decide (s_session_id c = sid) then 1 else 0)%Z.
Proof.
  unfold count_of. rewrite run_save_session.
  destruct (decide (s_session_id c = sid)); [|cbn; lia].
  destruct (user_sessions db !! sid) as [r|]; cbn; lia.
Qed.

Lemma run_saves_count cs : forall db (sid : string),
  count_of sid (run_saves cs db)
  = (count_of sid db + Z.of_nat (length (calls_for sid cs)))%Z.
Proof.
  induction cs as [|c cs IH]; intros db sid.
  - cbn. lia.
  - cbn [run_saves foldl]. fold (run_saves cs (run_save c db)).
    rewrite IH, run_save_count. unfold calls_for. rewrite (filter_cons _ c cs).
    destruct (decide (s_session_id c = sid)); cbn [length]; lia.
Qed.

(** A save never removes a session record. *)
Lemma run_saves_keeps_record cs : forall db (sid : string),
  is_Some (user_sessions db !! sid) ->
  is_Some (user_sessions (run_saves cs db) !! sid).
Proof.
  induction cs as [|c cs IH]; intros db sid Hsome; [exact Hsome|].
  cbn [run_saves foldl]. fold (run_saves cs (run_save c db)).
  apply IH. rewrite run_save_session.
  destruct (decide (s_session_id c = sid)); [eauto|exact Hsome].
Qed.

Lemma run_saves_record cs : forall db (sid : string),
  calls_for sid cs <> [] -> is_Some (user_sessions (run_saves cs db) !! sid).
Proof.
  induction cs as [|c cs IH]; intros db sid Hne.
  - cbn in Hne. congruence.
  - cbn [run_saves foldl]. fold (run_saves cs (run_save c db)).
    unfold calls_for in Hne. rewrite (filter_cons _ c cs) in Hne.
    destruct (decide (s_session_id c = sid)) as [Heq|Hneq].
    + apply run_saves_keeps_record. rewrite run_save_session.
      destruct (decide (s_session_id c = sid)); [eauto|contradiction].
    + apply IH. exact Hne.
Qed.

Lemma run_save_rows c db (sid : string) :
  rows_of sid (run_save c db)
  = rows_of sid db
      ++ (if decide (s_session_id c = sid)
          then [ {| c_session_id := s_session_id c; c_timestamp := s_now c;
                    c_role := s_role c; c_content := s_content c;
                    c_intent := s_intent c; c_persona := s_persona c;
                    c_metadata := metadata_json (s_metadata c) |} ]
          else []).
Proof.
  unfold rows_of, run_save, save_conversation_turn. cbn [conversations].
  rewrite filter_app. reflexivity.
Qed.

Lemma run_saves_rows cs : forall db (sid : string),
  length (rows_of sid (run_saves cs db))
  = (length (rows_of sid db) + length (calls_for sid cs))%nat.
Proof.
  induction cs as [|c cs IH]; intros db sid.
  - cbn. lia.
  - cbn [run_saves foldl]. fold (run_saves cs (run_save c db)).
    rewrite IH, run_save_rows, length_app. unfold calls_for.
    rewrite (filter_cons _ c cs).
    destruct (decide (s_session_id c = sid)); cbn [length]; lia.
Qed.

End StoreFacts.

(** C7. Every call of [save_conversation_turn] adds exactly 1 to the
    [interaction_count] of its session, whatever the role, and creates the
    record with count 1 on the first write; so after the calls [cs], run
    from a store that has no record and no turn for a session, the count of
    that session is the number of calls that wrote to it, which is also the
    number of its turns. *)
Theorem interaction_count_counts_saves (db : store) (sid : string)
        (cs : list save_call) :
  user_sessions db !! sid = None ->
  rows_of sid db = [] ->
  (forall (c : save_call) (db0 : store),
      interaction_count <$> (user_sessions (run_save c db0) !! s_session_id c)
      = Some (match user_sessions db0 !! s_session_id c with
              | None => 1
              | Some r => interaction_count r + 1
              end)%Z)
  /\ (calls_for sid cs <> [] ->
      interaction_count <$> (user_sessions (run_saves cs db) !! sid)
      = Some (Z.of_nat (length (calls_for sid cs))))
  /\ length (rows_of sid (run_saves cs db)) = length (calls_for sid cs).
Proof.
  intros Hnone Hrows. split; [|split].
  - intros c db0. rewrite run_save_session.
    destruct (decide (s_session_id c = s_session_id c)); [|contradiction].
    destruct (user_sessions db0 !! s_session_id c); reflexivity.
  - intros Hne.
    pose proof (run_saves_count cs db sid) as Hc.
    destruct (run_saves_record cs db sid Hne) as [r Hr].
    unfold count_of in Hc. rewrite Hr, Hnone in Hc. cbn in Hc.
    rewrite Hr. cbn. f_equal. lia.
  - rewrite run_saves_rows, Hrows. reflexivity.
Qed.

Lemma interaction_count_counts_saves_witness :
  let cs := [ SaveCall 10 10 "s1" "user" "Research Google" (Some "research") None None;
              SaveCall 10 10 "s2" "user" "hello there" None None None;
              SaveCall 12 12 "s1" "assistant" "Researched Google."
                       (Some "research") None None;
              SaveCall 20 20 "s1" "assistant" "again" None None None ] in
  interaction_count <$> (user_sessions (run_saves cs empty_store) !! "s1")
  = Some 3%Z.
Proof.
  intros cs.
  refine (proj1 (proj2 (interaction_count_counts_saves empty_store "s1" cs _ _)) _).
  - reflexivity.
  - reflexivity.
  - vm_compute. discriminate.
Defined.

Section HistoryFacts.

(** What a saved turn reads back as. *)
Lemma row_to_turn_saved (c : save_call) :
  row_to_turn
    {| c_session_id := s_session_id c; c_timestamp := s_now c;
       c_role := s_role c; c_content := s_content c;
       c_intent := s_intent c; c_persona := s_persona c;
       c_metadata := metadata_json (s_metadata c) |}
  = turn_of_call c.
Proof.
  unfold row_to_turn, turn_of_call. cbn. f_equal.
  destruct (s_metadata c) as [m|]; cbn; [|reflexivity].
  destruct (bool_decide (m = ∅)) eqn:E; [|reflexivity].
  apply bool_decide_eq_true in E. cbn. congruence.
Qed.

(** A row later than all others sorts first. *)
Lemma order_by_timestamp_desc_snoc (rows : list conversation_row)
      (new : conversation_row) :
  Forall (fun r => (c_timestamp r < c_timestamp new)%Z) rows ->
  order_by_timestamp_desc (rows ++ [new]) = new :: order_by_timestamp_desc rows.
Proof.
  unfold order_by_timestamp_desc. rewrite foldr_app. cbn [foldr insert_desc].
  induction 1 as [|r rows Hr _ IH]; [reflexivity|].
  cbn [foldr]. rewrite IH. cbn [insert_desc].
  destruct (c_timestamp new <=? c_timestamp r)%Z eqn:E; [|reflexivity].
  apply Z.leb_le in E. lia.
Qed.

(** When the clock has moved on since the last turn of the session, the
    turn just saved is the last element of the history read back. *)
Lemma history_after_save_later (c : save_call) (limit : Z) (db : store) :
  Forall (fun r => (c_timestamp r < s_now c)%Z) (rows_of (s_session_id c) db) ->
  (limit <> 0)%Z ->
  exists older : list turn,
    get_conversation_history (s_session_id c) limit (run_save c db)
    = older ++ [turn_of_call c].
Proof.
  intros Hlater Hlimit. unfold get_conversation_history.
  fold (rows_of (s_session_id c) (run_save c db)).
  rewrite run_save_rows.
  destruct (decide (s_session_id c = s_session_id c)); [|contradiction].
  rewrite order_by_timestamp_desc_snoc by exact Hlater.
  unfold sql_limit. destruct (limit <? 0)%Z eqn:E.
  - rewrite reverse_cons, map_app. cbn [map]. rewrite row_to_turn_saved. eauto.
  - apply Z.ltb_ge in E.
    destruct (Z.to_nat limit) as [|n] eqn:En; [lia|].
    cbn [take]. rewrite reverse_cons, map_app. cbn [map].
    rewrite row_to_turn_saved. eauto.
Qed.

End HistoryFacts.

(** C5, at the failing inputs. Turns written within one second carry the
    same timestamp, and [ORDER BY timestamp DESC] followed by [reversed]
    returns them newest first: a user turn and the assistant turn saved
    after it come back as assistant, user.  After eleven turns in one
    second the history of limit 10 holds the first ten and misses the one
    just saved.  The fields of a turn are read back as written, an absent
    metadata mapping as the empty one. *)
Theorem history_same_second_not_chronological :
  let user := SaveCall 5 5 "s" "user" "Please show me your capabilities"
                       (Some "help") (Some "unknown") None in
  let assistant := SaveCall 5 5 "s" "assistant" "I can help you research companies."
                            (Some "help") None None in
  get_conversation_history "s" 10 (run_saves [user; assistant] empty_store)
  = [turn_of_call assistant; turn_of_call user]
  /\ metadata (turn_of_call assistant) = ∅
  /\ get_conversation_history "s" 10 (run_saves (burst 11) empty_store)
     = map turn_of_call (reverse (burst 10))
  /\ last (burst 11) = Some (SaveCall 5 5 "s" "user" "K" None None None)
  /\ turn_of_call (SaveCall 5 5 "s" "user" "K" None None None)
     ∉ get_conversation_history "s" 10 (run_saves (burst 11) empty_store).
Proof.
  cbv zeta. split; [|split; [|split; [|split]]].
  - vm_compute. reflexivity.
  - reflexivity.
  - vm_compute. reflexivity.
  - vm_compute. reflexivity.
  - assert (E : get_conversation_history "s" 10 (run_saves (burst 11) empty_store)
                = map turn_of_call (reverse (burst 10)))
      by (vm_compute; reflexivity).
    rewrite E. intros Hin. apply list_elem_of_fmap in Hin.
    destruct Hin as (c & Hc & Hmem).
    assert (Hcontent : Forall (fun c => s_content c <> "K") (reverse (burst 10))).
    { vm_compute. repeat constructor; discriminate. }
    rewrite Forall_forall in Hcontent. apply Hcontent in Hmem.
    apply Hmem. apply (f_equal content) in Hc. cbn in Hc. congruence.
Qed.

(** ** The account table *)

Section AccountFacts.

Import Database.

(** An upsert touches the row of its id only, and the id a row is read
    back under is the id it was written under. *)
Lemma save_account_id (now : Z) (id id' : string) (name pl : json)
      (accounts : gmap string account_row) :
  (forall a, load_account id' (save_account now id name pl accounts) = Some a ->
             a_id a = id')
  /\ (id <> id' ->
      load_account id' (save_account now id name pl accounts)
      = load_account id' accounts)
  /\ is_Some (load_account id (save_account now id name pl accounts)).
Proof.
  split; [|split].
  - intros a. unfold load_account.
    destruct (save_account now id name pl accounts !! id'); [|discriminate].
    intros [= <-]. reflexivity.
  - intros Hne. unfold load_account, save_account.
    destruct (accounts !! id); rewrite lookup_insert_ne by exact Hne; reflexivity.
  - unfold load_account, save_account.
    destruct (accounts !! id); rewrite lookup_insert_eq; eauto.
Qed.

(** An update of an existing id keeps the [company_name] column of the
    first insert and replaces the payload. *)
Lemma save_account_update (now : Z) (id : string) (name pl : json)
      (accounts : gmap string account_row) (old : account_row) :
  accounts !! id = Some old ->
  save_account now id name pl accounts !! id
  = Some {| company_name := company_name old; payload := pl;
            acc_created_at := acc_created_at old; acc_updated_at := now |}.
Proof.
  intros Hold. unfold save_account. rewrite Hold. apply lookup_insert_eq.
Qed.

End AccountFacts.

(** C8, at the failing input. An account saved as "Acme" and then saved
    again under the same id with the name "Acme Corp" (each call passing
    the name of its payload) is read back with the id unchanged, the new
    payload, and the stale [company_name] "Acme". *)
Theorem save_account_stale_company_name :
  let first := JObj {[ "name" := JStr "Acme" ]} in
  let second := JObj {[ "name" := JStr "Acme Corp" ]} in
  let accounts :=
    Database.save_account 2 "c1" (JStr "Acme Corp") second
      (Database.save_account 1 "c1" (JStr "Acme") first ∅) in
  Database.payload_name first = Some (JStr "Acme")
  /\ Database.payload_name second = Some (JStr "Acme Corp")
  /\ Database.load_account "c1" accounts
     = Some {| Database.a_id := "c1";
               Database.a_company_name := JStr "Acme";
               Database.a_payload := second;
               Database.a_created_at := 1;
               Database.a_updated_at := 2 |}
  /\ (Database.a_company_name <$> Database.load_account "c1" accounts)
     <> Database.payload_name second.
Proof.
  cbv zeta. split; [|split; [|split]].
  - reflexivity.
  - reflexivity.
  - vm_compute. reflexivity.
  - vm_compute. discriminate.
Qed.

(** ** The request pipeline *)


Lemma response_reply (reply : string) (suggestions : list string) :
  response reply suggestions !! "reply" = Some (JStr reply)
  /\ response reply suggestions !! "company" = Some (JObj ∅)
  /\ response reply suggestions !! "suggestions" = Some (strings suggestions).
Proof.
  unfold response. split; [|split]; reflexivity.
Qed.

Lemma clarification_fields (reply : string) (suggestions : list string) :
  exists o : dict,
    clarification reply suggestions = JObj o
    /\ o !! "reply" = Some (JStr reply)
    /\ o !! "company" = Some (JObj ∅)
    /\ o !! "suggestions" = Some (strings suggestions)
    /\ o !! "needs_clarification" = Some (JBool true).
Proof.
  eexists. split; [reflexivity|].
  split; [|split; [|split]]; reflexivity.
Qed.

(** A rejection of the gate always carries a list of suggestions. *)
Lemma validate_prompt_rejection (prompt msg : string) (sugg : option (list string)) :
  validate_prompt prompt = (false, msg, sugg) -> is_Some sugg.
Proof.
  unfold validate_prompt.
  destruct (negb (truthy (sanitize_input prompt))); [intros H; inversion H; eauto|].
  destruct (is_within_capabilities (sanitize_input prompt)) as [[cap cm] ca].
  destruct (negb cap); [intros H; inversion H; eauto|].
  destruct (detect_ambiguity (sanitize_input prompt)) as [[amb ar] aq].
  destruct amb; [intros H; inversion H; eauto|discriminate].
Qed.

Section ProcessFacts.

Variables PERPLEXITY_API_KEY GEMINI_API_KEY : option string.
Variable invoke_chat : llm -> nat -> messages -> string + exn.
Variable invoke_extract : llm -> nat -> string -> string + exn.
Variable extract_info : nat -> string -> json + exn.
Variable json_loads : string -> json + exn.
Variables json_dumps json_dumps_indent : json -> string.
Variable bind_content : json -> string + exn.
Variables get_persona_instructions get_intent_instructions : string -> string.

(** C10. When the gate rejects the sanitized prompt, the request returns
    the rejection message as its reply, an empty company, the suggestions
    of the rejection and [needs_clarification] set, and leaves the store
    (the whole state) as it was: no turn is saved and no session record
    is touched. *)
Theorem gate_rejection_leaves_store (prompt session_id : string)
        (companies_list : option (list json)) (user_preferences : option dict)
        (w : world) (message : string) (suggestions : option (list string)) :
  validate_prompt (sanitize_input prompt) = (false, message, suggestions) ->
  exists (l : list string) (o : dict),
    suggestions = Some l
    /\ process_with_llm_enhanced PERPLEXITY_API_KEY GEMINI_API_KEY invoke_chat
         invoke_extract extract_info json_loads json_dumps json_dumps_indent
         bind_content get_persona_instructions get_intent_instructions
         prompt session_id companies_list user_preferences w
       = (inl (JObj o), w)
    /\ o !! "reply" = Some (JStr message)
    /\ o !! "company" = Some (JObj ∅)
    /\ o !! "suggestions" = Some (strings l)
    /\ o !! "needs_clarification" = Some (JBool true).
Proof.
  intros Hgate.
  destruct (validate_prompt_rejection _ _ _ Hgate) as [l ->].
  destruct (clarification_fields message l) as (o & Ho & Hfields).
  exists l, o. split; [reflexivity|]. split; [|exact Hfields].
  unfold process_with_llm_enhanced, safe_api_call, try_except,
    process_body.
  rewrite Hgate. cbv beta iota zeta. cbn [negb].
  change (default [] (Some l)) with l. rewrite Ho. reflexivity.
Qed.


Section GenerationFails.

Variables (model : llm) (exc : nat -> exn).
Hypothesis chat_fails : forall n m, invoke_chat model n m = inr (exc n).




End GenerationFails.



End ProcessFacts.

Lemma gate_rejection_leaves_store_witness :
  exists o : dict,
    process_failing unavailable "What is the stock price of Acme today" "s1" start
    = (inl (JObj o), start)
    /\ o !! "reply"
       = Some (JStr "I can't help with stock price. I'm designed for company research and account planning.")
    /\ o !! "needs_clarification" = Some (JBool true).
Proof.
  destruct (gate_rejection_leaves_store
              None (Some "pplx-key") (chat_raises unavailable)
              (fun _ _ _ => inr unavailable) (fun _ _ => inr unavailable)
              (fun _ => inr (Exn "JSONDecodeError" "Expecting value: line 1 column 1 (char 0)"))
              (fun _ => "") (fun _ => "")
              (fun _ => inr (Exn "InterfaceError" "Error binding parameter 2 - probably unsupported type."))
              (fun _ => "") (fun _ => "")
              "What is the stock price of Acme today" "s1" None None start
              "I can't help with stock price. I'm designed for company research and account planning."
              (Some [ "I can research companies and generate account plans";
                      "I can analyze competitors and market positioning";
                      "I can help you compare multiple companies" ]))
    as (l & o & _ & Hrun & Hreply & _ & _ & Hflag).
  - vm_compute. reflexivity.
  - exists o. split; [exact Hrun|]. split; [exact Hreply|exact Hflag].
Defined.


(** A request for help that is served within one second writes the user
    turn and the assistant turn under the same time stamp, and the history
    read back afterwards lists the assistant turn first. *)
Lemma help_request_history_newest_first :
  let r := process_failing unavailable "Please show me your capabilities" "s1" start in
  map (fun t => (role t, timestamp t))
      (get_conversation_history "s1" 10 (db (snd r)))
  = [("assistant", 0%Z); ("user", 0%Z)].
Proof. vm_compute. reflexivity. Qed.

(** * Further properties of the modules *)

(** ** Strings *)

Section StringFacts.

Lemma rstrip_idemp (s : string) : rstrip (rstrip s) = rstrip s.
Proof.
  induction s as [|c s IH]; [reflexivity|].
  cbn [rstrip]. destruct (rstrip s) as [|d r] eqn:E.
  - destruct (isspace c) eqn:Ec; [reflexivity|]. cbn [rstrip]. rewrite Ec. reflexivity.
  - cbn [rstrip]. cbn [rstrip] in IH. rewrite IH. reflexivity.
Qed.

Lemma lstrip_left_clean (s : string) : left_clean (lstrip s).
Proof.
  induction s as [|c s IH]; [exact I|].
  cbn [lstrip]. destruct (isspace c) eqn:E; [exact IH|exact E].
Qed.

Lemma lstrip_of_left_clean (s : string) : left_clean s -> lstrip s = s.
Proof. destruct s as [|c s]; [reflexivity|]. cbn. intros ->. reflexivity. Qed.

Lemma rstrip_left_clean (s : string) : left_clean s -> left_clean (rstrip s).
Proof.
  destruct s as [|c s]; [intros _; exact I|].
  cbn [left_clean rstrip]. intros Hc.
  destruct (rstrip s); [rewrite Hc|]; exact Hc.
Qed.

Lemma strip_idemp (s : string) : strip (strip s) = strip s.
Proof.
  unfold strip.
  rewrite (lstrip_of_left_clean (rstrip (lstrip s))).
  - apply rstrip_idemp.
  - apply rstrip_left_clean, lstrip_left_clean.
Qed.

Lemma lower_char_idemp (c : ascii) : lower_char (lower_char c) = lower_char c.
Proof. destruct c as [[] [] [] [] [] [] [] []]; reflexivity. Qed.

Lemma lower_idemp (s : string) : lower (lower s) = lower s.
Proof.
  induction s as [|c s IH]; [reflexivity|].
  cbn. rewrite lower_char_idemp. unfold lower in IH. rewrite IH. reflexivity.
Qed.

Lemma all_chars_lstrip (p : ascii -> bool) (s : string) :
  all_chars p s = true -> all_chars p (lstrip s) = true.
Proof.
  induction s as [|c s IH]; [reflexivity|].
  cbn [all_chars lstrip]. intros H. apply andb_prop in H as [Hc Hs].
  destruct (isspace c); [auto|]. cbn [all_chars]. rewrite Hc, Hs. reflexivity.
Qed.

Lemma all_chars_rstrip (p : ascii -> bool) (s : string) :
  all_chars p s = true -> all_chars p (rstrip s) = true.
Proof.
  induction s as [|c s IH]; [reflexivity|].
  cbn [all_chars rstrip]. intros H. apply andb_prop in H as [Hc Hs].
  specialize (IH Hs). destruct (rstrip s).
  - destruct (isspace c); [reflexivity|]. cbn. rewrite Hc. reflexivity.
  - cbn [all_chars] in *. rewrite Hc, IH. reflexivity.
Qed.

Lemma all_chars_take_chars (p : ascii -> bool) (n : nat) (s : string) :
  all_chars p s = true -> all_chars p (take_chars n s) = true.
Proof.
  revert n. induction s as [|c s IH]; intros [|n]; try reflexivity.
  cbn [all_chars take_chars]. intros H. apply andb_prop in H as [Hc Hs].
  rewrite Hc, (IH n Hs). reflexivity.
Qed.

Lemma all_chars_filter_chars (p q : ascii -> bool) (s : string) :
  all_chars p s = true -> all_chars (fun c => q c && p c)%bool (filter_chars q s) = true.
Proof.
  induction s as [|c s IH]; [reflexivity|].
  cbn [all_chars filter_chars]. intros H. apply andb_prop in H as [Hc Hs].
  destruct (q c) eqn:Eq; [|auto]. cbn [all_chars]. rewrite Eq, Hc, (IH Hs). reflexivity.
Qed.

Lemma all_chars_impl (p q : ascii -> bool) (s : string) :
  (forall c, p c = true -> q c = true) ->
  all_chars p s = true -> all_chars q s = true.
Proof.
  intros Hpq. induction s as [|c s IH]; [reflexivity|].
  cbn [all_chars]. intros H. apply andb_prop in H as [Hc Hs].
  rewrite (Hpq c Hc), (IH Hs). reflexivity.
Qed.

Lemma all_chars_sub_spaces_go (b : bool) (s : string) :
  all_chars (fun c => negb (isspace c) || Ascii.eqb c " ")%bool
            (sub_spaces_go b s) = true.
Proof.
  revert b. induction s as [|c s IH]; intros b; [reflexivity|].
  cbn [sub_spaces_go]. destruct (isspace c) eqn:E.
  - destruct b; [apply IH|]. cbn [all_chars]. rewrite IH. reflexivity.
  - cbn [all_chars]. rewrite E, IH. reflexivity.
Qed.

Lemma printable_clean (c : ascii) :
  (printable c && (negb (isspace c) || Ascii.eqb c " "))%bool = true ->
  clean_char c = true.
Proof. destruct c as [[] [] [] [] [] [] [] []]; vm_compute; congruence. Qed.

(** White space only collapses to nothing. *)
Lemma sub_spaces_go_blank (s : string) :
  all_chars isspace s = true ->
  sub_spaces_go true s = "" /\ (s <> "" -> sub_spaces_go false s = " ").
Proof.
  induction s as [|c s IH]; [split; [reflexivity|congruence]|].
  cbn [all_chars sub_spaces_go]. intros H. apply andb_prop in H as [Hc Hs].
  rewrite Hc. destruct (IH Hs) as [IH1 _]. rewrite IH1. split; reflexivity.
Qed.

End StringFacts.

(** ** The sanitizer and the gate *)

(** X1. A sanitized text is never longer than the text it comes from nor
    than 1000 characters, and it holds no control character and no white
    space other than the plain space. *)
Theorem sanitize_input_clean (text : string) :
  (len (sanitize_input text) <= len text)%nat
  /\ (len (sanitize_input text) <= 1000)%nat
  /\ all_chars clean_char (sanitize_input text) = true.
Proof.
  split; [apply len_sanitize_input|].
  unfold sanitize_input. destruct (truthy text); cbn [negb].
  2:{ split; [unfold len; cbn; lia|reflexivity]. }
  assert (Hclean : all_chars clean_char
                     (filter_chars printable (strip (sub_spaces text))) = true).
  { apply (all_chars_impl _ _ _ printable_clean).
    apply all_chars_filter_chars.
    unfold strip. apply all_chars_rstrip, all_chars_lstrip.
    apply all_chars_sub_spaces_go. }
  destruct (1000 <? len (filter_chars printable (strip (sub_spaces text))))%nat eqn:E.
  - split; [|apply all_chars_take_chars, Hclean].
    clear. generalize (filter_chars printable (strip (sub_spaces text))).
    generalize 1000%nat.
    intros n s. revert n. induction s as [|c s IH]; intros [|n];
      unfold len in *; cbn; try lia.
    specialize (IH n). lia.
  - apply Nat.ltb_ge in E. split; [exact E|exact Hclean].
Qed.

(** X2. A prompt made of white space only (the empty prompt included)
    sanitizes to the empty text and is rejected by the gate with "Please
    provide a message." and one suggestion. *)
Theorem blank_prompt_rejected (prompt : string) :
  all_chars isspace prompt = true ->
  sanitize_input prompt = ""
  /\ validate_prompt prompt
     = (false, "Please provide a message.", Some ["What would you like to know?"]).
Proof.
  intros Hblank.
  assert (Hs : sanitize_input prompt = "").
  { unfold sanitize_input. destruct prompt as [|c p]; [reflexivity|].
    cbn [truthy negb].
    destruct (sub_spaces_go_blank (String c p) Hblank) as [_ Hone].
    unfold sub_spaces. rewrite Hone by congruence. reflexivity. }
  split; [exact Hs|]. unfold validate_prompt. rewrite Hs. reflexivity.
Qed.

Lemma blank_prompt_rejected_witness :
  validate_prompt (String (ascii_of_N 9) " ")
  = (false, "Please provide a message.", Some ["What would you like to know?"]).
Proof.
  refine (proj2 (blank_prompt_rejected (String (ascii_of_N 9) " ") _)).
  vm_compute. reflexivity.
Defined.

Section GateFacts.

Lemma first_keyword_found (kws : list string) (prompt_lower kw : string) :
  In kw kws -> contains prompt_lower kw = true ->
  exists kw', first_keyword kws prompt_lower = Some kw'
              /\ In kw' kws /\ contains prompt_lower kw' = true.
Proof.
  induction kws as [|k kws IH]; [intros []|].
  intros Hin Hc. cbn [first_keyword].
  destruct (contains prompt_lower k) eqn:E.
  - exists k. repeat split; [left; reflexivity|exact E].
  - destruct Hin as [->|Hin]; [congruence|].
    destruct (IH Hin Hc) as (kw' & H1 & H2 & H3).
    exists kw'. repeat split; [exact H1|right; exact H2|exact H3].
Qed.

Lemma first_keyword_none (kws : list string) (prompt_lower kw : string) :
  first_keyword kws prompt_lower = None -> In kw kws ->
  contains prompt_lower kw = false.
Proof.
  intros Hnone Hin. destruct (contains prompt_lower kw) eqn:E; [|reflexivity].
  destruct (first_keyword_found kws prompt_lower kw Hin E) as (kw' & H & _).
  congruence.
Qed.

Lemma contains_nonempty (s p : string) :
  contains s p = true -> p <> "" -> s <> "".
Proof.
  intros Hc Hp ->. destruct p as [|c p]; [congruence|]. cbn in Hc. discriminate.
Qed.

(** The shapes [is_within_capabilities] and [detect_ambiguity] answer in. *)
Lemma is_within_capabilities_shape (prompt : string) :
  match is_within_capabilities prompt with
  | (true, msg, alt) => msg = "" /\ alt = []
  | (false, msg, alt) => msg <> "" /\ (2 <= length alt <= 3)%nat
  end.
Proof.
  unfold is_within_capabilities.
  destruct (first_keyword OUT_OF_SCOPE_KEYWORDS (lower prompt)).
  - split; [cbn; discriminate|cbn; lia].
  - destruct (first_pattern impossible_patterns (lower prompt)) as [m|] eqn:E.
    + split; [|cbn; lia].
      unfold impossible_patterns in E. cbn [first_pattern] in E.
      repeat match type of E with
             | (if ?b then _ else _) = _ => destruct b
             end; first [injection E as <-; discriminate | discriminate].
    + split; reflexivity.
Qed.

Lemma detect_ambiguity_shape (prompt : string) :
  match detect_ambiguity prompt with
  | (true, reason, questions) => reason <> "" /\ (2 <= length questions <= 3)%nat
  | (false, reason, questions) => reason = "" /\ questions = []
  end.
Proof.
  unfold detect_ambiguity.
  repeat match goal with
         | |- context [if ?b then _ else _] => destruct b
         end;
    (split; [first [reflexivity|discriminate]|first [reflexivity|cbn; lia]]).
Qed.

End GateFacts.

(** X3. The gate answers in one of two shapes: a valid prompt gets the
    message "Valid prompt." and no suggestion list; an invalid one gets a
    non-empty message and a list of one to three suggestions. *)
Theorem validate_prompt_shape (prompt : string) :
  match validate_prompt prompt with
  | (true, message, suggestions) => message = "Valid prompt." /\ suggestions = None
  | (false, message, suggestions) =>
      message <> ""
      /\ exists l, suggestions = Some l /\ (1 <= length l <= 3)%nat
  end.
Proof.
  unfold validate_prompt.
  destruct (negb (truthy (sanitize_input prompt))).
  { split; [discriminate|]. eexists. split; [reflexivity|cbn; lia]. }
  pose proof (is_within_capabilities_shape (sanitize_input prompt)) as Hc.
  destruct (is_within_capabilities (sanitize_input prompt)) as [[cap cm] ca].
  destruct cap; cbn [negb].
  2:{ destruct Hc as [Hm Hl]. split; [exact Hm|]. exists ca. split; [reflexivity|lia]. }
  pose proof (detect_ambiguity_shape (sanitize_input prompt)) as Ha.
  destruct (detect_ambiguity (sanitize_input prompt)) as [[amb ar] aq].
  destruct amb.
  - destruct Ha as [Hm Hl]. split; [exact Hm|]. exists aq. split; [reflexivity|lia].
  - split; reflexivity.
Qed.

(** X4. A prompt whose sanitized, lower-cased text contains a keyword of
    the deny list is rejected by the gate whatever else it says: the
    message names a deny-listed keyword found in the prompt and comes with
    the three capability alternatives. *)
Theorem deny_listed_prompt_rejected (prompt keyword : string) :
  In keyword OUT_OF_SCOPE_KEYWORDS ->
  contains (lower (sanitize_input prompt)) keyword = true ->
  exists found : string,
    In found OUT_OF_SCOPE_KEYWORDS
    /\ contains (lower (sanitize_input prompt)) found = true
    /\ validate_prompt prompt
       = (false, capability_message found, Some capability_alternatives).
Proof.
  intros Hin Hc.
  destruct (first_keyword_found _ _ _ Hin Hc) as (found & Hfirst & Hfin & Hfc).
  exists found. split; [exact Hfin|]. split; [exact Hfc|].
  assert (Hne : sanitize_input prompt <> "").
  { intros E. rewrite E in Hc. cbn [lower map_chars] in Hc.
    apply (contains_nonempty _ _ Hc); [|reflexivity].
    intros ->. cbn in Hin. intuition discriminate. }
  unfold validate_prompt.
  destruct (sanitize_input prompt) as [|c p] eqn:Es; [congruence|].
  cbn [truthy negb]. unfold is_within_capabilities. rewrite Hfirst. reflexivity.
Qed.

Lemma deny_listed_prompt_rejected_witness :
  exists found : string,
    validate_prompt "Research Acme and tell me its STOCK   price, please"
    = (false, capability_message found, Some capability_alternatives).
Proof.
  destruct (deny_listed_prompt_rejected
              "Research Acme and tell me its STOCK   price, please" "stock price")
    as (found & _ & _ & H).
  - vm_compute. tauto.
  - vm_compute. reflexivity.
  - exists found. exact H.
Defined.

(** ** Literal words in patterns *)

Section WordFacts.

Context {A : Type}.

(** A pattern that begins with a literal word matches only where the
    subject begins with that word. *)
Lemma run_word_startswith (w : string) :
  w <> "" ->
  forall (pos : nat) (s : string) (g : option string) (k : @cont A) (a : A),
    run false (word w) pos s g k = Some a -> startswith s w = true.
Proof.
  induction w as [|c w IH]; [congruence|]. intros _ pos s g k a.
  destruct w as [|c' w].
  - cbn [word run]. destruct s as [|d s]; [discriminate|].
    unfold lit_ok. cbn [startswith].
    destruct (Ascii.eqb c d); [intros _; destruct s; reflexivity|discriminate].
  - change (word (String c (String c' w)))
      with (Seq (Lit c) (word (String c' w))).
    cbn [run]. destruct s as [|d s]; [discriminate|].
    unfold lit_ok. cbn [startswith]. destruct (Ascii.eqb c d); [|discriminate].
    apply IH. congruence.
Qed.

End WordFacts.

Lemma search_word_contains (w : string) (rest : regex) :
  w <> "" ->
  forall (pos : nat) (s : string) (m : found),
    search_from false (Seq (word w) rest) pos s = Some m -> contains s w = true.
Proof.
  intros Hw pos s. revert pos.
  induction s as [|c s IH]; intros pos m; cbn [search_from run].
  - destruct (run false (word w) pos "" None _) eqn:E; [|discriminate].
    intros _. apply (run_word_startswith w Hw) in E.
    destruct w; [congruence|discriminate].
  - destruct (run false (word w) pos (String c s) None _) eqn:E.
    + intros _. apply (run_word_startswith w Hw) in E.
      cbn [contains]. rewrite E. reflexivity.
    + intros H. apply IH in H. cbn [contains]. rewrite H.
      destruct (startswith (String c s) w); reflexivity.
Qed.

(** X5. The rule for "predict ... future" never fires: a prompt it would
    match contains the deny-listed keyword "predict", which is checked
    first, so its message "I can't predict the future, ..." is never the
    answer of the capability check. *)
Theorem predict_future_message_unreachable (prompt : string) :
  (is_within_capabilities prompt).1.2
  <> "I can't predict the future, but I can analyze current trends.".
Proof.
  unfold is_within_capabilities.
  destruct (first_keyword OUT_OF_SCOPE_KEYWORDS (lower prompt)) as [kw|] eqn:Ek.
  - cbn. discriminate.
  - assert (Hp : contains (lower prompt) "predict" = false).
    { apply (first_keyword_none _ _ _ Ek). cbn. tauto. }
    unfold impossible_patterns. cbn [first_pattern].
    destruct (search false
                (Seq (word "predict") (Seq (Rep true 0 dot) (word "future")))
                (lower prompt)) as [m|] eqn:Es.
    + apply search_word_contains in Es; [congruence|discriminate].
    + cbn [is_some].
      repeat match goal with
             | |- context [if ?b then _ else _] => destruct b
             end; cbn; discriminate.
Qed.

(** ** The name validator *)

(** X6. The name validator looks at the stripped name only, so white space
    around a name does not change its verdict; a name it accepts has
    between 2 and 100 characters once stripped; and it never suggests
    anything. *)
Theorem validate_company_name_stripped (name : string) :
  validate_company_name (strip name) = validate_company_name name
  /\ ((validate_company_name name).1.1 = true ->
      (2 <= len (strip name) <= 100)%nat)
  /\ (validate_company_name name).2 = [].
Proof.
  split; [|split].
  - unfold validate_company_name. rewrite strip_idemp.
    destruct name as [|c n]; [reflexivity|].
    cbn [truthy negb orb].
    destruct (strip (String c n)) as [|d r] eqn:E; reflexivity.
  - unfold validate_company_name.
    destruct (negb (truthy name) || negb (truthy (strip name)))%bool; [discriminate|].
    destruct (len (strip name) <? 2)%nat eqn:E1; [discriminate|].
    destruct (100 <? len (strip name))%nat eqn:E2; [discriminate|].
    intros _. apply Nat.ltb_ge in E1, E2. lia.
  - unfold validate_company_name.
    repeat match goal with
           | |- context [if ?b then _ else _] => destruct b
           end; reflexivity.
Qed.

Lemma validate_company_name_stripped_witness :
  (2 <= len (strip "  Acme Corp ") <= 100)%nat.
Proof.
  refine (proj1 (proj2 (validate_company_name_stripped "  Acme Corp ")) _).
  vm_compute. reflexivity.
Defined.

(** ** The company-name extractor *)

Section ExtractorFacts.

(** Whatever a pattern returns is what its continuation returned. *)
Lemma rep_result {A : Type} (P : A -> Prop) (icase greedy : bool)
      (p : ascii -> bool) (k : @cont A) :
  (forall pos s g a, k pos s g = Some a -> P a) ->
  forall (s : string) (min pos : nat) (g : option string) (a : A),
    rep icase greedy p min pos s g k = Some a -> P a.
Proof.
  intros Hk. induction s as [|c s IH]; intros min pos g a; cbn [rep].
  - destruct min; [apply Hk|discriminate].
  - destruct (cls_ok icase p c).
    + destruct greedy.
      * destruct (rep icase true p (Nat.pred min) (S pos) s g k) eqn:E.
        -- intros [= <-]. exact (IH _ _ _ _ E).
        -- destruct min; [apply Hk|discriminate].
      * destruct min as [|min]; [|apply IH].
        destruct (k pos (String c s) g) eqn:E.
        -- intros [= <-]. exact (Hk _ _ _ _ E).
        -- apply IH.
    + destruct min; [apply Hk|discriminate].
Qed.

Lemma run_result {A : Type} (P : A -> Prop) (icase : bool) (r : regex) :
  forall (k : @cont A),
    (forall pos s g a, k pos s g = Some a -> P a) ->
    forall (pos : nat) (s : string) (g : option string) (a : A),
      run icase r pos s g k = Some a -> P a.
Proof.
  induction r as [| c | p | greedy min p | r1 IH1 r2 IH2 | r1 IH1 r2 IH2
                  | r1 IH1 | | ];
    intros k Hk pos s g a; cbn [run].
  - apply Hk.
  - destruct s as [|d s]; [discriminate|].
    destruct (lit_ok icase c d); [apply Hk|discriminate].
  - destruct s as [|d s]; [discriminate|].
    destruct (cls_ok icase p d); [apply Hk|discriminate].
  - apply rep_result. exact Hk.
  - apply IH1. intros pos' s' g' a'. apply IH2. exact Hk.
  - destruct (run icase r1 pos s g k) eqn:E.
    + intros [= <-]. exact (IH1 k Hk _ _ _ _ E).
    + apply IH2. exact Hk.
  - apply IH1. intros pos' s' g' a'. apply Hk.
  - destruct pos; [apply Hk|discriminate].
  - destruct s as [|c [|d s]]; [apply Hk| |discriminate].
    destruct (N.eqb (ord c) 10); [apply Hk|discriminate].
Qed.

Lemma search_from_result (P : found -> Prop) (icase : bool) (r : regex) :
  (forall pos s m, run icase r pos s None finish = Some m -> P m) ->
  forall (s : string) (pos : nat) (m : found),
    search_from icase r pos s = Some m -> P m.
Proof.
  intros Hr. induction s as [|c s IH]; intros pos m; cbn [search_from].
  - destruct (run icase r pos "" None finish) eqn:E; [|discriminate].
    intros [= <-]. exact (Hr _ _ _ E).
  - destruct (run icase r pos (String c s) None finish) eqn:E.
    + intros [= <-]. exact (Hr _ _ _ E).
    + apply IH.
Qed.

(** The terminator [(?:\s|$|\.)] keeps the group, and where it fails the
    subject goes on with a character that is not white space. *)
Lemma terminator_result (pos : nat) (s : string) (g : option string) :
  match run true (Alt (Cls isspace) (Alt Eol (Lit "."))) pos s g finish with
  | Some m => group1 m = g
  | None => exists c t, s = String c t /\ isspace c = false
  end.
Proof.
  cbn [run]. destruct s as [|c t]; [reflexivity|].
  unfold cls_ok. destruct (isspace c) eqn:Ec; [reflexivity|].
  cbn [orb].
  destruct (isspace (lower_char c) || isspace (upper_char c))%bool; [reflexivity|].
  destruct t as [|d t].
  - destruct (N.eqb (ord c) 10); [reflexivity|].
    destruct (lit_ok true "." c); [reflexivity|eauto].
  - destruct (lit_ok true "." c); [reflexivity|eauto].
Qed.

Lemma append_cons (c : ascii) (a b : string) :
  String c a +:+ b = String c (a +:+ b).
Proof. reflexivity. Qed.

Lemma take_chars_app (pre s : string) : take_chars (len pre) (pre +:+ s) = pre.
Proof.
  induction pre as [|c pre IH]; [destruct s; reflexivity|].
  rewrite append_cons. unfold len in *. cbn [String.length take_chars].
  rewrite IH. reflexivity.
Qed.

Lemma append_snoc (pre : string) (c : ascii) (s : string) :
  (pre +:+ String c EmptyString) +:+ s = pre +:+ String c s.
Proof.
  induction pre as [|d pre IH]; [reflexivity|].
  rewrite !append_cons, IH. reflexivity.
Qed.

Lemma len_snoc (pre : string) (c : ascii) :
  len (pre +:+ String c EmptyString) = S (len pre).
Proof.
  induction pre as [|d pre IH]; [reflexivity|].
  rewrite append_cons. unfold len in *. cbn [String.length]. rewrite IH. reflexivity.
Qed.

Lemma all_chars_snoc (p : ascii -> bool) (t : string) (c : ascii) :
  all_chars p t = true -> p c = true ->
  all_chars p (t +:+ String c EmptyString) = true.
Proof.
  intros Ht Hc. induction t as [|d t IH].
  - unfold String.append. cbn [all_chars]. rewrite Hc. reflexivity.
  - rewrite append_cons. cbn [all_chars] in *.
    apply andb_prop in Ht as [Hd Ht]. rewrite Hd, (IH Ht). reflexivity.
Qed.

Lemma inner_clean_snoc (pre : string) (c : ascii) :
  pre <> "" -> inner_clean pre -> isspace c = false ->
  inner_clean (pre +:+ String c EmptyString).
Proof.
  destruct pre as [|d t]; [congruence|]. intros _ Ht Hc.
  rewrite append_cons. cbn [inner_clean] in *.
  apply all_chars_snoc; [exact Ht|]. unfold nospace. rewrite Hc. reflexivity.
Qed.

(** The lazy group [([a-zA-Z0-9\s&.]+?)] once it holds [pre], a prefix
    of the text [s0] it started on: it grows only past characters that are
    not white space. *)
Lemma lazy_group_clean (pos0 : nat) (g : option string) (s0 : string) :
  forall (s pre : string) (m : found),
    s0 = pre +:+ s ->
    pre <> "" -> inner_clean pre ->
    rep true false name_char 0 (pos0 + len pre) s g
      (fun pos' s' _ =>
         run true (Alt (Cls isspace) (Alt Eol (Lit "."))) pos' s'
           (Some (take_chars (pos' - pos0) s0)) finish)
    = Some m ->
    exists x, group1 m = Some x /\ inner_clean x.
Proof.
  induction s as [|c s IH]; intros pre m Hs0 Hne Hpre.
  - cbn [rep]. replace (pos0 + len pre - pos0)%nat with (len pre) by lia.
    rewrite Hs0, take_chars_app. intros H.
    pose proof (terminator_result (pos0 + len pre) "" (Some pre)) as Ht.
    rewrite H in Ht. eauto.
  - cbn [rep Nat.pred].
    replace (pos0 + len pre - pos0)%nat with (len pre) by lia.
    pose proof (terminator_result (pos0 + len pre) (String c s)
                  (Some (take_chars (len pre) s0))) as Ht.
    destruct (run true (Alt (Cls isspace) (Alt Eol (Lit "."))) (pos0 + len pre)
                (String c s) (Some (take_chars (len pre) s0)) finish)
      as [m'|] eqn:E.
    + rewrite Hs0, take_chars_app in Ht.
      destruct (cls_ok true name_char c); intros [= <-]; eauto.
    + destruct (cls_ok true name_char c); [|discriminate].
      destruct Ht as (c' & t & [= <- <-] & Hc).
      intros H.
      apply (IH (pre +:+ String c EmptyString) m).
      * rewrite append_snoc. exact Hs0.
      * destruct pre; discriminate.
      * apply inner_clean_snoc; assumption.
      * rewrite len_snoc, Nat.add_succ_r. exact H.
Qed.

(** The group of [name_tail], wherever it matches. *)
Lemma name_tail_group (pos : nat) (s : string) (g : option string) (m : found) :
  run true name_tail pos s g finish = Some m ->
  exists x, group1 m = Some x /\ inner_clean x.
Proof.
  unfold name_tail. destruct s as [|c s]; cbn [run rep]; [discriminate|].
  destruct (cls_ok true name_char c); [|discriminate].
  cbn [Nat.pred]. intros H.
  apply (lazy_group_clean pos g (String c s) s (String c EmptyString) m).
  - reflexivity.
  - discriminate.
  - reflexivity.
  - replace (pos + len (String c EmptyString))%nat with (S pos)
      by (unfold len; cbn; lia).
    exact H.
Qed.

(** A pattern that ends in [name_tail] returns such a group. *)
Lemma seq_name_tail_group (r : regex) :
  (forall pos s g m, run true r pos s g finish = Some m ->
                     exists x, group1 m = Some x /\ inner_clean x) ->
  forall (a : regex) pos s g m,
    run true (Seq a r) pos s g finish = Some m ->
    exists x, group1 m = Some x /\ inner_clean x.
Proof.
  intros Hr a pos s g m. cbn [run].
  apply (run_result (fun m => exists x, group1 m = Some x /\ inner_clean x)).
  intros pos' s' g' m'. apply Hr.
Qed.

Lemma extraction_patterns_group (p : regex) :
  In p [research_pattern; tell_me_about_pattern; look_up_pattern; find_pattern] ->
  forall pos s m,
    run true p pos s None finish = Some m ->
    exists x, group1 m = Some x /\ inner_clean x.
Proof.
  intros Hin pos s m.
  assert (H2 : forall a b pos s g m,
             run true (Seq a (Seq b name_tail)) pos s g finish = Some m ->
             exists x, group1 m = Some x /\ inner_clean x).
  { intros a b. apply seq_name_tail_group. intros pos' s' g' m'.
    apply seq_name_tail_group. apply name_tail_group. }
  cbn in Hin. destruct Hin as [<-|[<-|[<-|[<-|[]]]]].
  - apply H2.
  - apply H2.
  - apply H2.
  - unfold find_pattern. apply seq_name_tail_group. intros pos' s' g' m'.
    apply H2.
Qed.

Lemma strip_inner_clean (x : string) :
  inner_clean x -> all_chars nospace (strip x) = true.
Proof.
  intros Hx. unfold strip. apply all_chars_rstrip.
  destruct x as [|c t]; [reflexivity|]. cbn in Hx. cbn [lstrip].
  destruct (isspace c) eqn:Ec.
  - apply all_chars_lstrip. exact Hx.
  - cbn [all_chars]. unfold nospace at 1. rewrite Ec, Hx. reflexivity.
Qed.

Lemma first_group_clean (pats : list regex) (prompt name : string) :
  (forall p, In p pats ->
             forall pos s m, run true p pos s None finish = Some m ->
                             exists x, group1 m = Some x /\ inner_clean x) ->
  first_group pats prompt = Some name ->
  all_chars nospace name = true.
Proof.
  induction pats as [|p pats IH]; intros Hp; [discriminate|].
  cbn [first_group].
  destruct (search true p prompt) as [m|] eqn:E.
  - intros [= <-].
    unfold search in E.
    apply (search_from_result
             (fun m => exists x, group1 m = Some x /\ inner_clean x)) in E.
    + destruct E as (x & -> & Hx). cbn. apply strip_inner_clean. exact Hx.
    + apply Hp. left. reflexivity.
  - apply IH. intros q Hq. apply Hp. right. exact Hq.
Qed.

End ExtractorFacts.

(** X7. A name returned by the extractor never contains white space: each
    of the four patterns stops its group at the first blank, so a company
    name of several words is cut to its first word. *)
Theorem extracted_name_single_word (prompt name : string) :
  extract_company_name_from_prompt prompt = Some name ->
  all_chars nospace name = true.
Proof.
  unfold extract_company_name_from_prompt.
  apply first_group_clean. apply extraction_patterns_group.
Qed.

Lemma extracted_name_single_word_witness :
  all_chars nospace "Goldman" = true.
Proof.
  apply (extracted_name_single_word "Please look up Goldman Sachs & Co. for me").
  vm_compute. reflexivity.
Defined.

Section TriggerFacts.

Lemma run_word_icase {A : Type} (w : string) :
  w <> "" ->
  forall (pos : nat) (s : string) (g : option string) (k : @cont A) (a : A),
    run true (word w) pos s g k = Some a ->
    startswith (lower s) (lower w) = true.
Proof.
  induction w as [|c w IH]; [congruence|]. intros _ pos s g k a.
  destruct w as [|c' w].
  - cbn [word run]. destruct s as [|d s]; [discriminate|].
    unfold lit_ok. cbn [lower map_chars startswith].
    destruct (Ascii.eqb (lower_char c) (lower_char d)); [|discriminate].
    intros _. destruct (map_chars lower_char s); reflexivity.
  - change (word (String c (String c' w)))
      with (Seq (Lit c) (word (String c' w))).
    cbn [run]. destruct s as [|d s]; [discriminate|].
    unfold lit_ok.
    change (lower (String d s)) with (String (lower_char d) (lower s)).
    change (lower (String c (String c' w)))
      with (String (lower_char c) (lower (String c' w))).
    cbn [startswith].
    destruct (Ascii.eqb (lower_char c) (lower_char d)); [|discriminate].
    apply IH. congruence.
Qed.

Lemma search_word_icase (w : string) (rest : regex) :
  w <> "" ->
  forall (pos : nat) (s : string) (m : found),
    search_from true (Seq (word w) rest) pos s = Some m ->
    contains (lower s) (lower w) = true.
Proof.
  intros Hw pos s. revert pos.
  induction s as [|c s IH]; intros pos m; cbn [search_from run].
  - destruct (run true (word w) pos "" None _) eqn:E; [|discriminate].
    intros _. apply (run_word_icase w Hw) in E.
    cbn [lower map_chars contains] in *. rewrite E. reflexivity.
  - destruct (run true (word w) pos (String c s) None _) eqn:E.
    + intros _. apply (run_word_icase w Hw) in E.
      change (lower (String c s)) with (String (lower_char c) (lower s)) in *.
      cbn [contains]. rewrite E. reflexivity.
    + intros H. apply IH in H.
      change (lower (String c s)) with (String (lower_char c) (lower s)).
      cbn [contains]. rewrite H.
      destruct (startswith (String (lower_char c) (lower s)) (lower w)); reflexivity.
Qed.

Lemma startswith_app (x b p : string) :
  startswith x p = true -> startswith (x +:+ b) p = true.
Proof.
  revert p. induction x as [|c x IH]; intros [|d p].
  - intros _. destruct b; reflexivity.
  - discriminate.
  - intros _. reflexivity.
  - rewrite append_cons. cbn [startswith].
    destruct (Ascii.eqb d c); [apply IH|discriminate].
Qed.

Lemma contains_app_r (x b p : string) :
  contains x p = true -> contains (x +:+ b) p = true.
Proof.
  induction x as [|c x IH].
  - cbn [contains]. destruct (startswith "" p) eqn:E; [|discriminate].
    intros _. destruct p; [|discriminate]. destruct b; reflexivity.
  - rewrite append_cons. cbn [contains].
    destruct (startswith (String c x) p) eqn:E.
    + intros _. apply (startswith_app _ b) in E. rewrite append_cons in E.
      rewrite E. reflexivity.
    + intros H. rewrite (IH H).
      destruct (startswith (String c (x +:+ b)) p); reflexivity.
Qed.

Lemma contains_app_l (a x p : string) :
  contains x p = true -> contains (a +:+ x) p = true.
Proof.
  intros H. induction a as [|c a IH]; [exact H|].
  rewrite append_cons. cbn [contains]. rewrite IH.
  destruct (startswith (String c (a +:+ x)) p); reflexivity.
Qed.

Lemma lstrip_suffix (s : string) : exists a, s = a +:+ lstrip s.
Proof.
  induction s as [|c s [a IH]]; [exists ""; reflexivity|].
  cbn [lstrip]. destruct (isspace c).
  - exists (String c a). rewrite append_cons. congruence.
  - exists "". reflexivity.
Qed.

Lemma rstrip_prefix (s : string) : exists b, s = rstrip s +:+ b.
Proof.
  induction s as [|c s [b IH]]; [exists ""; reflexivity|].
  cbn [rstrip]. destruct (rstrip s) as [|d r] eqn:E.
  - destruct (isspace c).
    + exists (String c s). reflexivity.
    + exists s. reflexivity.
  - exists b. rewrite append_cons. congruence.
Qed.

Lemma lower_app (a b : string) : lower (a +:+ b) = lower a +:+ lower b.
Proof.
  induction a as [|c a IH]; [reflexivity|].
  rewrite append_cons. unfold lower in *. cbn [map_chars].
  rewrite append_cons. rewrite IH. reflexivity.
Qed.

(** What the stripped text contains, the text contains. *)
Lemma contains_lower_strip (s p : string) :
  contains (lower (strip s)) p = true -> contains (lower s) p = true.
Proof.
  unfold strip. intros H.
  destruct (lstrip_suffix s) as [a Ha].
  destruct (rstrip_prefix (lstrip s)) as [b Hb].
  rewrite Ha, Hb, !lower_app.
  apply contains_app_l, contains_app_r. exact H.
Qed.

End TriggerFacts.

(** X8. For a prompt of Latin-1 characters (code points below 256, the
    texts of this development): the extractor returns nothing when the
    prompt, lower-cased, contains none of the words "research", "tell me
    about", "look up" and "find"; such a prompt is left to the model to
    extract a name from.  (Beyond that range the property does not hold:
    under [re.IGNORECASE] the s of "research" also matches U+017F, the i
    of "find" U+0130, and lower-casing does not turn these into s and
    i.) *)
Theorem extract_needs_trigger (prompt : string) :
  (forall t, In t triggers -> contains (lower prompt) t = false) ->
  extract_company_name_from_prompt prompt = None.
Proof.
  intros Hnone.
  assert (Hs : forall t, In t triggers ->
                 contains (lower (strip prompt)) t = false).
  { intros t Ht. destruct (contains (lower (strip prompt)) t) eqn:E; [|reflexivity].
    apply contains_lower_strip in E. rewrite (Hnone t Ht) in E. discriminate. }
  assert (Hpat : forall (w : string) (rest : regex),
             w <> "" -> lower w = w -> In w triggers ->
             search true (Seq (word w) rest) (strip prompt) = None).
  { intros w rest Hw Hl Hin.
    destruct (search true (Seq (word w) rest) (strip prompt)) as [m|] eqn:E;
      [|reflexivity].
    apply search_word_icase in E; [|exact Hw].
    rewrite Hl, (Hs w Hin) in E. discriminate. }
  unfold extract_company_name_from_prompt, research_pattern,
    tell_me_about_pattern, look_up_pattern, find_pattern.
  cbn [first_group].
  rewrite !Hpat; first [reflexivity | discriminate | (cbn; tauto)].
Qed.

Lemma extract_needs_trigger_witness :
  extract_company_name_from_prompt "What does Acme Corp sell?" = None.
Proof.
  apply extract_needs_trigger.
  intros t Ht. cbn in Ht.
  destruct Ht as [<-|[<-|[<-|[<-|[]]]]]; vm_compute; reflexivity.
Defined.

(** ** More on the retry loop *)

Lemma range_length (n : Z) : length (range n) = Z.to_nat n.
Proof. unfold range. rewrite length_map, length_seq. reflexivity. Qed.

Lemma range_first (n : Z) :
  (0 <= n)%Z -> exists rest, range (n + 1) = 0%Z :: rest.
Proof.
  intros Hn. unfold range.
  replace (Z.to_nat (n + 1)) with (S (Z.to_nat n)) by lia.
  cbn [seq map]. eauto.
Qed.

Lemma range_negative (n : Z) : (n < 0)%Z -> range (n + 1) = [].
Proof.
  intros Hn. unfold range.
  replace (Z.to_nat (n + 1)) with 0%nat by lia. reflexivity.
Qed.

(** X9. For a [max_retries] that is not negative the wrapped function is
    invoked at least once and at most [max_retries + 1] times; when its
    first invocation returns, that value is the result, nothing else is
    invoked and no pause is taken.  For a negative [max_retries] the
    function is not invoked at all and the call raises the [TypeError] of
    [raise None]. *)
Theorem retry_bounds_first_success {W A : Type} (sleep : Q -> W -> W)
        (func : @thunk W A) (max_retries : Z)
        (initial_delay max_delay exponential_base : Q) (w : W) :
  ((0 <= max_retries)%Z ->
   (1 <= invocations_of sleep func max_retries initial_delay max_delay
           exponential_base w)%nat
   /\ (Z.of_nat (invocations_of sleep func max_retries initial_delay max_delay
                   exponential_base w) <= max_retries + 1)%Z
   /\ forall (v : A) (w' : W),
        func w = (inl v, w') ->
        retry_with_exponential_backoff sleep func max_retries initial_delay
          max_delay exponential_base w = (inl v, w')
        /\ invocations_of sleep func max_retries initial_delay max_delay
             exponential_base w = 1%nat)
  /\ ((max_retries < 0)%Z ->
      retry_with_exponential_backoff sleep func max_retries initial_delay
        max_delay exponential_base w = (inr raise_none, w)
      /\ invocations_of sleep func max_retries initial_delay max_delay
           exponential_base w = 0%nat).
Proof.
  split.
  - intros Hpos. destruct (range_first max_retries Hpos) as [rest Hrange].
    split; [|split].
    + unfold invocations_of, retry_with_exponential_backoff.
      destruct (retry_loop_counting sleep func max_retries max_delay
                  exponential_base (range (max_retries + 1)) initial_delay None w 0)
        as (k & _ & Hk1 & Hrun).
      rewrite Hrun. cbn [snd]. apply Hk1. rewrite Hrange. discriminate.
    + unfold invocations_of, retry_with_exponential_backoff.
      destruct (retry_loop_counting sleep func max_retries max_delay
                  exponential_base (range (max_retries + 1)) initial_delay None w 0)
        as (k & Hk & _ & Hrun).
      rewrite Hrun. cbn [snd]. rewrite range_length in Hk. lia.
    + intros v w' Hf.
      unfold invocations_of, retry_with_exponential_backoff.
      rewrite Hrange. cbn [retry_loop counting].
      rewrite Hf. split; reflexivity.
  - intros Hneg.
    unfold invocations_of, retry_with_exponential_backoff.
    rewrite (range_negative max_retries Hneg). split; reflexivity.
Qed.

Lemma retry_bounds_first_success_witness :
  retry_with_exponential_backoff log_sleep
    (fun w : list Q => (@inl nat exn 7%nat, w)) 5 1 10 2 []
  = (inl 7%nat, []).
Proof.
  refine (proj1 (proj2 (proj2 (proj1 (retry_bounds_first_success log_sleep
                                        (fun w : list Q => (@inl nat exn 7%nat, w))
                                        5 1 10 2 []) _))
                   7%nat [] _)).
  - lia.
  - reflexivity.
Defined.

(** X10. Under the defaults the pauses taken are, whatever the wrapped
    function does, an initial piece of 1, 2, 4 seconds: never more than
    three pauses nor more than seven seconds in all. *)
Theorem retry_default_pauses {W A : Type} (sleep : Q -> W -> W)
        (func : @thunk W A) (w : W) :
  In (pauses sleep func w) default_pauses.
Proof.
  unfold pauses, retry_default, retry_with_exponential_backoff, default_pauses.
  rewrite range_default. cbn [retry_loop logging].
  destruct (func w) as [[v|e1] w1]; [cbn; tauto|].
  change (0 <? default_max_retries)%Z with true.
  change (Qle_bool 0 default_initial_delay) with true.
  cbn [sleep_logging app retry_loop logging].
  destruct (func (sleep default_initial_delay w1)) as [[v|e2] w2]; [cbn; tauto|].
  change (1 <? default_max_retries)%Z with true.
  change (Qle_bool 0 (py_min (default_initial_delay * default_exponential_base)
                        default_max_delay)) with true.
  cbn [sleep_logging app retry_loop logging].
  destruct (func (sleep _ w2)) as [[v|e3] w3]; [cbn; tauto|].
  change (2 <? default_max_retries)%Z with true.
  match goal with
  | |- context [Qle_bool 0 ?d] => change (Qle_bool 0 d) with true
  end.
  cbn [sleep_logging app retry_loop logging].
  destruct (func (sleep _ w3)) as [[v|e4] w4]; cbn; tauto.
Qed.

(** ** More on the conversation store *)

Section StoreOperations.

Implicit Types (db : store) (sid : string).

Lemma insert_desc_elem_of (r x : conversation_row) (l : list conversation_row) :
  x ∈ insert_desc r l <-> x = r \/ x ∈ l.
Proof.
  induction l as [|y l IH]; cbn [insert_desc].
  - rewrite list_elem_of_singleton.
    split; [auto|intros [Hx|Hx]; [exact Hx|inversion Hx]].
  - destruct (c_timestamp y <=? c_timestamp r)%Z.
    + rewrite (elem_of_cons (y :: l)). reflexivity.
    + rewrite !elem_of_cons, IH. tauto.
Qed.

Lemma order_by_elem_of (x : conversation_row) (rows : list conversation_row) :
  x ∈ order_by_timestamp_desc rows <-> x ∈ rows.
Proof.
  unfold order_by_timestamp_desc.
  induction rows as [|r rows IH]; [reflexivity|].
  cbn [foldr]. rewrite insert_desc_elem_of, elem_of_cons, IH. reflexivity.
Qed.

Lemma insert_desc_sorted (r : conversation_row) (l : list conversation_row) :
  StronglySorted (fun a b => (c_timestamp b <= c_timestamp a)%Z) l ->
  StronglySorted (fun a b => (c_timestamp b <= c_timestamp a)%Z) (insert_desc r l).
Proof.
  induction 1 as [|y l Hl IH Hy]; cbn [insert_desc].
  - repeat constructor.
  - destruct (c_timestamp y <=? c_timestamp r)%Z eqn:E.
    + apply Z.leb_le in E. constructor; [constructor; assumption|].
      constructor; [exact E|].
      eapply Forall_impl; [exact Hy|]. cbn. intros z Hz. lia.
    + apply Z.leb_gt in E. constructor; [exact IH|].
      rewrite Forall_forall. intros z Hz. apply insert_desc_elem_of in Hz.
      destruct Hz as [->|Hz]; [lia|].
      rewrite Forall_forall in Hy. apply Hy. exact Hz.
Qed.

Lemma order_by_sorted (rows : list conversation_row) :
  StronglySorted (fun a b => (c_timestamp b <= c_timestamp a)%Z)
                 (order_by_timestamp_desc rows).
Proof.
  unfold order_by_timestamp_desc.
  induction rows as [|r rows IH]; [constructor|].
  cbn [foldr]. apply insert_desc_sorted. exact IH.
Qed.

Lemma order_by_length (rows : list conversation_row) :
  length (order_by_timestamp_desc rows) = length rows.
Proof.
  unfold order_by_timestamp_desc.
  induction rows as [|r rows IH]; [reflexivity|].
  cbn [foldr length]. rewrite <- IH. generalize (foldr insert_desc [] rows).
  intros l. induction l as [|y l IHl]; [reflexivity|].
  cbn [insert_desc]. destruct (c_timestamp y <=? c_timestamp r)%Z; cbn [length]; lia.
Qed.

Lemma sql_limit_prefix {A} (n : Z) (l : list A) :
  exists rest, l = sql_limit n l ++ rest.
Proof.
  unfold sql_limit. destruct (n <? 0)%Z.
  - exists []. rewrite app_nil_r. reflexivity.
  - exists (drop (Z.to_nat n) l). rewrite take_drop. reflexivity.
Qed.

Lemma strongly_sorted_reverse {A} (R : relation A) (l : list A) :
  StronglySorted R l -> StronglySorted (fun a b => R b a) (reverse l).
Proof.
  induction 1 as [|x l Hl IH Hx]; [constructor|].
  rewrite reverse_cons. apply StronglySorted_app_2.
  - intros a b Ha Hb. apply list_elem_of_singleton in Hb as ->.
    rewrite elem_of_reverse in Ha. rewrite Forall_forall in Hx. apply Hx. exact Ha.
  - exact IH.
  - repeat constructor.
Qed.

Lemma filter_other_session (a b : string) (rows : list conversation_row) :
  a <> b ->
  filter (fun row => c_session_id row = b)
         (filter (fun row => c_session_id row ≠ a) rows)
  = filter (fun row => c_session_id row = b) rows.
Proof.
  intros Hne. apply list_filter_filter_l. intros x Hx. congruence.
Qed.

Lemma filter_same_session (a : string) (rows : list conversation_row) :
  filter (fun row => c_session_id row = a)
         (filter (fun row => c_session_id row ≠ a) rows) = [].
Proof.
  induction rows as [|r rows IH]; [reflexivity|].
  rewrite (filter_cons (fun row => c_session_id row ≠ a)).
  destruct (decide (c_session_id r ≠ a)) as [Hne|_]; [|exact IH].
  rewrite filter_cons_False by exact Hne. exact IH.
Qed.

End StoreOperations.

(** X11. The history of a session never holds more turns than the limit
    asked for (when the limit is not negative) nor than the session has
    rows, and it is always ordered by time stamp, oldest first: no turn is
    followed by one with a smaller time stamp. *)
Theorem history_bounded_and_ordered (session_id : string) (limit : Z) (db : store) :
  ((0 <= limit)%Z ->
   (length (get_conversation_history session_id limit db) <= Z.to_nat limit)%nat)
  /\ (length (get_conversation_history session_id limit db)
      <= length (rows_of session_id db))%nat
  /\ StronglySorted Z.le
       (map timestamp (get_conversation_history session_id limit db)).
Proof.
  unfold get_conversation_history. fold (rows_of session_id db).
  split; [|split].
  - intros Hl. rewrite length_map, length_reverse. unfold sql_limit.
    destruct (limit <? 0)%Z eqn:E; [apply Z.ltb_lt in E; lia|].
    rewrite length_take. lia.
  - rewrite length_map, length_reverse.
    destruct (sql_limit_prefix limit (order_by_timestamp_desc (rows_of session_id db)))
      as [rest Hrest].
    apply (f_equal length) in Hrest. rewrite length_app, order_by_length in Hrest. lia.
  - rewrite map_map.
    apply (StronglySorted_fmap (fun row => timestamp (row_to_turn row))
             (fun a b => (c_timestamp a <= c_timestamp b)%Z) Z.le).
    { intros x y Hxy. exact Hxy. }
    apply (strongly_sorted_reverse
             (fun a b => (c_timestamp b <= c_timestamp a)%Z)).
    destruct (sql_limit_prefix limit (order_by_timestamp_desc (rows_of session_id db)))
      as [rest Hrest].
    pose proof (order_by_sorted (rows_of session_id db)) as Hs.
    rewrite Hrest in Hs. apply StronglySorted_app_1_l in Hs. exact Hs.
Qed.

Lemma history_bounded_and_ordered_witness :
  (length (get_conversation_history "s" 3 (run_saves (burst 11) empty_store)) <= 3)%nat.
Proof.
  refine (proj1 (history_bounded_and_ordered "s" 3
                   (run_saves (burst 11) empty_store)) _).
  lia.
Defined.

(** X12. Sessions are isolated: saving a turn to one session leaves the
    history and the record of every other session as they were. *)
Theorem save_leaves_other_sessions (now later : Z)
        (session_id other role content : string)
        (intent persona : option string) (metadata : option dict)
        (limit : Z) (db : store) :
  session_id <> other ->
  get_conversation_history other limit
    (save_conversation_turn now later session_id role content intent persona
       metadata db)
  = get_conversation_history other limit db
  /\ get_session_info other
       (save_conversation_turn now later session_id role content intent persona
          metadata db)
     = get_session_info other db.
Proof.
  intros Hne. split.
  - unfold get_conversation_history, save_conversation_turn. cbn [conversations].
    rewrite filter_app, filter_cons_False, filter_nil, app_nil_r by exact Hne.
    reflexivity.
  - unfold get_session_info, save_conversation_turn. cbn [user_sessions].
    apply lookup_insert_ne. exact Hne.
Qed.

Lemma save_leaves_other_sessions_witness :
  get_conversation_history "b" 10
    (save_conversation_turn 9 9 "a" "user" "hello" None None None
       (run_saves [SaveCall 1 1 "b" "user" "Research Google" None None None] empty_store))
  = get_conversation_history "b" 10
      (run_saves [SaveCall 1 1 "b" "user" "Research Google" None None None] empty_store).
Proof.
  refine (proj1 (save_leaves_other_sessions 9 9 "a" "b" "user" "hello" None None None
                   10 _ _)).
  discriminate.
Defined.

(** X13. Clearing a session empties its history and removes its record,
    and leaves the history and the record of every other session as they
    were. *)
Theorem clear_conversation_session (session_id : string) (limit : Z) (db : store) :
  get_conversation_history session_id limit (clear_conversation session_id db) = []
  /\ get_session_info session_id (clear_conversation session_id db) = None
  /\ forall other : string,
       session_id <> other ->
       get_conversation_history other limit (clear_conversation session_id db)
       = get_conversation_history other limit db
       /\ get_session_info other (clear_conversation session_id db)
          = get_session_info other db.
Proof.
  unfold get_conversation_history, get_session_info, clear_conversation.
  cbn [conversations user_sessions]. split; [|split].
  - rewrite filter_same_session. unfold sql_limit.
    destruct (limit <? 0)%Z; [reflexivity|].
    destruct (Z.to_nat limit); reflexivity.
  - apply lookup_delete_eq.
  - intros other Hne. split.
    + rewrite filter_other_session by exact Hne. reflexivity.
    + apply lookup_delete_ne. exact Hne.
Qed.

(** X14. Setting the preferences of a session that has no record changes
    nothing (the UPDATE matches no row, no record is created); for a
    session that has one, the preferences read back are the ones set and
    its interaction count and persona are untouched; the turns are
    untouched in both cases. *)
Theorem update_session_preferences_effect (session_id : string) (prefs : dict)
        (db : store) :
  conversations (update_session_preferences session_id prefs db) = conversations db
  /\ (get_session_info session_id db = None ->
      update_session_preferences session_id prefs db = db)
  /\ (forall row,
        get_session_info session_id db = Some row ->
        session_preferences session_id
          (update_session_preferences session_id prefs db) = Some prefs
        /\ (interaction_count
              <$> get_session_info session_id
                    (update_session_preferences session_id prefs db))
           = Some (interaction_count row)
        /\ (detected_persona
              <$> get_session_info session_id
                    (update_session_preferences session_id prefs db))
           = Some (detected_persona row)).
Proof.
  split; [reflexivity|]. split.
  - unfold get_session_info, update_session_preferences. intros Hnone.
    rewrite alter_id' by exact Hnone. destruct db; reflexivity.
  - intros row Hrow.
    unfold session_preferences, get_session_info, update_session_preferences in *.
    cbn [user_sessions]. rewrite lookup_alter_eq, Hrow. cbn.
    repeat split; reflexivity.
Qed.

Lemma update_session_preferences_effect_witness :
  update_session_preferences "nobody" {[ "verbosity" := JStr "concise" ]} empty_store
  = empty_store.
Proof.
  refine (proj1 (proj2 (update_session_preferences_effect "nobody"
                          {[ "verbosity" := JStr "concise" ]} empty_store)) _).
  reflexivity.
Defined.

(** ** More on the account table *)

(** X15. Saving an account under a name that is a [str] and loading it
    by the same id gives back the payload just saved, under that id, with
    [updated_at] the time of the save; [created_at] and [company_name] are
    those of the first save of the id, and every other id reads as
    before. *)
Theorem save_load_account (now : Z) (id name : string) (pl : json)
        (accounts : gmap string Database.account_row) :
  exists a : Database.account,
    Database.load_account id
      (Database.save_account now id (JStr name) pl accounts) = Some a
    /\ Database.a_id a = id
    /\ Database.a_payload a = pl
    /\ Database.a_updated_at a = now
    /\ match Database.load_account id accounts with
       | None =>
           Database.a_created_at a = now
           /\ Database.a_company_name a = JStr name
       | Some old =>
           Database.a_created_at a = Database.a_created_at old
           /\ Database.a_company_name a = Database.a_company_name old
       end
    /\ forall other : string,
         id <> other ->
         Database.load_account other
           (Database.save_account now id (JStr name) pl accounts)
         = Database.load_account other accounts.
Proof.
  unfold Database.load_account, Database.save_account.
  destruct (accounts !! id) as [old|] eqn:E.
  - rewrite lookup_insert_eq. eexists. split; [reflexivity|].
    cbn. repeat split. intros other Hne. rewrite lookup_insert_ne by exact Hne.
    reflexivity.
  - rewrite lookup_insert_eq. eexists. split; [reflexivity|].
    cbn. repeat split. intros other Hne. rewrite lookup_insert_ne by exact Hne.
    reflexivity.
Qed.

Lemma clear_conversation_session_witness :
  get_conversation_history "b" 10
    (clear_conversation "a"
       (run_saves [SaveCall 1 1 "b" "user" "Research Google" None None None;
                   SaveCall 2 2 "a" "user" "hello there" None None None] empty_store))
  = get_conversation_history "b" 10
      (run_saves [SaveCall 1 1 "b" "user" "Research Google" None None None;
                  SaveCall 2 2 "a" "user" "hello there" None None None] empty_store).
Proof.
  refine (proj1 (proj2 (proj2 (clear_conversation_session "a" 10 _)) "b" _)).
  discriminate.
Defined.

Lemma save_load_account_witness :
  Database.load_account "c2"
    (Database.save_account 5 "c1" (JStr "Acme") (JObj {[ "name" := JStr "Acme" ]}) ∅)
  = Database.load_account "c2" ∅.
Proof.
  destruct (save_load_account 5 "c1" "Acme"
              (JObj {[ "name" := JStr "Acme" ]}) ∅)
    as (a & _ & _ & _ & _ & _ & Hother).
  apply Hother. discriminate.
Defined.

(** ** More on the persona classifier *)

(** X16. The classifier never answers "edge_case": its result is one of
    "confused", "efficient", "chatty" and "unknown"; and a history with
    fewer than two user turns is always "unknown", however many assistant
    turns it holds. *)
Theorem detect_user_persona_range (history : list turn) :
  In (detect_user_persona history)
     [PERSONA_CONFUSED; PERSONA_EFFICIENT; PERSONA_CHATTY; PERSONA_UNKNOWN]
  /\ detect_user_persona history <> PERSONA_EDGE_CASE
  /\ ((length (filter (fun msg => role msg = "user") history) < 2)%nat ->
      detect_user_persona history = PERSONA_UNKNOWN).
Proof.
  assert (Hin : In (detect_user_persona history)
                   [PERSONA_CONFUSED; PERSONA_EFFICIENT; PERSONA_CHATTY;
                    PERSONA_UNKNOWN]).
  { unfold detect_user_persona. destruct history as [|t h]; [cbn; tauto|].
    cbv beta iota zeta.
    repeat match goal with
           | |- context [if ?b then _ else _] => destruct b
           end; cbn; tauto. }
  split; [exact Hin|]. split.
  - intros E. rewrite E in Hin. cbn in Hin.
    repeat destruct Hin as [Hin|Hin]; try discriminate Hin. exact Hin.
  - intros Hlt. unfold detect_user_persona. destruct history as [|t h]; [reflexivity|].
    cbv beta iota zeta.
    destruct (length (filter (fun msg => role msg = "user") (t :: h)) <? 2)%nat eqn:E;
      [reflexivity|].
    apply Nat.ltb_ge in E. lia.
Qed.

Lemma detect_user_persona_range_witness :
  detect_user_persona
    [ Turn "assistant" "Which company?" None None 1 ∅;
      Turn "user" "help me maybe with something?" None None 2 ∅;
      Turn "assistant" "Sure. Which company?" None None 3 ∅ ]
  = PERSONA_UNKNOWN.
Proof.
  refine (proj2 (proj2 (detect_user_persona_range _)) _).
  vm_compute. lia.
Defined.

(** ** More on the reference resolver *)

Section ResolverFacts.

Lemma find_none_all {A} (p : A -> bool) (l : list A) :
  (forall x, In x l -> p x = false) -> List.find p l = None.
Proof.
  induction l as [|y l IH]; [reflexivity|]. intros H. cbn [List.find].
  rewrite (H y (or_introl eq_refl)). apply IH. intros x Hx. apply H. right. exact Hx.
Qed.

Lemma replace_references_absent (refs : list string) (prompt_lower : string)
      (company : json) (prompt : string) :
  (forall ref, In ref refs -> contains prompt_lower ref = false) ->
  replace_references refs prompt_lower company prompt = inl prompt.
Proof.
  induction refs as [|r refs IH]; [reflexivity|]. intros H.
  cbn [replace_references]. rewrite (H r (or_introl eq_refl)).
  apply IH. intros ref Href. apply H. right. exact Href.
Qed.

End ResolverFacts.

(** X17. The resolver returns the prompt unchanged, and never raises,
    when no assistant turn of the history carries a company name in its
    metadata, and also when the lower-cased prompt contains none of the
    seven referring expressions. *)
Theorem resolve_references_unchanged (prompt : string) (history : list turn) :
  (Forall (fun msg => role msg <> "assistant"
                      \/ metadata msg !! "company_name" = None) history ->
   resolve_references prompt history = inl prompt)
  /\ ((forall ref, In ref references -> contains (lower prompt) ref = false) ->
      resolve_references prompt history = inl prompt).
Proof.
  split.
  - intros Hnone. unfold resolve_references. destruct history as [|t h]; [reflexivity|].
    unfold last_company, last_where. rewrite find_none_all; [reflexivity|].
    intros x Hx. apply list_elem_of_In in Hx. rewrite elem_of_reverse in Hx.
    rewrite Forall_forall in Hnone. destruct (Hnone x Hx) as [Hr|Hm].
    + apply String.eqb_neq in Hr. rewrite Hr. reflexivity.
    + rewrite Hm. rewrite (bool_decide_eq_false_2 (is_Some (@None json))) by (apply is_Some_None).
      rewrite andb_false_r. reflexivity.
  - intros Habsent. unfold resolve_references. destruct history as [|t h]; [reflexivity|].
    destruct (last_company (t :: h)) as [company|]; [|reflexivity].
    destruct (json_truthy company); [|reflexivity].
    apply replace_references_absent. exact Habsent.
Qed.

Lemma resolve_references_unchanged_witness :
  resolve_references "Research Apple"
    [ Turn "assistant" "Researched Google." None None 1
           {[ "company_name" := JStr "Google" ]} ]
  = inl "Research Apple".
Proof.
  refine (proj2 (resolve_references_unchanged _ _) _).
  intros ref Href. cbn in Href.
  repeat destruct Href as [<-|Href]; try (vm_compute; reflexivity).
  destruct Href.
Defined.

(** ** More on the replies *)

(** X18. The contextual suggestions are never empty and never more than
    three, whatever the intent, the companies and the persona. *)
Theorem contextual_suggestions_count (intent : string) (companies_list : list json)
        (persona : string) :
  (1 <= length (generate_contextual_suggestions intent companies_list persona) <= 3)%nat.
Proof.
  unfold generate_contextual_suggestions.
  destruct companies_list as [|c1 [|c2 l]];
    cbn [length Nat.leb Nat.eqb];
    destruct (String.eqb intent INTENT_RESEARCH);
    try destruct (String.eqb intent INTENT_UPDATE);
    cbn; lia.
Qed.

Section EfficientFacts.

Lemma count_pairs_cons (p : turn -> string -> bool) (m : turn) (ms : list turn)
      (terms : list string) :
  count_pairs p (m :: ms) terms
  = (length (List.filter (p m) terms) + count_pairs p ms terms)%nat.
Proof.
  unfold count_pairs. cbn [mbind list_bind].
  rewrite List.filter_app, length_app. f_equal.
  induction terms as [|t terms IH]; [reflexivity|].
  cbn [mbind list_bind app List.filter]. destruct (p m t); cbn [length]; rewrite IH; reflexivity.
Qed.

Lemma filter_all_false {A} (f : A -> bool) (l : list A) :
  (forall x, In x l -> f x = false) -> length (List.filter f l) = 0%nat.
Proof.
  induction l as [|x l IH]; [reflexivity|]. intros H.
  cbn [List.filter]. rewrite (H x (or_introl eq_refl)).
  apply IH. intros y Hy. apply H. right. exact Hy.
Qed.

Lemma filter_some_true {A} (f : A -> bool) (l : list A) (x : A) :
  In x l -> f x = true -> (1 <= length (List.filter f l))%nat.
Proof.
  induction l as [|y l IH]; [intros []|]. intros Hin Hx.
  cbn [List.filter]. destruct (f y) eqn:E; [cbn; lia|].
  apply IH; [|exact Hx]. destruct Hin as [->|Hin]; [congruence|exact Hin].
Qed.

Lemma count_pairs_none (p : turn -> string -> bool) (ms : list turn)
      (terms : list string) :
  Forall (fun m => forall t, In t terms -> p m t = false) ms ->
  count_pairs p ms terms = 0%nat.
Proof.
  induction 1 as [|m ms Hm _ IH]; [reflexivity|].
  rewrite count_pairs_cons, IH, Nat.add_0_r.
  apply filter_all_false. exact Hm.
Qed.

Lemma count_pairs_each (p : turn -> string -> bool) (ms : list turn)
      (terms : list string) :
  Forall (fun m => exists t, In t terms /\ p m t = true) ms ->
  (length ms <= count_pairs p ms terms)%nat.
Proof.
  induction 1 as [|m ms (t & Ht & Hp) _ IH]; [cbn; lia|].
  rewrite count_pairs_cons. cbn [length].
  pose proof (filter_some_true (p m) terms t Ht Hp). lia.
Qed.

Lemma total_length_short (ms : list turn) :
  Forall (fun m => (len (content m) < 30)%nat) ms ->
  (foldr Nat.add 0 (map (fun msg => len (content msg)) ms) <= 29 * length ms)%nat.
Proof.
  induction 1 as [|m ms Hm _ IH]; [cbn; lia|].
  cbn [map foldr length]. lia.
Qed.

End EfficientFacts.

(** X19. A history with at least two user turns, every one of them a
    short direct message (fewer than 30 characters, starting with a
    command verb, with no question mark and no vague term), is classified
    "efficient", whatever the assistant turns between them. *)
Theorem direct_users_efficient (history : list turn) :
  (2 <= length (filter (fun msg => role msg = "user") history))%nat ->
  Forall direct_message (filter (fun msg => role msg = "user") history) ->
  detect_user_persona history = PERSONA_EFFICIENT.
Proof.
  intros Hlen Hall. unfold detect_user_persona.
  destruct history as [|t h]; [cbn in Hlen; lia|].
  cbv beta iota zeta.
  set (um := filter (fun msg => role msg = "user") (t :: h)) in *.
  clearbody um.
  destruct (length um <? 2)%nat eqn:E; [apply Nat.ltb_lt in E; lia|]. clear E.
  (* no vague term, no question *)
  rewrite (count_pairs_none _ um
             ["help"; "something"; "maybe"; "not sure"; "don't know"; "what can"; "how do"]).
  2:{ eapply Forall_impl; [exact Hall|]. intros m (_ & _ & Hv & _). exact Hv. }
  assert (Hq : List.filter (fun msg => contains (content msg) "?") um = []).
  { clear Hlen. induction Hall as [|m ms (_ & Hm & _) _ IH]; [reflexivity|].
    cbn [List.filter]. rewrite Hm. exact IH. }
  rewrite Hq. cbn [length Nat.leb orb].
  assert (Hn : (0 < Z.of_nat (length um))%Z) by lia.
  assert (Hratio : Qltb (6 # 10) (Qnat 0 / Qnat (length um)) = false).
  { unfold Qltb. apply negb_false_iff, Qle_bool_iff.
    unfold Qle, Qdiv, Qmult, Qnat. cbn. lia. }
  rewrite Hratio.
  (* short on average *)
  pose proof (total_length_short um) as Htot.
  assert (Hshort : Forall (fun m => (len (content m) < 30)%nat) um).
  { eapply Forall_impl; [exact Hall|]. intros m (Hm & _). exact Hm. }
  specialize (Htot Hshort).
  assert (Havg : Qltb (Qnat (foldr Nat.add 0%nat
                               (map (fun msg => len (content msg)) um))
                       / Qnat (length um)) 30 = true).
  { unfold Qltb. apply negb_true_iff.
    destruct (Qle_bool 30 _) eqn:Eb; [|reflexivity].
    apply Qle_bool_iff in Eb. exfalso. revert Eb. apply Qlt_not_le.
    apply Qlt_shift_div_r.
    - unfold Qlt, Qnat. cbn. lia.
    - unfold Qlt, Qnat, Qmult. cbn. lia. }
  rewrite Havg.
  (* a command at the start of each *)
  pose proof (count_pairs_each
                (fun msg cmd => startswith (lower (content msg)) cmd) um
                ["research"; "update"; "change"; "generate"; "find"; "show"]) as Hdir.
  assert (Hcmd : Forall (fun m => exists t,
                           In t ["research"; "update"; "change"; "generate"; "find"; "show"]
                           /\ startswith (lower (content m)) t = true) um).
  { eapply Forall_impl; [exact Hall|]. intros m (_ & _ & _ & Hc). exact Hc. }
  specialize (Hdir Hcmd).
  assert (Hle : Qle_bool (Qnat (length um) * (7 # 10))
                  (Qnat (count_pairs
                           (fun msg cmd => startswith (lower (content msg)) cmd) um
                           ["research"; "update"; "change"; "generate"; "find"; "show"]))
                = true).
  { apply Qle_bool_iff. unfold Qle, Qmult, Qnat. cbn. lia. }
  rewrite Hle. reflexivity.
Qed.

Lemma direct_users_efficient_witness :
  detect_user_persona
    [ Turn "user" "Research Google" None None 1 ∅;
      Turn "assistant" "Researched Google. What next?" None None 2 ∅;
      Turn "user" "update revenue" None None 3 ∅;
      Turn "user" "Show partners" None None 4 ∅ ]
  = PERSONA_EFFICIENT.
Proof.
  apply direct_users_efficient.
  - vm_compute. lia.
  - vm_compute filter.
    repeat constructor; try (vm_compute; lia); try (vm_compute; reflexivity).
    + intros term Hterm. cbn in Hterm.
      repeat destruct Hterm as [<-|Hterm]; try (vm_compute; reflexivity). destruct Hterm.
    + exists "research". split; [cbn; tauto|vm_compute; reflexivity].
    + intros term Hterm. cbn in Hterm.
      repeat destruct Hterm as [<-|Hterm]; try (vm_compute; reflexivity). destruct Hterm.
    + exists "update". split; [cbn; tauto|vm_compute; reflexivity].
    + intros term Hterm. cbn in Hterm.
      repeat destruct Hterm as [<-|Hterm]; try (vm_compute; reflexivity). destruct Hterm.
    + exists "show". split; [cbn; tauto|vm_compute; reflexivity].
Defined.

(** ** More on the request pipeline *)

Section WorldFacts.

Lemma foldl_attempts (l : list Q) : forall w0 : world,
  db (foldl (fun w d => tick (sleep d w)) w0 l) = db w0
  /\ calls (foldl (fun w d => tick (sleep d w)) w0 l) = (calls w0 + length l)%nat
  /\ slept (foldl (fun w d => tick (sleep d w)) w0 l) = slept w0 ++ l.
Proof.
  induction l as [|d l IH]; intros w0.
  - cbn. rewrite Nat.add_0_r, app_nil_r. repeat split.
  - cbn [foldl length]. destruct (IH (tick (sleep d w0))) as (H1 & H2 & H3).
    rewrite H1, H2, H3. cbn. rewrite <- app_assoc. repeat split. lia.
Qed.

Lemma after_attempts_facts (l : list Q) (w : world) :
  db (after_attempts l w) = db w
  /\ calls (after_attempts l w) = (S (calls w) + length l)%nat
  /\ slept (after_attempts l w) = slept w ++ l.
Proof.
  unfold after_attempts. destruct (foldl_attempts l (tick w)) as (H1 & H2 & H3).
  rewrite H1, H2, H3. repeat split.
Qed.

(** The worlds a retried call can end in, when each call is one
    collaborator call. *)
Lemma retry3_outcome {A : Type} (f : M A) :
  (forall w, snd (f w) = tick w) ->
  forall w : world,
    exists j : nat,
      (j <= 3)%nat
      /\ snd (with_retry sleep 3 1 f w) = after_attempts (take j [1%Q; 2%Q; 4%Q]) w.
Proof.
  intros Hf w.
  assert (D1 : py_min (1 * default_exponential_base) default_max_delay = 2%Q)
    by reflexivity.
  assert (D2 : py_min (2 * default_exponential_base) default_max_delay = 4%Q)
    by reflexivity.
  unfold with_retry, retry_with_exponential_backoff.
  change (range (3 + 1)) with [0; 1; 2; 3]%Z. cbn [retry_loop].
  pose proof (Hf w) as H0. destruct (f w) as [[v|e0] w0]; cbn [snd] in H0; subst w0.
  { exists 0%nat. split; [lia|reflexivity]. }
  change (0 <? 3)%Z with true. change (Qle_bool 0 1) with true. cbv iota.
  rewrite D1.
  pose proof (Hf (sleep 1 (tick w))) as H1.
  destruct (f (sleep 1 (tick w))) as [[v|e1] w1]; cbn [snd] in H1; subst w1.
  { exists 1%nat. split; [lia|reflexivity]. }
  change (1 <? 3)%Z with true. change (Qle_bool 0 2) with true. cbv iota.
  rewrite D2.
  pose proof (Hf (sleep 2 (tick (sleep 1 (tick w))))) as H2.
  destruct (f (sleep 2 (tick (sleep 1 (tick w))))) as [[v|e2] w2];
    cbn [snd] in H2; subst w2.
  { exists 2%nat. split; [lia|reflexivity]. }
  change (2 <? 3)%Z with true. change (3 <? 3)%Z with false.
  change (Qle_bool 0 4) with true. cbv iota.
  pose proof (Hf (sleep 4 (tick (sleep 2 (tick (sleep 1 (tick w))))))) as H3.
  destruct (f (sleep 4 (tick (sleep 2 (tick (sleep 1 (tick w))))))) as [[v|e3] w3];
    cbn [snd] in H3; subst w3; exists 3%nat; (split; [lia|reflexivity]).
Qed.

Lemma retry2_outcome {A : Type} (f : M A) :
  (forall w, snd (f w) = tick w) ->
  forall w : world,
    exists j : nat,
      (j <= 2)%nat
      /\ snd (with_retry sleep 2 1 f w) = after_attempts (take j [1%Q; 2%Q]) w.
Proof.
  intros Hf w.
  assert (D1 : py_min (1 * default_exponential_base) default_max_delay = 2%Q)
    by reflexivity.
  unfold with_retry, retry_with_exponential_backoff.
  change (range (2 + 1)) with [0; 1; 2]%Z. cbn [retry_loop].
  pose proof (Hf w) as H0. destruct (f w) as [[v|e0] w0]; cbn [snd] in H0; subst w0.
  { exists 0%nat. split; [lia|reflexivity]. }
  change (0 <? 2)%Z with true. change (Qle_bool 0 1) with true. cbv iota.
  rewrite D1.
  pose proof (Hf (sleep 1 (tick w))) as H1.
  destruct (f (sleep 1 (tick w))) as [[v|e1] w1]; cbn [snd] in H1; subst w1.
  { exists 1%nat. split; [lia|reflexivity]. }
  change (1 <? 2)%Z with true. change (2 <? 2)%Z with false.
  change (Qle_bool 0 2) with true. cbv iota.
  pose proof (Hf (sleep 2 (tick (sleep 1 (tick w))))) as H2.
  destruct (f (sleep 2 (tick (sleep 1 (tick w))))) as [[v|e2] w2];
    cbn [snd] in H2; subst w2; exists 2%nat; (split; [lia|reflexivity]).
Qed.

Lemma grows_same (session_id : string) (w w' : world) :
  db w' = db w -> grows session_id 0 w w'.
Proof.
  intros H. exists []. rewrite H, app_nil_r. repeat split. constructor.
Qed.

Lemma grows_trans (session_id : string) (n m : nat) (w w1 w2 : world) :
  grows session_id n w w1 -> grows session_id m w1 w2 ->
  grows session_id (n + m) w w2.
Proof.
  intros (a1 & H1 & L1 & F1 & O1) (a2 & H2 & L2 & F2 & O2).
  exists (a1 ++ a2). rewrite H2, H1, <- app_assoc, length_app, L1, L2.
  repeat split.
  - apply Forall_app. split; assumption.
  - intros other Hne. rewrite (O2 other Hne). apply O1. exact Hne.
Qed.

Lemma grows_save (session_id role content : string) (intent persona : option string)
      (metadata : option dict) (w : world) :
  grows session_id 1 w
        (snd (save_turn session_id role content intent persona metadata w)).
Proof.
  unfold save_turn, save_conversation_turn. cbn [snd db conversations user_sessions].
  eexists. split; [reflexivity|]. split; [reflexivity|]. split.
  - repeat constructor.
  - intros other Hne. apply lookup_insert_ne. exact Hne.
Qed.

End WorldFacts.

Section PipelineFacts.

Variables PERPLEXITY_API_KEY GEMINI_API_KEY : option string.
Variable invoke_chat : llm -> nat -> messages -> string + exn.
Variable invoke_extract : llm -> nat -> string -> string + exn.
Variable extract_info : nat -> string -> json + exn.
Variable json_loads : string -> json + exn.
Variables json_dumps json_dumps_indent : json -> string.
Variable bind_content : json -> string + exn.
Variables get_persona_instructions get_intent_instructions : string -> string.

Lemma response_object (reply : string) (suggestions : list string) :
  reply_object (JObj (response reply suggestions)).
Proof.
  destruct (response_reply reply suggestions) as (Hr & _ & Hs).
  exists (response reply suggestions). split; [reflexivity|]. split; eauto.
Qed.

Lemma clarification_object (reply : string) (suggestions : list string) :
  reply_object (clarification reply suggestions).
Proof.
  destruct (clarification_fields reply suggestions) as (o & Ho & Hr & _ & Hs & _).
  exists o. split; [exact Ho|]. split; eauto.
Qed.

Lemma fallback_object (error_message fallback_reply : string) :
  reply_object
    (JObj (if bool_decide (is_Some (response fallback_reply [] !! "reply"))
           then <[ "reply" := JStr error_message ]> (response fallback_reply [])
           else response fallback_reply [])).
Proof.
  destruct (response_reply fallback_reply []) as (Hr & _ & Hs).
  rewrite bool_decide_eq_true_2 by eauto.
  eexists. split; [reflexivity|]. split.
  - rewrite lookup_insert_eq. eauto.
  - rewrite lookup_insert_ne by discriminate. eauto.
Qed.

Lemma help_response_object (persona : string) :
  reply_object (JObj (generate_help_response persona)).
Proof.
  unfold generate_help_response.
  destruct (String.eqb persona PERSONA_CONFUSED); [apply response_object|].
  destruct (String.eqb persona PERSONA_EFFICIENT); apply response_object.
Qed.

Lemma ensure_suggestions_object (result result' : json) (fresh : list string) :
  ensure_suggestions result fresh = inl result' ->
  forall o, result' = JObj o -> is_Some (o !! "suggestions").
Proof.
  unfold ensure_suggestions. destruct result as [| | | | s | l | o0]; try discriminate.
  - destruct (contains s "suggestions"); [|discriminate].
    intros [= <-] o Ho. discriminate.
  - destruct (existsb _ l); [|discriminate]. intros [= <-] o Ho. discriminate.
  - destruct (bool_decide (is_Some (o0 !! "suggestions"))) eqn:E.
    + apply bool_decide_eq_true in E. intros [= <-] o [= <-]. exact E.
    + intros [= <-] o [= <-]. rewrite lookup_insert_eq. eauto.
Qed.

Lemma reply_content_object (result : json) (reply : string) :
  reply_content bind_content result = inl reply ->
  exists o, result = JObj o /\ is_Some (o !! "reply").
Proof.
  unfold reply_content. destruct result as [| | | | s | l | o]; try discriminate.
  destruct (o !! "reply") as [v|] eqn:E; [|discriminate].
  intros _. exists o. split; [reflexivity|eauto].
Qed.

Lemma research_outcome (company_name : string) (w : world) :
  exists (context : string) (w' : world),
    research extract_info json_dumps company_name w = (inl context, w')
    /\ db w' = db w /\ slept w' = slept w
    /\ (calls w <= calls w' <= calls w + 1)%nat.
Proof.
  unfold research.
  destruct (truthy company_name && negb (company_name =? "NONE")%string
            && negb (lower company_name =? "none")%string)%bool.
  - destruct (extract_info (calls w) company_name);
      eexists _, _; (split; [reflexivity|]); cbn; repeat split; lia.
  - eexists _, _. split; [reflexivity|]. repeat split; lia.
Qed.

(** The name step: it never raises, leaves the store alone, makes at most
    three model calls with pauses of 1 and 2 seconds between them, and a
    reply it ends the request with is a reply object. *)
Lemma company_step_outcome (model : llm) (intent resolved_prompt : string)
      (w : world) :
  exists (r : string + json) (w' : world) (i : nat),
    company_step invoke_extract model intent resolved_prompt w = (inl r, w')
    /\ db w' = db w
    /\ (calls w <= calls w' <= calls w + 3)%nat
    /\ (i <= 2)%nat /\ slept w' = slept w ++ take i [1%Q; 2%Q]
    /\ forall reply, r = inr reply -> reply_object reply.
Proof.
  assert (Hquiet : forall r, exists (w' : world) (i : nat),
             (@inl (string + json) exn r, w) = (inl r, w')
             /\ db w' = db w /\ (calls w <= calls w' <= calls w + 3)%nat
             /\ (i <= 2)%nat /\ slept w' = slept w ++ take i [1%Q; 2%Q]).
  { intros r. exists w, 0%nat. cbn. rewrite app_nil_r. repeat split; lia. }
  assert (Hask : exists (r : string + json) (w' : world) (i : nat),
             bind (try_except
                     (with_retry sleep 2 1
                        (extract_company invoke_extract model resolved_prompt))
                     (fun _ => ret "NONE"))
                  (fun company_name => ret (inl company_name : string + json)) w
             = (inl r, w')
             /\ db w' = db w /\ (calls w <= calls w' <= calls w + 3)%nat
             /\ (i <= 2)%nat /\ slept w' = slept w ++ take i [1%Q; 2%Q]
             /\ forall reply, r = inr reply -> reply_object reply).
  { destruct (retry2_outcome
                (extract_company invoke_extract model resolved_prompt)
                ltac:(intros w0; unfold extract_company;
                      destruct (invoke_extract model (calls w0) _); reflexivity) w)
      as (j & Hj & Hw).
    destruct (after_attempts_facts (take j [1%Q; 2%Q]) w) as (Hdb & Hcalls & Hslept).
    assert (Hlen : (length (take j [1%Q; 2%Q]) <= 2)%nat)
      by (rewrite length_take; cbn; lia).
    unfold bind, try_except.
    destruct (with_retry sleep 2 1
                (extract_company invoke_extract model resolved_prompt) w)
      as [[v|e] w'] eqn:E; cbn [snd] in Hw; subst w'.
    - eexists _, _, j. split; [reflexivity|].
      rewrite Hdb, Hcalls, Hslept. repeat split; try lia. discriminate.
    - eexists _, _, j. split; [reflexivity|].
      rewrite Hdb, Hcalls, Hslept. repeat split; try lia. discriminate. }
  unfold company_step.
  destruct (intent =? INTENT_RESEARCH)%string.
  2:{ destruct (Hquiet (inl "NONE")) as (w' & i & H & Hrest).
      exists (inl "NONE"), w', i. split; [exact H|].
      destruct Hrest as (? & ? & ? & ?). repeat split; try assumption; try lia.
      discriminate. }
  destruct (extract_company_name_from_prompt resolved_prompt) as [name|];
    [|exact Hask].
  destruct (truthy name); [|exact Hask].
  destruct (validate_company_name name) as [[valid msg] sugg].
  destruct (negb valid).
  - destruct (Hquiet (inr (clarification msg sugg))) as (w' & i & H & Hrest).
    exists (inr (clarification msg sugg)), w', i. split; [exact H|].
    destruct Hrest as (? & ? & ? & ?). repeat split; try assumption; try lia.
    intros reply [= <-]. apply clarification_object.
  - destruct (Hquiet (inl name)) as (w' & i & H & Hrest).
    exists (inl name), w', i. split; [exact H|].
    destruct Hrest as (? & ? & ? & ?). repeat split; try assumption; try lia.
    discriminate.
Qed.

(** The last stage: it never raises, answers with a reply object, saves
    exactly one assistant turn, and makes at most one search call and four
    model calls. *)
Lemma answer_outcome (model : llm) (session_id : string) (history : list turn)
      (resolved_prompt persona intent : string) (companies_list : list json)
      (user_preferences : dict) (company_name : string) (w : world) :
  exists (v : json) (w' : world) (j : nat),
    answer invoke_chat extract_info json_loads json_dumps json_dumps_indent
      bind_content get_persona_instructions get_intent_instructions
      model session_id history resolved_prompt persona intent
      companies_list user_preferences company_name w = (inl v, w')
    /\ reply_object v
    /\ grows session_id 1 w w'
    /\ (calls w <= calls w' <= calls w + 5)%nat
    /\ (j <= 3)%nat /\ slept w' = slept w ++ take j [1%Q; 2%Q; 4%Q].
Proof.
  destruct (research_outcome company_name w)
    as (ctx & w1 & Hres & Hdb1 & Hsl1 & Hc1).
  unfold answer. unfold bind at 1. rewrite Hres.
  match goal with
  | |- context [with_retry sleep 3 1 ?f] =>
      destruct (retry3_outcome f
                  ltac:(intros w0; unfold generate_response;
                        destruct (invoke_chat model (calls w0) _); reflexivity) w1)
        as (j & Hj & Hw);
      destruct (with_retry sleep 3 1 f w1) as [[r|e] w2] eqn:E
  end; cbn [snd] in Hw; subst w2;
    destruct (after_attempts_facts (take j [1%Q; 2%Q; 4%Q]) w1)
      as (Hdb & Hcalls & Hslept);
    assert (Hlen : (length (take j [1%Q; 2%Q; 4%Q]) <= 3)%nat)
      by (rewrite length_take; cbn; lia);
    assert (Hsave : forall role content i p m,
               grows session_id 1 w
                 (snd (save_turn session_id role content i p m
                         (after_attempts (take j [1%Q; 2%Q; 4%Q]) w1))))
      by (intros; apply (grows_trans session_id 0 1 w
                           (after_attempts (take j [1%Q; 2%Q; 4%Q]) w1));
          [apply grows_same; congruence|apply grows_save]);
    assert (Hhandler : forall e0,
               exists v w',
                 bind (save_turn session_id "assistant"
                         (get_user_friendly_error_message e0) (Some "error")
                         None None)
                      (fun _ => ret (JObj (response
                                             (get_user_friendly_error_message e0)
                                             error_suggestions)))
                      (after_attempts (take j [1%Q; 2%Q; 4%Q]) w1) = (inl v, w')
                 /\ reply_object v /\ grows session_id 1 w w'
                 /\ (calls w <= calls w' <= calls w + 5)%nat
                 /\ slept w' = slept w ++ take j [1%Q; 2%Q; 4%Q])
      by (intros e0; eexists _, _; unfold bind, ret;
          split; [reflexivity|]; split; [apply response_object|];
          split; [apply Hsave|];
          cbn [save_turn calls slept]; rewrite Hcalls, Hslept, Hsl1;
          split; [lia|reflexivity]).
  - unfold try_except. unfold bind at 1. rewrite E.
    unfold bind at 1. unfold lift at 1.
    destruct (ensure_suggestions r _) as [r'|e1] eqn:Ens.
    2:{ destruct (Hhandler e1) as (v & w' & Hrun & Hrest).
        exists v, w', j. split; [exact Hrun|]. tauto. }
    unfold bind at 1. unfold lift at 1.
    destruct (turn_metadata r' intent) as [md|e2].
    2:{ destruct (Hhandler e2) as (v & w' & Hrun & Hrest).
        exists v, w', j. split; [exact Hrun|]. tauto. }
    unfold bind at 1. unfold lift at 1.
    destruct (reply_content bind_content r') as [reply|e3] eqn:Erc.
    2:{ destruct (Hhandler e3) as (v & w' & Hrun & Hrest).
        exists v, w', j. split; [exact Hrun|]. tauto. }
    eexists _, _, j. unfold bind, ret. split; [reflexivity|].
    split.
    { destruct (reply_content_object r' reply Erc) as (o & -> & Hreply).
      exists o. split; [reflexivity|]. split; [exact Hreply|].
      exact (ensure_suggestions_object _ _ _ Ens o eq_refl). }
    split; [apply Hsave|].
    cbn [save_turn calls slept]. rewrite Hcalls, Hslept, Hsl1.
    split; [lia|]. split; [exact Hj|reflexivity].
  - unfold try_except. unfold bind at 1. rewrite E.
    destruct (Hhandler e) as (v & w' & Hrun & Hrest).
    exists v, w', j. split; [exact Hrun|]. tauto.
Qed.

(** A request as a whole. *)
Lemma process_outcome (prompt session_id : string)
      (companies_list : option (list json)) (user_preferences : option dict)
      (w : world) :
  exists (v : json) (w' : world) (n i j : nat),
    process_with_llm_enhanced PERPLEXITY_API_KEY GEMINI_API_KEY invoke_chat
      invoke_extract extract_info json_loads json_dumps json_dumps_indent
      bind_content get_persona_instructions get_intent_instructions
      prompt session_id companies_list user_preferences w = (inl v, w')
    /\ reply_object v
    /\ (n <= 2)%nat /\ grows session_id n w w'
    /\ (calls w <= calls w' <= calls w + 8)%nat
    /\ (i <= 2)%nat /\ (j <= 3)%nat
    /\ slept w' = slept w ++ take i [1%Q; 2%Q] ++ take j [1%Q; 2%Q; 4%Q].
Proof.
  assert (Hstay : forall (v : json) (w0 : world) (n : nat),
             reply_object v -> (n <= 2)%nat -> grows session_id n w w0 ->
             calls w0 = calls w -> slept w0 = slept w ->
             exists (v' : json) (w' : world) (n i j : nat),
               (@inl json exn v, w0) = (inl v', w')
               /\ reply_object v'
               /\ (n <= 2)%nat /\ grows session_id n w w'
               /\ (calls w <= calls w' <= calls w + 8)%nat
               /\ (i <= 2)%nat /\ (j <= 3)%nat
               /\ slept w' = slept w ++ take i [1%Q; 2%Q] ++ take j [1%Q; 2%Q; 4%Q]).
  { intros v w0 n Hv Hn Hg Hc Hs. exists v, w0, n, 0%nat, 0%nat.
    rewrite Hc, Hs. cbn [take app]. rewrite app_nil_r.
    repeat split; try assumption; lia. }
  unfold process_with_llm_enhanced, safe_api_call, process_body.
  set (p := sanitize_input prompt).
  destruct (validate_prompt p) as [[valid msg] sugg].
  destruct valid; cbv beta iota zeta; cbn [negb].
  2:{ unfold try_except, ret. apply (Hstay _ w 0%nat); try reflexivity; try lia.
      - apply clarification_object.
      - apply grows_same. reflexivity. }
  unfold try_except. unfold bind at 1. unfold history_of at 1.
  set (history := get_conversation_history session_id 10 (db w)).
  unfold bind at 1. unfold lift at 1.
  destruct (resolve_references p history) as [rp|e0].
  2:{ unfold ret. apply (Hstay _ w 0%nat); try reflexivity; try lia.
      - apply fallback_object.
      - apply grows_same. reflexivity. }
  set (persona := detect_user_persona history).
  set (intent := classify_intent rp history).
  unfold bind at 1.
  set (w1 := snd (save_turn session_id "user" p (Some intent) (Some persona) None w)).
  change (save_turn session_id "user" p (Some intent) (Some persona) None w)
    with (@inl unit exn tt, w1).
  assert (Hg1 : grows session_id 1 w w1) by apply grows_save.
  assert (Hc1 : calls w1 = calls w) by reflexivity.
  assert (Hs1 : slept w1 = slept w) by reflexivity.
  destruct (intent =? INTENT_HELP)%string.
  { unfold bind, ret.
    set (w2 := snd (save_turn session_id "assistant"
                      (reply_of (generate_help_response persona)) (Some intent)
                      None None w1)).
    change (save_turn session_id "assistant"
              (reply_of (generate_help_response persona)) (Some intent) None None w1)
      with (@inl unit exn tt, w2).
    apply (Hstay _ w2 2%nat); try reflexivity; try lia.
    - apply help_response_object.
    - apply (grows_trans session_id 1 1 w w1 w2 Hg1). apply grows_save. }
  destruct (intent =? INTENT_OFF_TOPIC)%string.
  { unfold bind, ret.
    set (w2 := snd (save_turn session_id "assistant"
                      (reply_of (generate_off_topic_response rp persona))
                      (Some intent) None None w1)).
    change (save_turn session_id "assistant"
              (reply_of (generate_off_topic_response rp persona)) (Some intent)
              None None w1)
      with (@inl unit exn tt, w2).
    apply (Hstay _ w2 2%nat); try reflexivity; try lia.
    - apply response_object.
    - apply (grows_trans session_id 1 1 w w1 w2 Hg1). apply grows_save. }
  unfold bind at 1. unfold lift at 1.
  destruct (get_llm PERPLEXITY_API_KEY GEMINI_API_KEY) as [model|e1].
  2:{ unfold ret. apply (Hstay _ w1 1%nat); try assumption; try lia.
      apply fallback_object. }
  unfold bind at 1.
  destruct (company_step_outcome model intent rp w1)
    as (r & w2 & i & Hstep & Hdb2 & Hc2 & Hi & Hs2 & Hreply).
  rewrite Hstep.
  assert (Hg2 : grows session_id 1 w w2).
  { apply (grows_trans session_id 1 0 w w1 w2 Hg1). apply grows_same. exact Hdb2. }
  destruct r as [company_name|reply].
  2:{ unfold ret. exists reply, w2, 1%nat, i, 0%nat.
      split; [reflexivity|]. split; [apply Hreply; reflexivity|].
      cbn [take]. rewrite app_nil_r, Hs2, Hs1.
      repeat split; try assumption; lia. }
  destruct (answer_outcome model session_id history rp persona intent
              (default [] companies_list)
              (default {[ "verbosity" := JStr "balanced" ]} user_preferences)
              company_name w2)
    as (v & w3 & j & Hans & Hv & Hg3 & Hc3 & Hj & Hs3).
  rewrite Hans. exists v, w3, 2%nat, i, j.
  split; [reflexivity|]. split; [exact Hv|]. split; [lia|].
  split; [exact (grows_trans session_id 1 1 w w2 w3 Hg2 Hg3)|].
  split; [lia|]. split; [exact Hi|]. split; [exact Hj|].
  rewrite Hs3, Hs2, Hs1, <- app_assoc. reflexivity.
Qed.

(** X20. A request never raises: whatever the prompt, the state and the
    collaborators do, [process_with_llm_enhanced] returns a JSON object
    that has a "reply" and a "suggestions" entry. *)
Theorem process_returns_reply_object (prompt session_id : string)
        (companies_list : option (list json)) (user_preferences : option dict)
        (w : world) :
  exists (v : json) (w' : world),
    process_with_llm_enhanced PERPLEXITY_API_KEY GEMINI_API_KEY invoke_chat
      invoke_extract extract_info json_loads json_dumps json_dumps_indent
      bind_content get_persona_instructions get_intent_instructions
      prompt session_id companies_list user_preferences w = (inl v, w')
    /\ reply_object v.
Proof.
  destruct (process_outcome prompt session_id companies_list user_preferences w)
    as (v & w' & n & i & j & Hrun & Hv & _).
  exists v, w'. split; assumption.
Qed.

(** X21. A request only appends to the conversation table: it adds at
    most two turns, all of its own session, after the rows that were
    there, and it leaves the records of all other sessions as they were. *)
Theorem process_appends_own_turns (prompt session_id : string)
        (companies_list : option (list json)) (user_preferences : option dict)
        (w : world) :
  exists n : nat,
    (n <= 2)%nat
    /\ grows session_id n w
         (snd (process_with_llm_enhanced PERPLEXITY_API_KEY GEMINI_API_KEY
                 invoke_chat invoke_extract extract_info json_loads json_dumps
                 json_dumps_indent bind_content get_persona_instructions
                 get_intent_instructions
                 prompt session_id companies_list user_preferences w)).
Proof.
  destruct (process_outcome prompt session_id companies_list user_preferences w)
    as (v & w' & n & i & j & Hrun & _ & Hn & Hg & _).
  exists n. rewrite Hrun. split; assumption.
Qed.


End PipelineFacts.

Section PathFacts.

Variables PERPLEXITY_API_KEY GEMINI_API_KEY : option string.
Variable invoke_chat : llm -> nat -> messages -> string + exn.
Variable invoke_extract : llm -> nat -> string -> string + exn.
Variable extract_info : nat -> string -> json + exn.
Variable json_loads : string -> json + exn.
Variables json_dumps json_dumps_indent : json -> string.
Variable bind_content : json -> string + exn.
Variables get_persona_instructions get_intent_instructions : string -> string.

(** X23. A request classified as help or off-topic is answered from the
    canned texts without any collaborator: no model is chosen (so no API
    key is needed), no call is made and no pause taken.  The user turn and
    then the assistant turn are saved, and nothing else is written; each
    of the four statements of the two saves reads the clock for itself. *)
Theorem canned_request_needs_no_model (prompt session_id : string)
        (companies_list : option (list json)) (user_preferences : option dict)
        (w : world) (resolved_prompt : string) :
  let p := sanitize_input prompt in
  let history := get_conversation_history session_id 10 (db w) in
  let persona := detect_user_persona history in
  let intent := classify_intent resolved_prompt history in
  let reply :=
    if String.eqb intent INTENT_HELP then generate_help_response persona
    else generate_off_topic_response resolved_prompt persona in
  let w1 := lapse w in
  let w2 := lapse w1 in
  let w3 := lapse w2 in
  let w4 := lapse w3 in
  (validate_prompt p).1.1 = true ->
  resolve_references p history = inl resolved_prompt ->
  intent = INTENT_HELP \/ intent = INTENT_OFF_TOPIC ->
  process_with_llm_enhanced PERPLEXITY_API_KEY GEMINI_API_KEY invoke_chat
    invoke_extract extract_info json_loads json_dumps json_dumps_indent
    bind_content get_persona_instructions get_intent_instructions
    prompt session_id companies_list user_preferences w
  = (inl (JObj reply),
     {| db :=
          save_conversation_turn (current_timestamp w3) (current_timestamp w4)
            session_id "assistant" (reply_of reply) (Some intent) None None
            (save_conversation_turn (current_timestamp w1)
               (current_timestamp w2) session_id "user" p (Some intent)
               (Some persona) None (db w));
        clock := clock w4; lapses := lapses w4; calls := calls w;
        slept := slept w |}).
Proof.
  intros p history persona intent reply w1 w2 w3 w4 Hvalid Hresolve Hintent.
  unfold process_with_llm_enhanced, safe_api_call, process_body.
  fold p. destruct (validate_prompt p) as [[valid msg] sugg].
  cbn in Hvalid. subst valid. cbv beta iota zeta. cbn [negb].
  unfold try_except. unfold bind at 1. unfold history_of at 1.
  fold history. unfold bind at 1. unfold lift at 1. rewrite Hresolve.
  fold persona. fold intent. subst reply.
  destruct (String.eqb intent INTENT_HELP) eqn:Eh; [reflexivity|].
  destruct Hintent as [Hi|Hi].
  - apply String.eqb_neq in Eh. contradiction.
  - rewrite Hi. reflexivity.
Qed.

(** X24. Without a usable API key (neither variable set to a non-empty
    text), a request that passes the gate and is neither help nor
    off-topic is answered with the API-key message of
    [get_user_friendly_error_message]; its user turn has been saved by
    then (its two statements each reading the clock) and no assistant
    turn follows it; no collaborator is called. *)
Theorem request_without_api_key (prompt session_id : string)
        (companies_list : option (list json)) (user_preferences : option dict)
        (w : world) (resolved_prompt : string) :
  let p := sanitize_input prompt in
  let history := get_conversation_history session_id 10 (db w) in
  let persona := detect_user_persona history in
  let intent := classify_intent resolved_prompt history in
  (validate_prompt p).1.1 = true ->
  resolve_references p history = inl resolved_prompt ->
  intent <> INTENT_HELP ->
  intent <> INTENT_OFF_TOPIC ->
  usable PERPLEXITY_API_KEY = None ->
  usable GEMINI_API_KEY = None ->
  process_with_llm_enhanced PERPLEXITY_API_KEY GEMINI_API_KEY invoke_chat
    invoke_extract extract_info json_loads json_dumps json_dumps_indent
    bind_content get_persona_instructions get_intent_instructions
    prompt session_id companies_list user_preferences w
  = (inl (JObj (<[ "reply" := JStr msg_api_key ]>
                  (response "I encountered an error. Please try again." []))),
     {| db :=
          save_conversation_turn (current_timestamp (lapse w))
            (current_timestamp (lapse (lapse w))) session_id "user" p
            (Some intent) (Some persona) None (db w);
        clock := clock (lapse (lapse w)); lapses := lapses (lapse (lapse w));
        calls := calls w; slept := slept w |}).
Proof.
  intros p history persona intent Hvalid Hresolve Hhelp Hoff Hp Hg.
  unfold process_with_llm_enhanced, safe_api_call, process_body.
  fold p. destruct (validate_prompt p) as [[valid msg] sugg].
  cbn in Hvalid. subst valid. cbv beta iota zeta. cbn [negb].
  unfold try_except. unfold bind at 1. unfold history_of at 1.
  fold history. unfold bind at 1. unfold lift at 1. rewrite Hresolve.
  fold persona. fold intent.
  apply String.eqb_neq in Hhelp, Hoff.
  unfold bind at 1. unfold save_turn at 1.
  rewrite Hhelp, Hoff.
  unfold bind at 1. unfold lift at 1. unfold get_llm. rewrite Hp, Hg.
  unfold ret. reflexivity.
Qed.

End PathFacts.

Lemma canned_request_needs_no_model_witness :
  calls (snd (process_failing unavailable "Tell me a joke about the weather today"
                "s1" start)) = 0%nat.
Proof.
  unfold process_failing.
  rewrite (canned_request_needs_no_model
             None (Some "pplx-key") (chat_raises unavailable)
             (fun _ _ _ => inr unavailable) (fun _ _ => inr unavailable)
             (fun _ => inr (Exn "JSONDecodeError" "Expecting value: line 1 column 1 (char 0)"))
             (fun _ => "") (fun _ => "")
             (fun _ => inr (Exn "InterfaceError" "Error binding parameter 2 - probably unsupported type."))
             (fun _ => "") (fun _ => "")
             "Tell me a joke about the weather today" "s1" None None start
             "Tell me a joke about the weather today").
  - reflexivity.
  - vm_compute. reflexivity.
  - vm_compute. reflexivity.
  - right. vm_compute. reflexivity.
Defined.

Lemma request_without_api_key_witness :
  exists w',
    process_with_llm_enhanced None (Some "")
      (chat_raises unavailable) (fun _ _ _ => inr unavailable)
      (fun _ _ => inr unavailable) (fun _ => inr unavailable)
      (fun _ => "") (fun _ => "") (fun _ => inr unavailable)
      (fun _ => "") (fun _ => "")
      "Research Google" "s1" None None start
    = (inl (JObj (<[ "reply" := JStr msg_api_key ]>
                    (response "I encountered an error. Please try again." []))), w').
Proof.
  eexists.
  apply (request_without_api_key None (Some "")
           (chat_raises unavailable) (fun _ _ _ => inr unavailable)
           (fun _ _ => inr unavailable) (fun _ => inr unavailable)
           (fun _ => "") (fun _ => "") (fun _ => inr unavailable)
           (fun _ => "") (fun _ => "")
           "Research Google" "s1" None None start "Research Google").
  - vm_compute. reflexivity.
  - vm_compute. reflexivity.
  - vm_compute. discriminate.
  - vm_compute. discriminate.
  - reflexivity.
  - reflexivity.
Defined.

(** ** The best plan *)

Section BestPlanFacts.

Variables PERPLEXITY_API_KEY GEMINI_API_KEY : option string.
Variable invoke_plan : llm -> nat -> string -> string + exn.
Variable json_loads : string -> json + exn.
Variable json_dumps_indent : json -> string.

Lemma best_plan_fallback (message : string) :
  (if bool_decide (is_Some (BestPlan.fallback_response !! "reply"))
   then <[ "reply" := JStr message ]> BestPlan.fallback_response
   else BestPlan.fallback_response)
  = {[ "reply" := JStr message; "bestPlan" := JObj ∅ ]}.
Proof.
  rewrite bool_decide_eq_true_2 by (unfold BestPlan.fallback_response; eauto).
  unfold BestPlan.fallback_response. apply insert_insert_eq.
Qed.

(** X25. [generate_best_plan] never raises and never touches the store;
    it makes at most four model calls.  Without a usable key, or when the
    model raises at every one of the four attempts, it answers with the
    fallback object: an empty [bestPlan] and, as reply, the user-friendly
    message of the exception. *)
Theorem generate_best_plan_outcome (companies_list : list json) (w : world) :
  exists (v : json) (w' : world),
    BestPlan.generate_best_plan PERPLEXITY_API_KEY GEMINI_API_KEY invoke_plan
      json_loads json_dumps_indent companies_list w = (inl v, w')
    /\ db w' = db w
    /\ (calls w <= calls w' <= calls w + 4)%nat
    /\ (forall e,
          get_llm PERPLEXITY_API_KEY GEMINI_API_KEY = inr e ->
          w' = w
          /\ v = JObj {[ "reply" := JStr (get_user_friendly_error_message e);
                         "bestPlan" := JObj ∅ ]})
    /\ (forall model exc,
          get_llm PERPLEXITY_API_KEY GEMINI_API_KEY = inl model ->
          (forall n u, invoke_plan model n u = inr (exc n)) ->
          calls w' = (calls w + 4)%nat
          /\ v = JObj {[ "reply" :=
                           JStr (get_user_friendly_error_message (exc (3 + calls w)));
                         "bestPlan" := JObj ∅ ]}).
Proof.
  unfold BestPlan.generate_best_plan, safe_api_call, try_except.
  unfold bind at 1. unfold lift at 1.
  destruct (get_llm PERPLEXITY_API_KEY GEMINI_API_KEY) as [model|e0].
  2:{ eexists _, _. unfold ret. split; [reflexivity|].
      split; [reflexivity|]. split; [lia|]. split.
      - intros e [= <-]. split; [reflexivity|]. rewrite best_plan_fallback. reflexivity.
      - intros model exc [=]. }
  assert (Htick : forall w0,
             snd (BestPlan.generate invoke_plan json_loads json_dumps_indent
                    model companies_list w0) = tick w0).
  { intros w0. unfold BestPlan.generate.
    destruct (invoke_plan model (calls w0) _); reflexivity. }
  destruct (retry3_outcome _ Htick w) as (j & Hj & Hw).
  destruct (after_attempts_facts (take j [1%Q; 2%Q; 4%Q]) w) as (Hdb & Hcalls & _).
  assert (Hlen : (length (take j [1%Q; 2%Q; 4%Q]) <= 3)%nat)
    by (rewrite length_take; cbn; lia).
  assert (Hfail : forall exc,
             (forall n u, invoke_plan model n u = inr (exc n)) ->
             with_retry sleep 3 1
               (BestPlan.generate invoke_plan json_loads json_dumps_indent
                  model companies_list) w
             = (inr (exc (3 + calls w)),
                tick (sleep 4 (tick (sleep 2 (tick (sleep 1 (tick w)))))))).
  { intros exc Hexc.
    assert (Hgen : forall w0,
               BestPlan.generate invoke_plan json_loads json_dumps_indent
                 model companies_list w0 = (inr (exc (calls w0)), tick w0)).
    { intros w0. unfold BestPlan.generate. rewrite Hexc. reflexivity. }
    change (with_retry sleep 3 1 ?f) with (retry_default sleep f).
    apply (retry_default_raises sleep _ w
             (exc (calls w)) (exc (1 + calls w)) (exc (2 + calls w))
             (exc (3 + calls w))
             (tick w) (tick (sleep 1 (tick w)))
             (tick (sleep 2 (tick (sleep 1 (tick w))))));
      apply Hgen. }
  destruct (with_retry sleep 3 1
              (BestPlan.generate invoke_plan json_loads json_dumps_indent
                 model companies_list) w) as [[r|e] w2] eqn:E;
    cbn [snd] in Hw; subst w2.
  - eexists _, _. split; [reflexivity|].
    rewrite Hdb, Hcalls. split; [reflexivity|]. split; [lia|]. split.
    + intros e [=].
    + intros model' exc [= <-] Hexc. discriminate (Hfail exc Hexc).
  - eexists _, _. unfold ret. split; [reflexivity|].
    rewrite Hdb, Hcalls. split; [reflexivity|]. split; [lia|]. split.
    + intros e' [=].
    + intros model' exc [= <-] Hexc.
      pose proof (Hfail exc Hexc) as Hlast. injection Hlast as -> Hworld.
      rewrite best_plan_fallback. split; [|reflexivity].
      rewrite <- Hcalls, Hworld. cbn. lia.
Qed.

End BestPlanFacts.

Lemma generate_best_plan_outcome_witness :
  exists w',
    BestPlan.generate_best_plan None None (fun _ _ _ => inr unavailable)
      (fun _ => inr unavailable) (fun _ => "") [JObj ∅; JObj ∅] start
    = (inl (JObj {[ "reply" := JStr msg_api_key; "bestPlan" := JObj ∅ ]}), w').
Proof.
  destruct (generate_best_plan_outcome None None (fun _ _ _ => inr unavailable)
              (fun _ => inr unavailable) (fun _ => "") [JObj ∅; JObj ∅] start)
    as (v & w' & Hrun & _ & _ & Hnokey & _).
  destruct (Hnokey no_api_key eq_refl) as [_ Hv].
  exists w'. rewrite Hrun, Hv. reflexivity.
Defined.

(** ** More on saving turns *)

(** X26. When the clock has moved on since the last stored turn of the
    session, a turn read back right after it was saved is the last element
    of the history, with the role, content, intent, persona and metadata
    it was saved with (a missing or empty metadata mapping reads back
    empty), whatever the limit, as long as it is not zero and is one that
    sqlite3 binds (a signed 64-bit integer). *)
Theorem saved_turn_read_back_last (c : save_call) (limit : Z) (db : store) :
  Forall (fun r => (c_timestamp r < s_now c)%Z) (rows_of (s_session_id c) db) ->
  limit <> 0%Z ->
  int64 limit ->
  last (get_conversation_history (s_session_id c) limit (run_save c db))
  = Some (turn_of_call c).
Proof.
  intros Hlater Hlimit _.
  destruct (history_after_save_later c limit db Hlater Hlimit) as [older ->].
  apply last_snoc.
Qed.

Lemma saved_turn_read_back_last_witness :
  last (get_conversation_history "s" 10
          (run_save (SaveCall 6 6 "s" "assistant" "Researched Google."
                              (Some "research") None
                              (Some {[ "company_name" := JStr "Google" ]}))
                    (run_saves (burst 11) empty_store)))
  = Some (Turn "assistant" "Researched Google." (Some "research") None 6
               {[ "company_name" := JStr "Google" ]}).
Proof.
  refine (saved_turn_read_back_last
            (SaveCall 6 6 "s" "assistant" "Researched Google." (Some "research") None
                      (Some {[ "company_name" := JStr "Google" ]}))
            10 (run_saves (burst 11) empty_store) _ _ _).
  - vm_compute. repeat constructor.
  - discriminate.
  - unfold int64. lia.
Defined.

Section SessionRecordFacts.

Lemma run_saves_session (cs : list save_call) : forall (db : store) (sid : string),
  user_sessions (run_saves cs db) !! sid
  = foldl (fun old c => Some (upsert_session (s_later c) (s_persona c) old))
          (user_sessions db !! sid) (calls_for sid cs).
Proof.
  induction cs as [|c cs IH]; intros db sid; [reflexivity|].
  cbn [run_saves foldl]. fold (run_saves cs (run_save c db)).
  rewrite IH, run_save_session. unfold calls_for. rewrite (filter_cons _ c cs).
  destruct (decide (s_session_id c = sid)); reflexivity.
Qed.

Lemma upserts_on_record (rest : list save_call) : forall r : session_row,
  exists r' : session_row,
    foldl (fun old c => Some (upsert_session (s_later c) (s_persona c) old))
          (Some r) rest = Some r'
    /\ created_at r' = created_at r
    /\ last_active r' = default (last_active r) (s_later <$> last rest)
    /\ detected_persona r'
       = foldl (fun acc c => coalesce (s_persona c) acc) (detected_persona r) rest
    /\ preferences r' = preferences r.
Proof.
  induction rest as [|c rest IH]; intros r.
  - exists r. repeat split.
  - cbn [foldl].
    destruct (IH (upsert_session (s_later c) (s_persona c) (Some r)))
      as (r' & Hrun & Hc & Hl & Hp & Hpr).
    exists r'. split; [exact Hrun|]. cbn [upsert_session] in *.
    rewrite Hc, Hl, Hp, Hpr. cbn. repeat split.
    destruct rest as [|c' rest]; [reflexivity|]. cbn [last].
    destruct (last (c' :: rest)) eqn:E; [reflexivity|].
    apply last_None in E. discriminate.
Qed.

End SessionRecordFacts.

(** X27. The record of a session after a sequence of saves, started with
    no record for it: [created_at] is the time at which the first save to
    the session touched the record (what its second statement read on the
    clock, not the time stamp of the turn), [last_active] the time at
    which the last save did, [detected_persona] the persona of the last
    save that passed one (saves without a persona keep it), and no
    preferences are set. *)
Theorem session_record_after_saves (db : store) (sid : string)
        (cs : list save_call) (first : save_call) (rest : list save_call) :
  user_sessions db !! sid = None ->
  calls_for sid cs = first :: rest ->
  exists r : session_row,
    get_session_info sid (run_saves cs db) = Some r
    /\ created_at r = s_later first
    /\ Some (last_active r) = s_later <$> last (first :: rest)
    /\ detected_persona r = last_persona (first :: rest)
    /\ preferences r = None.
Proof.
  intros Hnone Hcalls. unfold get_session_info.
  rewrite run_saves_session, Hnone, Hcalls. cbn [foldl upsert_session].
  destruct (upserts_on_record rest
              {| created_at := s_later first; last_active := s_later first;
                 interaction_count := 1; detected_persona := s_persona first;
                 preferences := None |})
    as (r & Hrun & Hc & Hl & Hp & Hpr).
  exists r. split; [exact Hrun|]. cbn in Hc, Hl, Hp, Hpr.
  split; [exact Hc|]. split.
  - rewrite Hl. destruct rest as [|c' rest]; [reflexivity|].
    change (last (first :: c' :: rest)) with (last (c' :: rest)).
    destruct (last (c' :: rest)) eqn:E; [reflexivity|].
    apply last_None in E. discriminate.
  - split; [|exact Hpr]. rewrite Hp. unfold last_persona. cbn [foldl].
    destruct (s_persona first); reflexivity.
Qed.

Lemma session_record_after_saves_witness :
  detected_persona
    <$> get_session_info "s1"
          (run_saves [ SaveCall 10 10 "s1" "user" "Research Google" (Some "research")
                                (Some "efficient") None;
                       SaveCall 10 10 "s2" "user" "hello there" None (Some "chatty") None;
                       SaveCall 12 12 "s1" "assistant" "Researched Google."
                                (Some "research") None None ] empty_store)
  = Some (Some "efficient").
Proof.
  destruct (session_record_after_saves empty_store "s1"
              [ SaveCall 10 10 "s1" "user" "Research Google" (Some "research")
                         (Some "efficient") None;
                SaveCall 10 10 "s2" "user" "hello there" None (Some "chatty") None;
                SaveCall 12 12 "s1" "assistant" "Researched Google."
                         (Some "research") None None ]
              (SaveCall 10 10 "s1" "user" "Research Google" (Some "research")
                        (Some "efficient") None)
              [SaveCall 12 12 "s1" "assistant" "Researched Google."
                        (Some "research") None None])
    as (r & Hr & _ & _ & Hp & _).
  - reflexivity.
  - reflexivity.
  - rewrite Hr. cbn. rewrite Hp. reflexivity.
Defined.
